(** * The HCI layer of the Bluetooth stack (system/gd/hci/hci_layer.cc)

    A shallow embedding of [HciLayer::impl]: the command queue with its credit
    counter, the opcode of the command in flight and the timeout alarm, and
    the two event handler tables.  Every member function of [impl] is a
    function from the state of the layer to an outcome; what the layer does
    to the outside (HAL, alarm, callbacks, log) is appended to a trace that
    is part of the state. *)

From Stdlib Require Import ZArith NArith List Lia Bool.
From Stdlib.Strings Require Import Byte.
From stdpp Require Import base option list gmap.
Import ListNotations.

Local Open Scope Z_scope.

(** ** Packets and codes *)

(** [hal::HciPacket] is [std::vector<uint8_t>]. *)
Definition HciPacket := list byte.

(** [OpCode] is a 16-bit enum, [EventCode], [SubeventCode] and [ErrorCode]
    are 8-bit enums. *)
Definition OpCode := Z.
Definition EventCode := Z.
Definition SubeventCode := Z.
Definition ErrorCode := Z.

(** A view is a window on the bytes of a packet: [EventPacketView],
    [CommandStatusView], [CommandCompleteView] and [LeMetaEventView] of one
    event share its bytes, and the specialised views only add getters. *)
Definition EventPacketView := HciPacket.
Definition CommandStatusView := HciPacket.
Definition CommandCompleteView := HciPacket.
Definition LeMetaEventView := HciPacket.

(** A [CommandPacketBuilder] is used by the layer through [Serialize] only:
    the builder is the bytes it writes. *)
Record CommandPacketBuilder := { Serialize : HciPacket }.

(** The packet definitions (generated from the packet catalog) and the
    tables of events per interface are used by hci_layer.cc and declared
    elsewhere: they are taken as parameters. *)
Class PacketCatalog := {
  (* enum constants *)
  NONE : OpCode;
  COMMAND_COMPLETE : EventCode;
  COMMAND_STATUS : EventCode;
  LE_META_EVENT : EventCode;
  PAGE_SCAN_REPETITION_MODE_CHANGE : EventCode;
  MAX_SLOTS_CHANGE : EventCode;
  VENDOR_SPECIFIC : EventCode;
  SUCCESS : ErrorCode;
  (* CommandPacketView::Create(bytes) *)
  CommandPacketView_IsValid : HciPacket -> bool;
  CommandPacketView_GetOpCode : HciPacket -> OpCode;
  (* EventPacketView::Create(packet) *)
  EventPacketView_IsValid : HciPacket -> bool;
  GetEventCode : EventPacketView -> EventCode;
  (* CommandStatusView::Create(event) *)
  CommandStatusView_IsValid : EventPacketView -> bool;
  CommandStatusView_GetNumHciCommandPackets : CommandStatusView -> N;
  CommandStatusView_GetCommandOpCode : CommandStatusView -> OpCode;
  (* CommandCompleteView::Create(event) *)
  CommandCompleteView_IsValid : EventPacketView -> bool;
  CommandCompleteView_GetNumHciCommandPackets : CommandCompleteView -> N;
  CommandCompleteView_GetCommandOpCode : CommandCompleteView -> OpCode;
  (* LeMetaEventView::Create(event) *)
  LeMetaEventView_IsValid : EventPacketView -> bool;
  GetSubeventCode : LeMetaEventView -> SubeventCode;
  (* ResetCompleteView::Create(complete) *)
  ResetCompleteView_IsValid : CommandCompleteView -> bool;
  ResetCompleteView_GetStatus : CommandCompleteView -> ErrorCode;
  (* ResetBuilder::Create() *)
  ResetBuilder_Create : CommandPacketBuilder;
  (* tables of the events of each interface *)
  AclConnectionEvents : list EventCode;
  LeConnectionManagementEvents : list SubeventCode;
  SecurityEvents : list EventCode;
  LeSecurityEvents : list SubeventCode;
  LeAdvertisingEvents : list SubeventCode;
  LeScanningEvents : list SubeventCode;
  (* the command timeout, in milliseconds *)
  kHciTimeoutMs : Z
}.

(** ** Callbacks

    A callback is a value the layer stores and later invokes; invoking it
    posts the call to the context it was bound to.  The callbacks the layer
    binds to its own member functions are told apart from the ones of its
    clients, which are opaque. *)

(** [ContextualCallback<void(EventPacketView)>] *)
Inductive EventCallback :=
| BindOn_on_command_complete
| BindOn_on_command_status
| BindOn_on_le_meta_event
| BindOn_drop
| ClientEventCallback (id : nat).

(** [ContextualCallback<void(LeMetaEventView)>] *)
Inductive LeEventCallback :=
| ClientLeEventCallback (id : nat).

(** [ContextualOnceCallback<void(CommandStatusView)>]; [EmptyStatusCallback]
    is the default-constructed one. *)
Inductive StatusCallback :=
| EmptyStatusCallback
| ClientStatusCallback (id : nat).

(** [ContextualOnceCallback<void(CommandCompleteView)>] *)
Inductive CompleteCallback :=
| EmptyCompleteCallback
| BindOnce_fail_if_reset_complete_not_success
| ClientCompleteCallback (id : nat).

(** [ContextualCallback<void(uint16_t, ErrorCode)>] *)
Inductive DisconnectCallback :=
| ClientDisconnectCallback (id : nat).

(** ** class CommandQueueEntry *)

Record CommandQueueEntry := {
  command : CommandPacketBuilder;
  waiting_for_status_ : bool;
  on_status : StatusCallback;
  on_complete : CompleteCallback
}.

(** The two constructors of the class. *)
Definition CommandQueueEntry_complete
    (command_packet : CommandPacketBuilder) (on_complete_function : CompleteCallback)
    : CommandQueueEntry :=
  {| command := command_packet; waiting_for_status_ := false;
     on_status := EmptyStatusCallback; on_complete := on_complete_function |}.

Definition CommandQueueEntry_status
    (command_packet : CommandPacketBuilder) (on_status_function : StatusCallback)
    : CommandQueueEntry :=
  {| command := command_packet; waiting_for_status_ := true;
     on_status := on_status_function; on_complete := EmptyCompleteCallback |}.

(** ** What the layer does to the outside *)

Inductive Effect :=
| sendHciCommand (bytes : HciPacket)                          (* hal_->sendHciCommand *)
| Invoke_on_status (f : StatusCallback) (v : CommandStatusView)
| Invoke_on_complete (f : CompleteCallback) (v : CommandCompleteView)
| Invoke_event_handler (f : EventCallback) (e : EventPacketView)
| Invoke_subevent_handler (f : LeEventCallback) (v : LeMetaEventView)
| Alarm_Schedule (op_code : OpCode) (ms : Z)                  (* BindOnce(&on_hci_timeout, op_code) *)
| Alarm_Cancel
| LOG_DEBUG_dropping (event_code : EventCode).

(** ** struct HciLayer::impl *)

Record impl := {
  command_queue_ : list CommandQueueEntry;
  event_handlers_ : gmap Z EventCallback;
  subevent_handlers_ : gmap Z LeEventCallback;
  waiting_command_ : OpCode;
  (* uint8_t; it is assigned and compared with 0, never computed with *)
  command_credits_ : N;
  (* the task the alarm holds and its delay, when it is scheduled *)
  hci_timeout_alarm_ : option (OpCode * Z);
  (* ghost: the effects so far, oldest first *)
  trace_ : list Effect
}.

Definition set_command_queue_ (q : list CommandQueueEntry) (s : impl) : impl :=
  {| command_queue_ := q; event_handlers_ := event_handlers_ s;
     subevent_handlers_ := subevent_handlers_ s; waiting_command_ := waiting_command_ s;
     command_credits_ := command_credits_ s; hci_timeout_alarm_ := hci_timeout_alarm_ s;
     trace_ := trace_ s |}.

Definition set_event_handlers_ (m : gmap Z EventCallback) (s : impl) : impl :=
  {| command_queue_ := command_queue_ s; event_handlers_ := m;
     subevent_handlers_ := subevent_handlers_ s; waiting_command_ := waiting_command_ s;
     command_credits_ := command_credits_ s; hci_timeout_alarm_ := hci_timeout_alarm_ s;
     trace_ := trace_ s |}.

Definition set_subevent_handlers_ (m : gmap Z LeEventCallback) (s : impl) : impl :=
  {| command_queue_ := command_queue_ s; event_handlers_ := event_handlers_ s;
     subevent_handlers_ := m; waiting_command_ := waiting_command_ s;
     command_credits_ := command_credits_ s; hci_timeout_alarm_ := hci_timeout_alarm_ s;
     trace_ := trace_ s |}.

Definition set_waiting_command_ (op : OpCode) (s : impl) : impl :=
  {| command_queue_ := command_queue_ s; event_handlers_ := event_handlers_ s;
     subevent_handlers_ := subevent_handlers_ s; waiting_command_ := op;
     command_credits_ := command_credits_ s; hci_timeout_alarm_ := hci_timeout_alarm_ s;
     trace_ := trace_ s |}.

Definition set_command_credits_ (n : N) (s : impl) : impl :=
  {| command_queue_ := command_queue_ s; event_handlers_ := event_handlers_ s;
     subevent_handlers_ := subevent_handlers_ s; waiting_command_ := waiting_command_ s;
     command_credits_ := n; hci_timeout_alarm_ := hci_timeout_alarm_ s;
     trace_ := trace_ s |}.

Definition set_hci_timeout_alarm_ (a : option (OpCode * Z)) (s : impl) : impl :=
  {| command_queue_ := command_queue_ s; event_handlers_ := event_handlers_ s;
     subevent_handlers_ := subevent_handlers_ s; waiting_command_ := waiting_command_ s;
     command_credits_ := command_credits_ s; hci_timeout_alarm_ := a;
     trace_ := trace_ s |}.

Definition emit (e : Effect) (s : impl) : impl :=
  {| command_queue_ := command_queue_ s; event_handlers_ := event_handlers_ s;
     subevent_handlers_ := subevent_handlers_ s; waiting_command_ := waiting_command_ s;
     command_credits_ := command_credits_ s; hci_timeout_alarm_ := hci_timeout_alarm_ s;
     trace_ := trace_ s ++ [e] |}.

(** The state made by the constructor of [impl]: the member initialisers
    give one credit (for the reset command) and no command in flight. *)
Definition impl_new `{PacketCatalog} : impl :=
  {| command_queue_ := []; event_handlers_ := ∅; subevent_handlers_ := ∅;
     waiting_command_ := NONE; command_credits_ := 1%N;
     hci_timeout_alarm_ := None; trace_ := [] |}.

(** ** Outcomes

    [ASSERT] and [ASSERT_LOG] abort the process when their condition is
    false.  An aborted outcome keeps the state at the abort, so that the
    effects that came before it can be read from its trace. *)

Inductive Failure :=
| ASSERT_status_view_IsValid
| ASSERT_complete_view_IsValid
| ASSERT_meta_event_view_IsValid
| ASSERT_cmd_view_IsValid
| ASSERT_event_IsValid
| ASSERT_reset_complete_IsValid
| ASSERT_reset_complete_SUCCESS
| Unexpected_status_event (op_code : OpCode)
| Unexpected_command_complete (op_code : OpCode)
| Waiting_for_got (waiting op_code : OpCode)
| Waiting_for_command_complete_got_command_status (waiting op_code : OpCode)
| Waiting_for_command_status_got_command_complete (waiting op_code : OpCode)
| Unhandled_le_event (subevent_code : SubeventCode)
| Second_handler_for_event_code (event_code : EventCode)
| Second_handler_for_subevent_code (subevent_code : SubeventCode)
| Timed_out_waiting_for (op_code : OpCode).

(** A handler ends, or the process aborts on a failed assertion, or the
    handler does something C++ gives no meaning to: [Undefined s] says that
    the behaviour is undefined from the state [s] on.  It is neither an end
    nor an abort, and nothing is known of what follows it. *)
Inductive Outcome :=
| Done (s : impl)
| Aborted (f : Failure) (s : impl)
| Undefined (s : impl).

Definition Handler := impl -> Outcome.

Definition andThen (c : Handler) (k : Handler) : Handler :=
  fun s => match c s with
           | Done s' => k s'
           | Aborted f s' => Aborted f s'
           | Undefined s' => Undefined s'
           end.

Definition lift (f : impl -> impl) : Handler := fun s => Done (f s).

Definition ASSERT_LOG (cond : bool) (f : Failure) : Handler :=
  fun s => if cond then Done s else Aborted f s.

(** The state at the end, at the abort, or where the behaviour stops
    being defined. *)
Definition state_of (o : Outcome) : impl :=
  match o with Done s => s | Aborted _ s => s | Undefined s => s end.

Definition is_aborted (o : Outcome) : bool :=
  match o with Done _ => false | Aborted _ _ => true | Undefined _ => false end.

Definition is_undefined (o : Outcome) : bool :=
  match o with Done _ => false | Aborted _ _ => false | Undefined _ => true end.

Declare Scope handler_scope.
Delimit Scope handler_scope with handler.
Notation "c ;; k" := (andThen c k)
  (at level 100, k at level 200, right associativity) : handler_scope.
Local Open Scope handler_scope.

(** ** The member functions of HciLayer::impl *)

Section Impl.
Context `{PacketCatalog}.

(** [ASSERT_LOG(false, "Timed out waiting for ...", op_code, ...)] *)
Definition on_hci_timeout (op_code : OpCode) : Handler :=
  ASSERT_LOG false (Timed_out_waiting_for op_code).

Definition fail_if_reset_complete_not_success (complete : CommandCompleteView) : Handler :=
  let reset_complete := complete in
  ASSERT_LOG (ResetCompleteView_IsValid reset_complete) ASSERT_reset_complete_IsValid ;;
  ASSERT_LOG (ResetCompleteView_GetStatus reset_complete =? SUCCESS)
             ASSERT_reset_complete_SUCCESS.

(** [hci_timeout_alarm_->Schedule(BindOnce(&on_hci_timeout, op_code), ms)] *)
Definition Alarm_Schedule_ (op_code : OpCode) (ms : Z) : Handler :=
  lift (fun s => emit (Alarm_Schedule op_code ms)
                      (set_hci_timeout_alarm_ (Some (op_code, ms)) s)).

(** [hci_timeout_alarm_->Cancel()] *)
Definition Alarm_Cancel_ : Handler :=
  lift (fun s => emit Alarm_Cancel (set_hci_timeout_alarm_ None s)).

(** The alarm goes off: the task it holds runs on the handler. *)
Definition alarm_fires : Handler :=
  fun s => match hci_timeout_alarm_ s with
           | Some (op_code, _) => on_hci_timeout op_code s
           | None => Done s
           end.

Definition drop (_ : EventPacketView) : Handler := lift id.

Definition send_next_command : Handler :=
  fun s =>
    if (command_credits_ s =? 0)%N then Done s
    else if negb (waiting_command_ s =? NONE) then Done s
    else match command_queue_ s with
         | [] => Done s
         | front :: _ =>
           let bytes := Serialize (command front) in
           (lift (emit (sendHciCommand bytes)) ;;
            ASSERT_LOG (CommandPacketView_IsValid bytes) ASSERT_cmd_view_IsValid ;;
            let op_code := CommandPacketView_GetOpCode bytes in
            lift (set_waiting_command_ op_code) ;;
            lift (set_command_credits_ 0%N) ;;
            Alarm_Schedule_ op_code kHciTimeoutMs) s
         end.

Definition on_command_status (event : EventPacketView) : Handler :=
  let status_view : CommandStatusView := event in
  ASSERT_LOG (CommandStatusView_IsValid status_view) ASSERT_status_view_IsValid ;;
  lift (set_command_credits_ (CommandStatusView_GetNumHciCommandPackets status_view)) ;;
  let op_code := CommandStatusView_GetCommandOpCode status_view in
  if op_code =? NONE then send_next_command
  else fun s =>
    match command_queue_ s with
    | [] => Aborted (Unexpected_status_event op_code) s
    | front :: rest =>
      (ASSERT_LOG (waiting_command_ s =? op_code)
                  (Waiting_for_got (waiting_command_ s) op_code) ;;
       ASSERT_LOG (waiting_for_status_ front)
                  (Waiting_for_command_complete_got_command_status
                     (waiting_command_ s) op_code) ;;
       lift (emit (Invoke_on_status (on_status front) status_view)) ;;
       lift (set_command_queue_ rest) ;;
       lift (set_waiting_command_ NONE) ;;
       Alarm_Cancel_ ;;
       send_next_command) s
    end.

Definition on_command_complete (event : EventPacketView) : Handler :=
  let complete_view : CommandCompleteView := event in
  ASSERT_LOG (CommandCompleteView_IsValid complete_view) ASSERT_complete_view_IsValid ;;
  lift (set_command_credits_ (CommandCompleteView_GetNumHciCommandPackets complete_view)) ;;
  let op_code := CommandCompleteView_GetCommandOpCode complete_view in
  if op_code =? NONE then send_next_command
  else fun s =>
    match command_queue_ s with
    | [] => Aborted (Unexpected_command_complete op_code) s
    | front :: rest =>
      (ASSERT_LOG (waiting_command_ s =? op_code)
                  (Waiting_for_got (waiting_command_ s) op_code) ;;
       ASSERT_LOG (negb (waiting_for_status_ front))
                  (Waiting_for_command_status_got_command_complete
                     (waiting_command_ s) op_code) ;;
       lift (emit (Invoke_on_complete (on_complete front) complete_view)) ;;
       lift (set_command_queue_ rest) ;;
       lift (set_waiting_command_ NONE) ;;
       Alarm_Cancel_ ;;
       send_next_command) s
    end.

Definition on_le_meta_event (event : EventPacketView) : Handler :=
  let meta_event_view : LeMetaEventView := event in
  ASSERT_LOG (LeMetaEventView_IsValid meta_event_view) ASSERT_meta_event_view_IsValid ;;
  let subevent_code := GetSubeventCode meta_event_view in
  fun s =>
    match subevent_handlers_ s !! subevent_code with
    | None => Aborted (Unhandled_le_event subevent_code) s
    | Some f => Done (emit (Invoke_subevent_handler f meta_event_view) s)
    end.

Definition on_hci_event (event : EventPacketView) : Handler :=
  let event_code := GetEventCode event in
  fun s =>
    match event_handlers_ s !! event_code with
    | None => Done (emit (LOG_DEBUG_dropping event_code) s)
    | Some f => Done (emit (Invoke_event_handler f event) s)
    end.

Definition handle_enqueue_command_with_complete
    (command : CommandPacketBuilder) (on_complete : CompleteCallback) : Handler :=
  lift (fun s => set_command_queue_
                   (command_queue_ s ++ [CommandQueueEntry_complete command on_complete]) s) ;;
  send_next_command.

Definition handle_enqueue_command_with_status
    (command : CommandPacketBuilder) (on_status : StatusCallback) : Handler :=
  lift (fun s => set_command_queue_
                   (command_queue_ s ++ [CommandQueueEntry_status command on_status]) s) ;;
  send_next_command.

Definition handle_register_event_handler
    (event_code : EventCode) (event_handler : EventCallback) : Handler :=
  fun s =>
    match event_handlers_ s !! event_code with
    | Some _ => Aborted (Second_handler_for_event_code event_code) s
    | None => Done (set_event_handlers_ (<[event_code := event_handler]> (event_handlers_ s)) s)
    end.

(** [event_handlers_.erase(event_handlers_.find(event_code))], with no
    check of what [find] gives: for a missing key it gives the end iterator,
    and [erase] of the end iterator has undefined behaviour. *)
Definition handle_unregister_event_handler (event_code : EventCode) : Handler :=
  fun s =>
    match event_handlers_ s !! event_code with
    | Some _ => Done (set_event_handlers_ (delete event_code (event_handlers_ s)) s)
    | None => Undefined s
    end.

Definition handle_register_le_event_handler
    (subevent_code : SubeventCode) (subevent_handler : LeEventCallback) : Handler :=
  fun s =>
    match subevent_handlers_ s !! subevent_code with
    | Some _ => Aborted (Second_handler_for_subevent_code subevent_code) s
    | None =>
      Done (set_subevent_handlers_
              (<[subevent_code := subevent_handler]> (subevent_handlers_ s)) s)
    end.

Definition handle_unregister_le_event_handler (subevent_code : SubeventCode) : Handler :=
  fun s =>
    match subevent_handlers_ s !! subevent_code with
    | Some _ => Done (set_subevent_handlers_ (delete subevent_code (subevent_handlers_ s)) s)
    | None => Undefined s
    end.

(** ** Tasks on the handler of the module

    All of the above run on one handler, one task after the other.
    [CallOn(impl_, &impl::f, args)] posts the call of [f]; invoking a
    callback made by [handler->BindOn(impl_, &impl::f)] posts it too. *)

Inductive Task :=
| call_on_hci_event (event : EventPacketView)
| call_on_command_complete (event : EventPacketView)
| call_on_command_status (event : EventPacketView)
| call_on_le_meta_event (event : EventPacketView)
| call_drop (event : EventPacketView)
| call_fail_if_reset_complete_not_success (complete : CommandCompleteView)
| call_handle_enqueue_command_with_complete
    (command : CommandPacketBuilder) (on_complete : CompleteCallback)
| call_handle_enqueue_command_with_status
    (command : CommandPacketBuilder) (on_status : StatusCallback)
| call_handle_register_event_handler (event_code : EventCode) (f : EventCallback)
| call_handle_unregister_event_handler (event_code : EventCode)
| call_handle_register_le_event_handler (subevent_code : SubeventCode) (f : LeEventCallback)
| call_handle_unregister_le_event_handler (subevent_code : SubeventCode)
| call_alarm_fires.

Definition run_task (t : Task) : Handler :=
  match t with
  | call_on_hci_event e => on_hci_event e
  | call_on_command_complete e => on_command_complete e
  | call_on_command_status e => on_command_status e
  | call_on_le_meta_event e => on_le_meta_event e
  | call_drop e => drop e
  | call_fail_if_reset_complete_not_success v => fail_if_reset_complete_not_success v
  | call_handle_enqueue_command_with_complete c f => handle_enqueue_command_with_complete c f
  | call_handle_enqueue_command_with_status c f => handle_enqueue_command_with_status c f
  | call_handle_register_event_handler c f => handle_register_event_handler c f
  | call_handle_unregister_event_handler c => handle_unregister_event_handler c
  | call_handle_register_le_event_handler c f => handle_register_le_event_handler c f
  | call_handle_unregister_le_event_handler c => handle_unregister_le_event_handler c
  | call_alarm_fires => alarm_fires
  end.

Fixpoint run (ts : list Task) : Handler :=
  match ts with
  | [] => lift id
  | t :: ts' => run_task t ;; run ts'
  end.

(** The task an invoked event callback posts on the handler of the module,
    when the callback is one of the layer's own. *)
Definition posted_by_event_callback (f : EventCallback) (event : EventPacketView)
    : option Task :=
  match f with
  | BindOn_on_command_complete => Some (call_on_command_complete event)
  | BindOn_on_command_status => Some (call_on_command_status event)
  | BindOn_on_le_meta_event => Some (call_on_le_meta_event event)
  | BindOn_drop => Some (call_drop event)
  | ClientEventCallback _ => None
  end.

(** ** The methods of HciLayer: each posts calls on the handler *)

Definition EnqueueCommand_complete
    (command : CommandPacketBuilder) (on_complete : CompleteCallback) : list Task :=
  [call_handle_enqueue_command_with_complete command on_complete].

Definition EnqueueCommand_status
    (command : CommandPacketBuilder) (on_status : StatusCallback) : list Task :=
  [call_handle_enqueue_command_with_status command on_status].

Definition RegisterEventHandler (event_code : EventCode) (event_handler : EventCallback)
    : list Task :=
  [call_handle_register_event_handler event_code event_handler].

Definition UnregisterEventHandler (event_code : EventCode) : list Task :=
  [call_handle_unregister_event_handler event_code].

Definition RegisterLeEventHandler
    (subevent_code : SubeventCode) (event_handler : LeEventCallback) : list Task :=
  [call_handle_register_le_event_handler subevent_code event_handler].

Definition UnregisterLeEventHandler (subevent_code : SubeventCode) : list Task :=
  [call_handle_unregister_le_event_handler subevent_code].

(** The interfaces held by [impl]; a getter returns the address of one. *)
Inductive CommandInterface :=
| acl_connection_manager_interface_
| le_acl_connection_manager_interface_
| security_interface
| le_security_interface
| le_advertising_interface
| le_scanning_interface.

Definition GetAclConnectionInterface
    (event_handler : EventCallback) (on_disconnect : DisconnectCallback)
    : CommandInterface * list Task :=
  (acl_connection_manager_interface_,
   flat_map (fun event => RegisterEventHandler event event_handler) AclConnectionEvents).

Definition GetLeAclConnectionInterface
    (event_handler : LeEventCallback) (on_disconnect : DisconnectCallback)
    : CommandInterface * list Task :=
  (le_acl_connection_manager_interface_,
   flat_map (fun event => RegisterLeEventHandler event event_handler)
            LeConnectionManagementEvents).

Definition GetSecurityInterface (event_handler : EventCallback)
    : CommandInterface * list Task :=
  (security_interface,
   flat_map (fun event => RegisterEventHandler event event_handler) SecurityEvents).

Definition GetLeSecurityInterface (event_handler : LeEventCallback)
    : CommandInterface * list Task :=
  (le_security_interface,
   flat_map (fun subevent => RegisterLeEventHandler subevent event_handler) LeSecurityEvents).

Definition GetLeAdvertisingInterface (event_handler : LeEventCallback)
    : CommandInterface * list Task :=
  (le_advertising_interface,
   flat_map (fun subevent => RegisterLeEventHandler subevent event_handler)
            LeAdvertisingEvents).

Definition GetLeScanningInterface (event_handler : LeEventCallback)
    : CommandInterface * list Task :=
  (le_scanning_interface,
   flat_map (fun subevent => RegisterLeEventHandler subevent event_handler) LeScanningEvents).

(** [Start] makes the [impl] and posts the registrations of the layer's own
    handlers and the reset command. *)
Definition Start : impl * list Task :=
  (impl_new,
   RegisterEventHandler COMMAND_COMPLETE BindOn_on_command_complete ++
   RegisterEventHandler COMMAND_STATUS BindOn_on_command_status ++
   RegisterEventHandler LE_META_EVENT BindOn_on_le_meta_event ++
   RegisterEventHandler PAGE_SCAN_REPETITION_MODE_CHANGE BindOn_drop ++
   RegisterEventHandler MAX_SLOTS_CHANGE BindOn_drop ++
   RegisterEventHandler VENDOR_SPECIFIC BindOn_drop ++
   EnqueueCommand_complete ResetBuilder_Create BindOnce_fail_if_reset_complete_not_success).

(** [hal_callbacks::hciEventReceived], on the thread of the HAL: the event
    is checked there and its dispatch posted. *)
Definition hciEventReceived (event_bytes : HciPacket) : Failure + list Task :=
  if EventPacketView_IsValid event_bytes
  then inr [call_on_hci_event event_bytes]
  else inl ASSERT_event_IsValid.

End Impl.

(** ** A catalog to run the layer on

    The layout of HCI packets of the Bluetooth Core Specification: a command
    is its opcode (two bytes, low first), the length of its parameters and
    the parameters; an event is its code, the length of its parameters and
    the parameters.  The theorems below hold for every catalog; this one
    serves to run the layer on concrete packets. *)

Module Wire.

Definition byte_at (i : nat) (p : HciPacket) : Z :=
  Z.of_N (Byte.to_N (nth i p x00)).

Definition u16_at (i : nat) (p : HciPacket) : Z :=
  Z.lor (byte_at i p) (Z.shiftl (byte_at (S i) p) 8).

Definition sized (header : nat) (p : HciPacket) : bool :=
  (header <=? length p)%nat && (byte_at (header - 1) p =? Z.of_nat (length p - header)).

Definition RESET : OpCode := 0x0C03.

#[global] Instance catalog : PacketCatalog := {|
  NONE := 0x0000;
  COMMAND_COMPLETE := 0x0E;
  COMMAND_STATUS := 0x0F;
  LE_META_EVENT := 0x3E;
  PAGE_SCAN_REPETITION_MODE_CHANGE := 0x20;
  MAX_SLOTS_CHANGE := 0x1B;
  VENDOR_SPECIFIC := 0xFF;
  SUCCESS := 0x00;
  CommandPacketView_IsValid p := sized 3 p;
  CommandPacketView_GetOpCode p := u16_at 0 p;
  EventPacketView_IsValid p := sized 2 p;
  GetEventCode p := byte_at 0 p;
  (* status, num_hci_command_packets, command_op_code *)
  CommandStatusView_IsValid p := sized 2 p && (byte_at 0 p =? 0x0F) && (6 <=? length p)%nat;
  CommandStatusView_GetNumHciCommandPackets p := Byte.to_N (nth 3 p x00);
  CommandStatusView_GetCommandOpCode p := u16_at 4 p;
  (* num_hci_command_packets, command_op_code, return parameters *)
  CommandCompleteView_IsValid p := sized 2 p && (byte_at 0 p =? 0x0E) && (5 <=? length p)%nat;
  CommandCompleteView_GetNumHciCommandPackets p := Byte.to_N (nth 2 p x00);
  CommandCompleteView_GetCommandOpCode p := u16_at 3 p;
  (* subevent_code *)
  LeMetaEventView_IsValid p := sized 2 p && (byte_at 0 p =? 0x3E) && (3 <=? length p)%nat;
  GetSubeventCode p := byte_at 2 p;
  ResetCompleteView_IsValid p := (u16_at 3 p =? RESET) && (6 <=? length p)%nat;
  ResetCompleteView_GetStatus p := byte_at 5 p;
  ResetBuilder_Create := {| Serialize := [x03; x0c; x00] |};
  (* a few codes per interface *)
  AclConnectionEvents := [0x1D; 0x06; 0x1C];
  LeConnectionManagementEvents := [0x01; 0x0A; 0x03];
  SecurityEvents := [0x08; 0x16; 0x17];
  LeSecurityEvents := [0x05; 0x08; 0x09];
  LeAdvertisingEvents := [0x12; 0x0B];
  LeScanningEvents := [0x02; 0x0D];
  kHciTimeoutMs := 2000
|}.

(** Some commands and events. *)
Definition inquiry_cancel : CommandPacketBuilder := {| Serialize := [x02; x04; x00] |}.
Definition create_connection_cancel : CommandPacketBuilder :=
  {| Serialize := [x08; x04; x00] |}.
Definition nop : CommandPacketBuilder := {| Serialize := [x00; x00; x00] |}.

(** command status: [status], [credits], opcode *)
Definition command_status (status credits lo hi : byte) : EventPacketView :=
  [x0f; x04; status; credits; lo; hi].

(** command complete: [credits], opcode, one return parameter *)
Definition command_complete (credits lo hi ret : byte) : EventPacketView :=
  [x0e; x04; credits; lo; hi; ret].

(** LE meta event with one byte after the subevent code *)
Definition le_meta (subevent b : byte) : EventPacketView :=
  [x3e; x02; subevent; b].

(** The status of [inquiry_cancel], with one credit. *)
Definition inquiry_cancel_status : EventPacketView := command_status x00 x01 x02 x04.

(** The status of [create_connection_cancel], with one credit. *)
Definition create_connection_cancel_status : EventPacketView :=
  command_status x00 x01 x08 x04.

(** A command status for the opcode [NONE], with one credit. *)
Definition credit_grant : EventPacketView := command_status x00 x01 x00 x00.

(** An LE meta event with subevent code 1. *)
Definition le_subevent_1 : EventPacketView := le_meta x01 x00.

(** The layer once the tasks posted by [Start] ran: the reset command is
    in flight. *)
Definition started : Outcome := run (snd Start) (fst Start).

(** An idle layer with one credit and one command in its queue. *)
Definition ready : impl :=
  {| command_queue_ := [CommandQueueEntry_status inquiry_cancel (ClientStatusCallback 7)];
     event_handlers_ := ∅; subevent_handlers_ := ∅;
     waiting_command_ := 0x0000; command_credits_ := 1%N;
     hci_timeout_alarm_ := None; trace_ := [] |}.

(** The same layer after [send_next_command]: the command is in flight. *)
Definition in_flight : impl :=
  {| command_queue_ := [CommandQueueEntry_status inquiry_cancel (ClientStatusCallback 7)];
     event_handlers_ := ∅; subevent_handlers_ := ∅;
     waiting_command_ := 0x0402; command_credits_ := 0%N;
     hci_timeout_alarm_ := Some (0x0402, 2000);
     trace_ := [sendHciCommand [x02; x04; x00]; Alarm_Schedule 0x0402 2000] |}.

(** A layer whose head of queue waits for a command complete. *)
Definition in_flight_complete : impl :=
  {| command_queue_ :=
       [CommandQueueEntry_complete create_connection_cancel (ClientCompleteCallback 8)];
     event_handlers_ := ∅; subevent_handlers_ := ∅;
     waiting_command_ := 0x0408; command_credits_ := 0%N;
     hci_timeout_alarm_ := Some (0x0408, 2000);
     trace_ := [sendHciCommand [x08; x04; x00]; Alarm_Schedule 0x0408 2000] |}.

(** A layer with one handler in each table. *)
Definition with_handlers : impl :=
  {| command_queue_ := [];
     event_handlers_ := {[ 0x3E := BindOn_on_le_meta_event ]};
     subevent_handlers_ := {[ 0x01 := ClientLeEventCallback 3 ]};
     waiting_command_ := 0x0000; command_credits_ := 1%N;
     hci_timeout_alarm_ := None; trace_ := [] |}.

(** Two commands are enqueued and answered, the first by a status and the
    second by a complete. *)
Definition two_commands : list Task :=
  [call_handle_enqueue_command_with_status inquiry_cancel (ClientStatusCallback 1);
   call_handle_enqueue_command_with_complete create_connection_cancel
     (ClientCompleteCallback 2);
   call_on_command_status inquiry_cancel_status;
   call_on_command_complete (command_complete x01 x08 x04 x00)].

(** A command is enqueued and sent, then the controller grants a credit
    with a command status for the opcode [NONE]. *)
Definition credit_grant_in_flight : list Task :=
  [call_handle_enqueue_command_with_status inquiry_cancel (ClientStatusCallback 1);
   call_on_command_status credit_grant].

(** A command with the opcode [NONE] is enqueued, then another command,
    then the controller grants a credit. *)
Definition nop_first : list Task :=
  [call_handle_enqueue_command_with_complete nop (ClientCompleteCallback 0);
   call_handle_enqueue_command_with_complete inquiry_cancel (ClientCompleteCallback 1);
   call_on_command_status credit_grant].

End Wire.

(** ** Reading traces *)

Definition hal_commands (tr : list Effect) : list HciPacket :=
  omap (fun e => match e with sendHciCommand b => Some b | _ => None end) tr.

(** The response callbacks invoked, oldest first. *)
Definition sinks (tr : list Effect) : list (StatusCallback + CompleteCallback) :=
  omap (fun e => match e with
                 | Invoke_on_status f _ => Some (inl f)
                 | Invoke_on_complete f _ => Some (inr f)
                 | _ => None
                 end) tr.

(** The callback of a queue entry that answers it. *)
Definition sink_of (e : CommandQueueEntry) : StatusCallback + CompleteCallback :=
  if waiting_for_status_ e then inl (on_status e) else inr (on_complete e).

(** ** States named in the statements *)

Section States.
Context `{PacketCatalog}.

(** The state after a command was sent. *)
Definition sent (bytes : HciPacket) (s : impl) : impl :=
  let op_code := CommandPacketView_GetOpCode bytes in
  {| command_queue_ := command_queue_ s;
     event_handlers_ := event_handlers_ s;
     subevent_handlers_ := subevent_handlers_ s;
     waiting_command_ := op_code;
     command_credits_ := 0%N;
     hci_timeout_alarm_ := Some (op_code, kHciTimeoutMs);
     trace_ := trace_ s ++ [sendHciCommand bytes; Alarm_Schedule op_code kHciTimeoutMs] |}.

(** Whether [send_next_command] passes its three early returns. *)
Definition can_send (s : impl) : bool :=
  negb (command_credits_ s =? 0)%N && (waiting_command_ s =? NONE)
  && negb (bool_decide (command_queue_ s = [])).

(** The state once the head of the queue was answered: the callback
    invoked, the head popped, no command in flight, the alarm cancelled. *)
Definition answered (credits : N) (rest : list CommandQueueEntry) (invoked : Effect)
    (s : impl) : impl :=
  {| command_queue_ := rest;
     event_handlers_ := event_handlers_ s;
     subevent_handlers_ := subevent_handlers_ s;
     waiting_command_ := NONE;
     command_credits_ := credits;
     hci_timeout_alarm_ := None;
     trace_ := trace_ s ++ [invoked; Alarm_Cancel] |}.

(** The invariant of the data model of the engine: while a command is in
    flight there is no credit. *)
Definition one_credit_in_flight (s : impl) : Prop :=
  waiting_command_ s <> NONE -> command_credits_ s = 0%N.

(** A response task whose event carries the opcode [NONE]: it only brings
    credits. *)
Definition is_credit_only (t : Task) : bool :=
  match t with
  | call_on_command_status event => CommandStatusView_GetCommandOpCode event =? NONE
  | call_on_command_complete event => CommandCompleteView_GetCommandOpCode event =? NONE
  | _ => false
  end.

(** The entries a list of tasks puts in the queue, in the order of the tasks. *)
Definition enqueued_by (t : Task) : list CommandQueueEntry :=
  match t with
  | call_handle_enqueue_command_with_complete c f => [CommandQueueEntry_complete c f]
  | call_handle_enqueue_command_with_status c f => [CommandQueueEntry_status c f]
  | _ => []
  end.

Definition enqueued (ts : list Task) : list CommandQueueEntry := flat_map enqueued_by ts.

Definition bytes_of (e : CommandQueueEntry) : HciPacket := Serialize (command e).

(** The opcode [send_next_command] reads back from the bytes of an entry. *)
Definition opcode_of (e : CommandQueueEntry) : OpCode :=
  CommandPacketView_GetOpCode (bytes_of e).

(** The alarm is scheduled while a command is in flight, and a scheduled
    alarm holds the opcode of the head of the queue. *)
Definition alarm_watches_head (s : impl) : Prop :=
  (waiting_command_ s <> NONE ->
   hci_timeout_alarm_ s = Some (waiting_command_ s, kHciTimeoutMs))
  /\ (forall op_code ms,
        hci_timeout_alarm_ s = Some (op_code, ms) ->
        ms = kHciTimeoutMs /\
        (exists front rest, command_queue_ s = front :: rest /\ op_code = opcode_of front)).

(** The entries [done] were sent and answered, in this order; the head of
    the queue was sent when a command is in flight, and nothing else was. *)
Definition fifo (done : list CommandQueueEntry) (s : impl) : Prop :=
  sinks (trace_ s) = map sink_of done
  /\ hal_commands (trace_ s)
     = map bytes_of done ++
       (if waiting_command_ s =? NONE then [] else map bytes_of (take 1 (command_queue_ s)))
  /\ (waiting_command_ s <> NONE -> command_queue_ s <> [])
  /\ Forall (fun e => opcode_of e <> NONE) (command_queue_ s).

(** The tasks that touch the command queue, the credits, the command in
    flight or the alarm. *)
Definition is_engine_task (t : Task) : bool :=
  match t with
  | call_on_command_complete _ | call_on_command_status _
  | call_handle_enqueue_command_with_complete _ _
  | call_handle_enqueue_command_with_status _ _ => true
  | _ => false
  end.

(** The commands sent and the callbacks invoked are those of the first
    entries of [all], in the order of [all]; a callback is invoked for a
    command that was sent, and at most one command sent has no answer. *)
Definition fifo_trace (all : list CommandQueueEntry) (s : impl) : Prop :=
  sinks (trace_ s) `prefix_of` map sink_of all
  /\ hal_commands (trace_ s) `prefix_of` map bytes_of all
  /\ (length (sinks (trace_ s)) <= length (hal_commands (trace_ s))
      <= S (length (sinks (trace_ s))))%nat.

(** The order of commands and callbacks of a run of tasks from the state
    of the constructor: the k-th command given to the HAL is the k-th
    enqueued, the k-th response callback invoked is the one of the k-th
    enqueued, and the callbacks follow the commands, at most one behind. *)
Definition fifo_dispatch (ts : list Task) : Prop :=
  let s := state_of (run ts impl_new) in
  (forall (k : nat) (bytes : HciPacket),
      hal_commands (trace_ s) !! k = Some bytes ->
      exists e, enqueued ts !! k = Some e /\ bytes = Serialize (command e))
  /\ (forall (k : nat) (f : StatusCallback + CompleteCallback),
        sinks (trace_ s) !! k = Some f ->
        exists e, enqueued ts !! k = Some e /\ f = sink_of e)
  /\ (length (sinks (trace_ s)) <= length (hal_commands (trace_ s))
      <= S (length (sinks (trace_ s))))%nat.

End States.

(** ** The state [Start] leaves, and more invariants *)

Section Started.
Context `{PacketCatalog}.

(** The codes [Start] registers a handler for, in the order of [Start]. *)
Definition Start_codes : list EventCode :=
  [COMMAND_COMPLETE; COMMAND_STATUS; LE_META_EVENT;
   PAGE_SCAN_REPETITION_MODE_CHANGE; MAX_SLOTS_CHANGE; VENDOR_SPECIFIC].

(** The table of event handlers once the registrations of [Start] ran. *)
Definition Start_handlers : gmap Z EventCallback :=
  <[VENDOR_SPECIFIC := BindOn_drop]>
    (<[MAX_SLOTS_CHANGE := BindOn_drop]>
       (<[PAGE_SCAN_REPETITION_MODE_CHANGE := BindOn_drop]>
          (<[LE_META_EVENT := BindOn_on_le_meta_event]>
             (<[COMMAND_STATUS := BindOn_on_command_status]>
                (<[COMMAND_COMPLETE := BindOn_on_command_complete]> ∅))))).

(** The entry [Start] enqueues. *)
Definition reset_entry : CommandQueueEntry :=
  CommandQueueEntry_complete ResetBuilder_Create BindOnce_fail_if_reset_complete_not_success.

(** The layer once all the tasks [Start] posts ran: the handlers are
    registered and the reset command is in flight. *)
Definition Start_done : impl :=
  {| command_queue_ := [reset_entry];
     event_handlers_ := Start_handlers;
     subevent_handlers_ := ∅;
     waiting_command_ := opcode_of reset_entry;
     command_credits_ := 0%N;
     hci_timeout_alarm_ := Some (opcode_of reset_entry, kHciTimeoutMs);
     trace_ := [sendHciCommand (bytes_of reset_entry);
                Alarm_Schedule (opcode_of reset_entry) kHciTimeoutMs] |}.

(** The tasks that write a handler table. *)
Definition is_table_task (t : Task) : bool :=
  match t with
  | call_handle_register_event_handler _ _
  | call_handle_unregister_event_handler _
  | call_handle_register_le_event_handler _ _
  | call_handle_unregister_le_event_handler _ => true
  | _ => false
  end.

(** The opcode in flight was read from the head of the queue. *)
Definition head_in_flight (s : impl) : Prop :=
  waiting_command_ s <> NONE ->
  exists front rest, command_queue_ s = front :: rest /\ opcode_of front = waiting_command_ s.

(** With no command in flight the alarm is not scheduled; no command of the
    queue has the opcode [NONE]. *)
Definition quiet_alarm (s : impl) : Prop :=
  (waiting_command_ s = NONE -> hci_timeout_alarm_ s = None)
  /\ Forall (fun e => opcode_of e <> NONE) (command_queue_ s).

(** A task after which there is no credit while a command is in flight,
    whatever the state before: a response with an opcode, or a response
    without one or an enqueue that finds no command in flight. *)
Definition reestablishes (t : Task) (s : impl) : bool :=
  match t with
  | call_on_command_status event =>
    negb (CommandStatusView_GetCommandOpCode event =? NONE) || (waiting_command_ s =? NONE)
  | call_on_command_complete event =>
    negb (CommandCompleteView_GetCommandOpCode event =? NONE)
    || (waiting_command_ s =? NONE)
  | call_handle_enqueue_command_with_complete _ _
  | call_handle_enqueue_command_with_status _ _ => waiting_command_ s =? NONE
  | _ => false
  end.

(** The count of credits a response brings. *)
Definition granted (t : Task) : N :=
  match t with
  | call_on_command_status event => CommandStatusView_GetNumHciCommandPackets event
  | call_on_command_complete event => CommandCompleteView_GetNumHciCommandPackets event
  | _ => 0%N
  end.

(** The counts of the responses of a list of tasks that only bring credits. *)
Definition grants (ts : list Task) : list N :=
  flat_map (fun t => if is_credit_only t then [granted t] else []) ts.

(** The table of codes of an interface: event codes or LE subevent codes. *)
Definition interface_codes (i : CommandInterface) : list EventCode + list SubeventCode :=
  match i with
  | acl_connection_manager_interface_ => inl AclConnectionEvents
  | le_acl_connection_manager_interface_ => inr LeConnectionManagementEvents
  | security_interface => inl SecurityEvents
  | le_security_interface => inr LeSecurityEvents
  | le_advertising_interface => inr LeAdvertisingEvents
  | le_scanning_interface => inr LeScanningEvents
  end.

(** The calls the getter of an interface posts; a getter takes the handler
    of the kind of its table. *)
Definition getter_tasks (i : CommandInterface) (event_handler : EventCallback)
    (le_event_handler : LeEventCallback) (on_disconnect : DisconnectCallback)
    : list Task :=
  match i with
  | acl_connection_manager_interface_ =>
    snd (GetAclConnectionInterface event_handler on_disconnect)
  | le_acl_connection_manager_interface_ =>
    snd (GetLeAclConnectionInterface le_event_handler on_disconnect)
  | security_interface => snd (GetSecurityInterface event_handler)
  | le_security_interface => snd (GetLeSecurityInterface le_event_handler)
  | le_advertising_interface => snd (GetLeAdvertisingInterface le_event_handler)
  | le_scanning_interface => snd (GetLeScanningInterface le_event_handler)
  end.

(** Two interfaces register in the same handler table, and a code is in
    the tables of both. *)
Definition share_a_code (i j : CommandInterface) : Prop :=
  match interface_codes i, interface_codes j with
  | inl a, inl b => exists c, c ∈ a /\ c ∈ b
  | inr a, inr b => exists c, c ∈ a /\ c ∈ b
  | _, _ => False
  end.

Definition has_codes (i : CommandInterface) : Prop :=
  match interface_codes i with
  | inl a => a <> []
  | inr a => a <> []
  end.

End Started.

(** More packets and states of the wire. *)
Module Wire2.

(** The command complete of the reset command, with one credit and the
    status [SUCCESS]. *)
Definition reset_complete : EventPacketView := Wire.command_complete x01 x03 x0c x00.

(** The same with the status 0x01. *)
Definition reset_failed : EventPacketView := Wire.command_complete x01 x03 x0c x01.

(** The status of [Wire.inquiry_cancel], with no credit. *)
Definition inquiry_cancel_status_no_credit : EventPacketView :=
  Wire.command_status x00 x00 x02 x04.

(** A command complete for the opcode [NONE], with two credits. *)
Definition credit_grant_complete : EventPacketView := Wire.command_complete x02 x00 x00 x00.

(** The command complete of [Wire.create_connection_cancel], with one credit. *)
Definition create_connection_cancel_complete : EventPacketView :=
  Wire.command_complete x01 x08 x04 x00.

(** An event with the code [MAX_SLOTS_CHANGE]. *)
Definition max_slots_change : EventPacketView := [x1b; x03; x01; x00; x05].

(** Two commands in the queue, the first in flight and waiting for a status. *)
Definition two_queued : impl :=
  {| command_queue_ :=
       [CommandQueueEntry_status Wire.inquiry_cancel (ClientStatusCallback 7);
        CommandQueueEntry_complete Wire.create_connection_cancel (ClientCompleteCallback 8)];
     event_handlers_ := ∅; subevent_handlers_ := ∅;
     waiting_command_ := 0x0402; command_credits_ := 0%N;
     hci_timeout_alarm_ := Some (0x0402, 2000);
     trace_ := [sendHciCommand [x02; x04; x00]; Alarm_Schedule 0x0402 2000] |}.

(** Two commands in the queue, the first in flight and waiting for a
    complete. *)
Definition two_queued_complete : impl :=
  {| command_queue_ :=
       [CommandQueueEntry_complete Wire.create_connection_cancel (ClientCompleteCallback 8);
        CommandQueueEntry_status Wire.inquiry_cancel (ClientStatusCallback 7)];
     event_handlers_ := ∅; subevent_handlers_ := ∅;
     waiting_command_ := 0x0408; command_credits_ := 0%N;
     hci_timeout_alarm_ := Some (0x0408, 2000);
     trace_ := [sendHciCommand [x08; x04; x00]; Alarm_Schedule 0x0408 2000] |}.

(** What [Start] posts, and then the unregistration of [LE_META_EVENT]. *)
Definition le_meta_unregistered : list Task :=
  snd Start ++ UnregisterEventHandler 0x3E.

(** After [Start]: a client unregisters the handler of [MAX_SLOTS_CHANGE]
    and registers one for the LE subevent 1. *)
Definition after_start : list Task :=
  [call_handle_unregister_event_handler 0x1B;
   call_handle_register_le_event_handler 0x01 (ClientLeEventCallback 3)].

(** A command is sent, a credit is granted while it is in flight, then it
    is answered. *)
Definition grant_then_answer : list Task :=
  [call_handle_enqueue_command_with_status Wire.inquiry_cancel (ClientStatusCallback 1);
   call_on_command_status Wire.credit_grant;
   call_on_command_status Wire.inquiry_cancel_status].

(** A command is enqueued, sent and answered. *)
Definition one_command : list Task :=
  [call_handle_enqueue_command_with_status Wire.inquiry_cancel (ClientStatusCallback 1);
   call_on_command_status Wire.inquiry_cancel_status].

End Wire2.

(** ** Basic facts *)

(** Unfolds the sequencing of a handler and the field updates. *)
Ltac step_handler :=
  cbv [andThen lift ASSERT_LOG emit set_command_queue_ set_waiting_command_
       set_command_credits_ set_hci_timeout_alarm_ set_event_handlers_
       set_subevent_handlers_ id];
  cbn [command_queue_ event_handlers_ subevent_handlers_ waiting_command_
       command_credits_ hci_timeout_alarm_ trace_ state_of is_aborted].

Section Facts.
Context `{PacketCatalog}.

Lemma hal_commands_app (a b : list Effect) :
  hal_commands (a ++ b) = hal_commands a ++ hal_commands b.
Proof. unfold hal_commands. apply omap_app. Qed.

Lemma sinks_app (a b : list Effect) : sinks (a ++ b) = sinks a ++ sinks b.
Proof. unfold sinks. apply omap_app. Qed.

Lemma can_send_true (s : impl) :
  can_send s = true <->
  (0 < command_credits_ s)%N /\ waiting_command_ s = NONE /\ command_queue_ s <> [].
Proof.
  unfold can_send. rewrite !andb_true_iff, !negb_true_iff, N.eqb_neq, Z.eqb_eq.
  rewrite bool_decide_eq_false. split.
  - intros [[? ?] ?]. repeat split; auto; lia.
  - intros [? [? ?]]. repeat split; auto; lia.
Qed.

Lemma send_next_command_blocked (s : impl) :
  can_send s = false -> send_next_command s = Done s.
Proof.
  unfold can_send, send_next_command. intros Hc.
  destruct (command_credits_ s =? 0)%N; [reflexivity|].
  destruct (waiting_command_ s =? NONE); [|reflexivity].
  destruct (command_queue_ s); [reflexivity|]. discriminate.
Qed.

Lemma send_next_command_unfold (s : impl) (front : CommandQueueEntry) rest :
  can_send s = true -> command_queue_ s = front :: rest ->
  send_next_command s =
  let bytes := Serialize (command front) in
  if CommandPacketView_IsValid bytes then Done (sent bytes s)
  else Aborted ASSERT_cmd_view_IsValid (emit (sendHciCommand bytes) s).
Proof.
  unfold can_send, send_next_command. intros Hc Hq.
  destruct (command_credits_ s =? 0)%N; [discriminate|].
  destruct (waiting_command_ s =? NONE); [|discriminate].
  rewrite Hq. cbn zeta. unfold Alarm_Schedule_. step_handler.
  destruct (CommandPacketView_IsValid (Serialize (command front))); [|reflexivity].
  unfold sent. step_handler. rewrite Hq, <- app_assoc. reflexivity.
Qed.

(** What [send_next_command] adds to the trace. *)
Lemma send_next_command_trace (s : impl) :
  exists added,
    trace_ (state_of (send_next_command s)) = trace_ s ++ added /\
    sinks added = [] /\
    hal_commands added =
      (if can_send s
       then match command_queue_ s with
            | front :: _ => [Serialize (command front)]
            | [] => []
            end
       else []).
Proof.
  destruct (can_send s) eqn:Hc.
  - destruct (command_queue_ s) as [|front rest] eqn:Hq.
    + apply can_send_true in Hc. tauto.
    + rewrite (send_next_command_unfold s front rest Hc Hq). cbn zeta.
      destruct (CommandPacketView_IsValid (Serialize (command front))).
      * eexists. cbn. split; [reflexivity|]. split; reflexivity.
      * eexists. cbn. split; [reflexivity|]. split; reflexivity.
  - rewrite send_next_command_blocked by assumption.
    exists []. cbn. rewrite app_nil_r. auto.
Qed.

Lemma send_next_command_sinks (s : impl) :
  sinks (trace_ (state_of (send_next_command s))) = sinks (trace_ s).
Proof.
  destruct (send_next_command_trace s) as (added & -> & Hs & _).
  rewrite sinks_app, Hs. apply app_nil_r.
Qed.

End Facts.

(** ** send_next_command *)

Section Sending.
Context `{PacketCatalog}.

(** C2. [send_next_command] gives a command to the HAL exactly when there is
    a credit, no command is in flight and the queue is not empty; it then
    sends the bytes of the head of the queue and, the bytes read back being
    a valid command, leaves the state with the opcode read from the bytes
    as the command in flight, no credit, the alarm scheduled with that
    opcode for [kHciTimeoutMs], and the queue as it was, head included.
    Otherwise it changes nothing. *)
Theorem send_next_command_sends_iff (s : impl) :
  (hal_commands (trace_ (state_of (send_next_command s))) <> hal_commands (trace_ s)
   <-> (0 < command_credits_ s)%N /\ waiting_command_ s = NONE /\ command_queue_ s <> [])
  /\ (~ ((0 < command_credits_ s)%N /\ waiting_command_ s = NONE /\ command_queue_ s <> [])
      -> send_next_command s = Done s)
  /\ (forall front rest,
        (0 < command_credits_ s)%N -> waiting_command_ s = NONE ->
        command_queue_ s = front :: rest ->
        let bytes := Serialize (command front) in
        hal_commands (trace_ (state_of (send_next_command s)))
          = hal_commands (trace_ s) ++ [bytes]
        /\ (CommandPacketView_IsValid bytes = true ->
            send_next_command s =
            Done {| command_queue_ := front :: rest;
                    event_handlers_ := event_handlers_ s;
                    subevent_handlers_ := subevent_handlers_ s;
                    waiting_command_ := CommandPacketView_GetOpCode bytes;
                    command_credits_ := 0%N;
                    hci_timeout_alarm_ :=
                      Some (CommandPacketView_GetOpCode bytes, kHciTimeoutMs);
                    trace_ := trace_ s ++
                      [sendHciCommand bytes;
                       Alarm_Schedule (CommandPacketView_GetOpCode bytes) kHciTimeoutMs] |})).
Proof.
  destruct (send_next_command_trace s) as (added & Htr & _ & Hadd).
  rewrite Htr, hal_commands_app, Hadd.
  split; [|split].
  - rewrite <- can_send_true. destruct (can_send s) eqn:Hc.
    + split; [reflexivity|]. intros _.
      destruct (command_queue_ s) eqn:Hq.
      * apply can_send_true in Hc. tauto.
      * intros E. apply (f_equal (@length _)) in E.
        rewrite length_app in E. cbn in E. lia.
    + rewrite app_nil_r. split; [tauto | discriminate].
  - rewrite <- can_send_true. intros Hn. apply send_next_command_blocked.
    destruct (can_send s); [tauto | reflexivity].
  - intros front rest Hcr Hw Hq bytes.
    assert (Hc : can_send s = true) by (apply can_send_true; rewrite Hq; auto).
    rewrite Hc, Hq. split; [reflexivity|].
    intros Hv. rewrite (send_next_command_unfold s front rest Hc Hq). cbn zeta.
    fold bytes. rewrite Hv. unfold sent. rewrite Hq. reflexivity.
Qed.

End Sending.

(** ** Responses *)

Section Responses.
Context `{PacketCatalog}.

Lemma on_command_status_matching (event : EventPacketView) (s : impl) front rest :
  command_queue_ s = front :: rest ->
  CommandStatusView_IsValid event = true ->
  CommandStatusView_GetCommandOpCode event <> NONE ->
  waiting_command_ s = CommandStatusView_GetCommandOpCode event ->
  waiting_for_status_ front = true ->
  on_command_status event s =
  send_next_command
    (answered (CommandStatusView_GetNumHciCommandPackets event) rest
              (Invoke_on_status (on_status front) event) s).
Proof.
  intros Hq Hv Hop Hw Hst. unfold on_command_status. cbn zeta.
  rewrite Hv. apply Z.eqb_neq in Hop. rewrite Hop.
  unfold Alarm_Cancel_. step_handler. rewrite Hq, Hw, Z.eqb_refl, Hst.
  unfold answered. rewrite <- app_assoc. reflexivity.
Qed.

Lemma on_command_complete_matching (event : EventPacketView) (s : impl) front rest :
  command_queue_ s = front :: rest ->
  CommandCompleteView_IsValid event = true ->
  CommandCompleteView_GetCommandOpCode event <> NONE ->
  waiting_command_ s = CommandCompleteView_GetCommandOpCode event ->
  waiting_for_status_ front = false ->
  on_command_complete event s =
  send_next_command
    (answered (CommandCompleteView_GetNumHciCommandPackets event) rest
              (Invoke_on_complete (on_complete front) event) s).
Proof.
  intros Hq Hv Hop Hw Hst. unfold on_command_complete. cbn zeta.
  rewrite Hv. apply Z.eqb_neq in Hop. rewrite Hop.
  unfold Alarm_Cancel_. step_handler. rewrite Hq, Hw, Z.eqb_refl, Hst.
  unfold answered. cbn. rewrite <- app_assoc. reflexivity.
Qed.

(** C3. A command status (a command complete) whose opcode is the one in
    flight, for a head of queue that waits for a status (a complete):
    the status (completion) callback of the head is invoked with the view,
    once and no other callback with it; the head is popped, no command is
    in flight, the alarm is cancelled, and [send_next_command] runs on that
    state. *)
Theorem matching_response_answers_head (event : EventPacketView) (s : impl)
    (front : CommandQueueEntry) (rest : list CommandQueueEntry) :
  command_queue_ s = front :: rest ->
  (CommandStatusView_IsValid event = true ->
   CommandStatusView_GetCommandOpCode event <> NONE ->
   waiting_command_ s = CommandStatusView_GetCommandOpCode event ->
   waiting_for_status_ front = true ->
   on_command_status event s =
     send_next_command
       {| command_queue_ := rest;
          event_handlers_ := event_handlers_ s;
          subevent_handlers_ := subevent_handlers_ s;
          waiting_command_ := NONE;
          command_credits_ := CommandStatusView_GetNumHciCommandPackets event;
          hci_timeout_alarm_ := None;
          trace_ := trace_ s ++ [Invoke_on_status (on_status front) event; Alarm_Cancel] |}
   /\ sinks (trace_ (state_of (on_command_status event s)))
      = sinks (trace_ s) ++ [inl (on_status front)])
  /\
  (CommandCompleteView_IsValid event = true ->
   CommandCompleteView_GetCommandOpCode event <> NONE ->
   waiting_command_ s = CommandCompleteView_GetCommandOpCode event ->
   waiting_for_status_ front = false ->
   on_command_complete event s =
     send_next_command
       {| command_queue_ := rest;
          event_handlers_ := event_handlers_ s;
          subevent_handlers_ := subevent_handlers_ s;
          waiting_command_ := NONE;
          command_credits_ := CommandCompleteView_GetNumHciCommandPackets event;
          hci_timeout_alarm_ := None;
          trace_ := trace_ s ++ [Invoke_on_complete (on_complete front) event; Alarm_Cancel] |}
   /\ sinks (trace_ (state_of (on_command_complete event s)))
      = sinks (trace_ s) ++ [inr (on_complete front)]).
Proof.
  intros Hq. split; intros Hv Hop Hw Hst.
  - rewrite (on_command_status_matching event s front rest) by assumption.
    split; [reflexivity|].
    rewrite send_next_command_sinks. unfold answered. cbn [trace_].
    rewrite sinks_app. reflexivity.
  - rewrite (on_command_complete_matching event s front rest) by assumption.
    split; [reflexivity|].
    rewrite send_next_command_sinks. unfold answered. cbn [trace_].
    rewrite sinks_app. reflexivity.
Qed.

Lemma on_command_status_credit_only (event : EventPacketView) (s : impl) :
  CommandStatusView_IsValid event = true ->
  CommandStatusView_GetCommandOpCode event = NONE ->
  on_command_status event s =
  send_next_command
    (set_command_credits_ (CommandStatusView_GetNumHciCommandPackets event) s).
Proof.
  intros Hv Hop. unfold on_command_status. cbn zeta.
  rewrite Hv, Hop, Z.eqb_refl. reflexivity.
Qed.

Lemma on_command_complete_credit_only (event : EventPacketView) (s : impl) :
  CommandCompleteView_IsValid event = true ->
  CommandCompleteView_GetCommandOpCode event = NONE ->
  on_command_complete event s =
  send_next_command
    (set_command_credits_ (CommandCompleteView_GetNumHciCommandPackets event) s).
Proof.
  intros Hv Hop. unfold on_command_complete. cbn zeta.
  rewrite Hv, Hop, Z.eqb_refl. reflexivity.
Qed.

Lemma can_send_in_flight (s : impl) : waiting_command_ s <> NONE -> can_send s = false.
Proof.
  intros Hw. unfold can_send. apply Z.eqb_neq in Hw. rewrite Hw.
  rewrite andb_false_r. reflexivity.
Qed.

(** C4. A command status with opcode [NONE] while a command is in flight:
    the credits become the count of the event and nothing else changes,
    so the queue keeps its entries in their order, the command in flight
    stays, no callback is invoked and nothing is sent to the HAL. *)
Theorem credit_only_status_in_flight (event : EventPacketView) (s : impl) :
  CommandStatusView_IsValid event = true ->
  CommandStatusView_GetCommandOpCode event = NONE ->
  waiting_command_ s <> NONE ->
  exists s',
    on_command_status event s = Done s' /\
    command_credits_ s' = CommandStatusView_GetNumHciCommandPackets event /\
    command_queue_ s' = command_queue_ s /\
    waiting_command_ s' = waiting_command_ s /\
    hci_timeout_alarm_ s' = hci_timeout_alarm_ s /\
    event_handlers_ s' = event_handlers_ s /\
    subevent_handlers_ s' = subevent_handlers_ s /\
    trace_ s' = trace_ s /\
    sinks (trace_ s') = sinks (trace_ s) /\
    hal_commands (trace_ s') = hal_commands (trace_ s).
Proof.
  intros Hv Hop Hw.
  exists (set_command_credits_ (CommandStatusView_GetNumHciCommandPackets event) s).
  split.
  - rewrite on_command_status_credit_only by assumption.
    apply send_next_command_blocked, can_send_in_flight. exact Hw.
  - cbn. repeat split; reflexivity.
Qed.

Lemma on_command_status_unexpected (event : EventPacketView) (s : impl) :
  CommandStatusView_IsValid event = true ->
  CommandStatusView_GetCommandOpCode event <> NONE ->
  command_queue_ s = []
  \/ waiting_command_ s <> CommandStatusView_GetCommandOpCode event
  \/ (exists front rest,
        command_queue_ s = front :: rest /\ waiting_for_status_ front = false) ->
  exists f,
    on_command_status event s =
    Aborted f (set_command_credits_ (CommandStatusView_GetNumHciCommandPackets event) s).
Proof.
  intros Hv Hop Hbad.
  unfold on_command_status. cbn zeta. rewrite Hv.
  apply Z.eqb_neq in Hop. rewrite Hop. step_handler.
  destruct (command_queue_ s) as [|front rest] eqn:Hq; [eauto|].
  destruct (waiting_command_ s =? CommandStatusView_GetCommandOpCode event) eqn:Hw;
    [|eauto].
  destruct (waiting_for_status_ front) eqn:Hst; [|eauto].
  exfalso. destruct Hbad as [Hb | [Hb | (f0 & r0 & Hb & Hf)]].
  - discriminate.
  - apply Z.eqb_eq in Hw. contradiction.
  - injection Hb as <- <-. congruence.
Qed.

Lemma on_command_complete_unexpected (event : EventPacketView) (s : impl) :
  CommandCompleteView_IsValid event = true ->
  CommandCompleteView_GetCommandOpCode event <> NONE ->
  command_queue_ s = []
  \/ waiting_command_ s <> CommandCompleteView_GetCommandOpCode event
  \/ (exists front rest,
        command_queue_ s = front :: rest /\ waiting_for_status_ front = true) ->
  exists f,
    on_command_complete event s =
    Aborted f (set_command_credits_ (CommandCompleteView_GetNumHciCommandPackets event) s).
Proof.
  intros Hv Hop Hbad.
  unfold on_command_complete. cbn zeta. rewrite Hv.
  apply Z.eqb_neq in Hop. rewrite Hop. step_handler.
  destruct (command_queue_ s) as [|front rest] eqn:Hq; [eauto|].
  destruct (waiting_command_ s =? CommandCompleteView_GetCommandOpCode event) eqn:Hw;
    [|eauto].
  destruct (waiting_for_status_ front) eqn:Hst; [eauto|].
  exfalso. destruct Hbad as [Hb | [Hb | (f0 & r0 & Hb & Hf)]].
  - discriminate.
  - apply Z.eqb_eq in Hw. contradiction.
  - injection Hb as <- <-. congruence.
Qed.

(** C6. A response with an opcode other than [NONE] aborts when the queue
    is empty, when the opcode is not the one in flight, or when the head
    of the queue waits for the other kind of response; the state at the
    abort is the one before with the credits of the event: no callback
    was invoked and the queue was not popped. *)
Theorem unexpected_response_is_fatal (event : EventPacketView) (s : impl) :
  (CommandStatusView_IsValid event = true ->
   CommandStatusView_GetCommandOpCode event <> NONE ->
   command_queue_ s = []
   \/ waiting_command_ s <> CommandStatusView_GetCommandOpCode event
   \/ (exists front rest,
         command_queue_ s = front :: rest /\ waiting_for_status_ front = false) ->
   exists f,
     on_command_status event s =
     Aborted f (set_command_credits_ (CommandStatusView_GetNumHciCommandPackets event) s))
  /\
  (CommandCompleteView_IsValid event = true ->
   CommandCompleteView_GetCommandOpCode event <> NONE ->
   command_queue_ s = []
   \/ waiting_command_ s <> CommandCompleteView_GetCommandOpCode event
   \/ (exists front rest,
         command_queue_ s = front :: rest /\ waiting_for_status_ front = true) ->
   exists f,
     on_command_complete event s =
     Aborted f (set_command_credits_ (CommandCompleteView_GetNumHciCommandPackets event) s)).
Proof.
  split; intros Hv Hop Hbad.
  - apply on_command_status_unexpected; assumption.
  - apply on_command_complete_unexpected; assumption.
Qed.

End Responses.

(** ** What a response handler can do *)

Section Cases.
Context `{PacketCatalog}.

(** [on_command_status] aborts before any effect, or sets the credits and
    sends, or answers the head of the queue and sends. *)
Lemma on_command_status_cases (event : EventPacketView) (s : impl) :
  let n := CommandStatusView_GetNumHciCommandPackets event in
  let op_code := CommandStatusView_GetCommandOpCode event in
  (exists f s0, on_command_status event s = Aborted f s0 /\ trace_ s0 = trace_ s)
  \/ (op_code = NONE /\
      on_command_status event s = send_next_command (set_command_credits_ n s))
  \/ (exists front rest,
        op_code <> NONE /\ command_queue_ s = front :: rest /\
        waiting_command_ s = op_code /\ waiting_for_status_ front = true /\
        on_command_status event s =
        send_next_command (answered n rest (Invoke_on_status (on_status front) event) s)).
Proof.
  intros n op_code.
  destruct (CommandStatusView_IsValid event) eqn:Hv.
  2:{ left. unfold on_command_status. cbn zeta. rewrite Hv. step_handler. eauto. }
  destruct (Z.eq_dec op_code NONE) as [Hop|Hop].
  { right; left. split; [assumption|]. apply on_command_status_credit_only; assumption. }
  destruct (command_queue_ s) as [|front rest] eqn:Hq.
  { left. destruct (on_command_status_unexpected event s Hv Hop) as [f Hf']; [auto|]. eauto. }
  destruct (Z.eq_dec (waiting_command_ s) op_code) as [Hw|Hw].
  2:{ left. destruct (on_command_status_unexpected event s Hv Hop) as [f Hf']; [auto|]. eauto. }
  destruct (waiting_for_status_ front) eqn:Hst.
  2:{ left. destruct (on_command_status_unexpected event s Hv Hop) as [f Hf']; [eauto 6|]. eauto. }
  right; right. exists front, rest. repeat split; try assumption.
  apply on_command_status_matching; assumption.
Qed.

Lemma on_command_complete_cases (event : EventPacketView) (s : impl) :
  let n := CommandCompleteView_GetNumHciCommandPackets event in
  let op_code := CommandCompleteView_GetCommandOpCode event in
  (exists f s0, on_command_complete event s = Aborted f s0 /\ trace_ s0 = trace_ s)
  \/ (op_code = NONE /\
      on_command_complete event s = send_next_command (set_command_credits_ n s))
  \/ (exists front rest,
        op_code <> NONE /\ command_queue_ s = front :: rest /\
        waiting_command_ s = op_code /\ waiting_for_status_ front = false /\
        on_command_complete event s =
        send_next_command
          (answered n rest (Invoke_on_complete (on_complete front) event) s)).
Proof.
  intros n op_code.
  destruct (CommandCompleteView_IsValid event) eqn:Hv.
  2:{ left. unfold on_command_complete. cbn zeta. rewrite Hv. step_handler. eauto. }
  destruct (Z.eq_dec op_code NONE) as [Hop|Hop].
  { right; left. split; [assumption|]. apply on_command_complete_credit_only; assumption. }
  destruct (command_queue_ s) as [|front rest] eqn:Hq.
  { left. destruct (on_command_complete_unexpected event s Hv Hop) as [f Hf']; [auto|]. eauto. }
  destruct (Z.eq_dec (waiting_command_ s) op_code) as [Hw|Hw].
  2:{ left. destruct (on_command_complete_unexpected event s Hv Hop) as [f Hf']; [auto|]. eauto. }
  destruct (waiting_for_status_ front) eqn:Hst.
  { left. destruct (on_command_complete_unexpected event s Hv Hop) as [f Hf']; [eauto 6|]. eauto. }
  right; right. exists front, rest. repeat split; try assumption.
  apply on_command_complete_matching; assumption.
Qed.

End Cases.

(** ** Runs of tasks *)

(** Reads the fields of a state written with the updates. *)
Ltac fields :=
  unfold answered, sent, emit, set_command_queue_, set_command_credits_,
         set_waiting_command_, set_hci_timeout_alarm_;
  cbn [command_queue_ event_handlers_ subevent_handlers_ waiting_command_
       command_credits_ hci_timeout_alarm_ trace_ state_of].

(** Closes a goal that says the fields of the engine and the commands and
    callbacks of the trace are as before. *)
Ltac same_engine :=
  cbn; rewrite ?sinks_app, ?hal_commands_app; cbn; rewrite ?app_nil_r;
  repeat split; reflexivity.

Section Runs.
Context `{PacketCatalog}.

Lemma run_app (ts1 ts2 : list Task) (s : impl) :
  run (ts1 ++ ts2) s = (run ts1 ;; run ts2) s.
Proof.
  revert s. induction ts1 as [|t ts1 IH]; intros s.
  - reflexivity.
  - cbn [run app]. unfold andThen in *.
    destruct (run_task t s); [apply IH | reflexivity ..].
Qed.

(** A property kept by every task that ends holds at the end of a run. *)
Lemma run_invariant (P : impl -> Prop) :
  (forall t s s', P s -> run_task t s = Done s' -> P s') ->
  forall ts s s', P s -> run ts s = Done s' -> P s'.
Proof.
  intros Hstep ts. induction ts as [|t ts IH]; intros s s' HP Hrun; cbn in Hrun.
  - injection Hrun as <-. exact HP.
  - unfold andThen in Hrun. destruct (run_task t s) as [s1| |] eqn:Ht; [|discriminate ..].
    eapply IH; [|exact Hrun]. eapply Hstep; eassumption.
Qed.

(** [send_next_command] ends in the state it got or in [sent]. *)
Lemma send_next_command_Done (s s' : impl) :
  send_next_command s = Done s' ->
  (can_send s = false /\ s' = s)
  \/ (exists front rest,
        can_send s = true /\ command_queue_ s = front :: rest /\
        CommandPacketView_IsValid (bytes_of front) = true /\ s' = sent (bytes_of front) s).
Proof.
  intros Hs. destruct (can_send s) eqn:Hc.
  - right. destruct (command_queue_ s) as [|front rest] eqn:Hq.
    + apply can_send_true in Hc. tauto.
    + rewrite (send_next_command_unfold s front rest Hc Hq) in Hs. cbn zeta in Hs.
      exists front, rest. unfold bytes_of.
      destruct (CommandPacketView_IsValid (Serialize (command front)));
        [|discriminate].
      injection Hs as <-. auto.
  - left. rewrite send_next_command_blocked in Hs by assumption.
    injection Hs as <-. auto.
Qed.

(** *** The credit invariant *)

Lemma send_next_command_one_credit (s s' : impl) :
  waiting_command_ s = NONE \/ one_credit_in_flight s ->
  send_next_command s = Done s' -> one_credit_in_flight s'.
Proof.
  intros Hs Hd. apply send_next_command_Done in Hd.
  destruct Hd as [[_ ->] | (front & rest & _ & _ & _ & ->)].
  - destruct Hs as [Hw | Hi]; [|exact Hi]. intros Hn. contradiction.
  - intros _. reflexivity.
Qed.

Lemma run_task_one_credit (t : Task) (s s' : impl) :
  one_credit_in_flight s ->
  (is_credit_only t = true -> waiting_command_ s = NONE) ->
  run_task t s = Done s' -> one_credit_in_flight s'.
Proof.
  intros Hi Hc.
  destruct t; cbn [run_task is_credit_only] in *; intros Hd.
  - (* on_hci_event *)
    unfold on_hci_event in Hd.
    destruct (event_handlers_ s !! GetEventCode event); injection Hd as <-; exact Hi.
  - (* on_command_complete *)
    destruct (on_command_complete_cases event s)
      as [(f & s0 & Ha & _) | [[Hop Hs] | (front & rest & _ & _ & _ & _ & Hs)]].
    + congruence.
    + rewrite Hs in Hd. eapply send_next_command_one_credit; [|exact Hd].
      left. cbn. apply Hc, Z.eqb_eq, Hop.
    + rewrite Hs in Hd. eapply send_next_command_one_credit; [|exact Hd].
      left. reflexivity.
  - (* on_command_status *)
    destruct (on_command_status_cases event s)
      as [(f & s0 & Ha & _) | [[Hop Hs] | (front & rest & _ & _ & _ & _ & Hs)]].
    + congruence.
    + rewrite Hs in Hd. eapply send_next_command_one_credit; [|exact Hd].
      left. cbn. apply Hc, Z.eqb_eq, Hop.
    + rewrite Hs in Hd. eapply send_next_command_one_credit; [|exact Hd].
      left. reflexivity.
  - (* on_le_meta_event *)
    unfold on_le_meta_event in Hd. cbn zeta in Hd. revert Hd. step_handler.
    destruct (LeMetaEventView_IsValid event); [|discriminate].
    destruct (subevent_handlers_ s !! GetSubeventCode event); [|discriminate].
    intros Hd. injection Hd as <-. exact Hi.
  - (* drop *)
    injection Hd as <-. exact Hi.
  - (* fail_if_reset_complete_not_success *)
    revert Hd. unfold fail_if_reset_complete_not_success. cbn zeta. step_handler.
    destruct (ResetCompleteView_IsValid complete); [|discriminate].
    destruct (ResetCompleteView_GetStatus complete =? SUCCESS); [|discriminate].
    intros Hd. injection Hd as <-. exact Hi.
  - (* enqueue, complete *)
    revert Hd. unfold handle_enqueue_command_with_complete. step_handler.
    apply send_next_command_one_credit. right. exact Hi.
  - (* enqueue, status *)
    revert Hd. unfold handle_enqueue_command_with_status. step_handler.
    apply send_next_command_one_credit. right. exact Hi.
  - unfold handle_register_event_handler in Hd.
    destruct (event_handlers_ s !! event_code); [discriminate|].
    injection Hd as <-. exact Hi.
  - unfold handle_unregister_event_handler in Hd.
    destruct (event_handlers_ s !! event_code); [|discriminate].
    injection Hd as <-. exact Hi.
  - unfold handle_register_le_event_handler in Hd.
    destruct (subevent_handlers_ s !! subevent_code); [discriminate|].
    injection Hd as <-. exact Hi.
  - unfold handle_unregister_le_event_handler in Hd.
    destruct (subevent_handlers_ s !! subevent_code); [|discriminate].
    injection Hd as <-. exact Hi.
  - unfold alarm_fires, on_hci_timeout, ASSERT_LOG in Hd.
    destruct (hci_timeout_alarm_ s) as [[op ms]|]; [discriminate|].
    injection Hd as <-. exact Hi.
Qed.

(** *** Tasks that leave the engine alone *)

Lemma run_task_frame (t : Task) (s : impl) :
  is_engine_task t = false ->
  let s' := state_of (run_task t s) in
  command_queue_ s' = command_queue_ s /\
  waiting_command_ s' = waiting_command_ s /\
  command_credits_ s' = command_credits_ s /\
  hci_timeout_alarm_ s' = hci_timeout_alarm_ s /\
  sinks (trace_ s') = sinks (trace_ s) /\
  hal_commands (trace_ s') = hal_commands (trace_ s).
Proof.
  intros Ht.
  destruct t; try discriminate Ht; cbn [run_task].
  - unfold on_hci_event.
    destruct (event_handlers_ s !! GetEventCode event); same_engine.
  - unfold on_le_meta_event. cbn zeta. step_handler.
    destruct (LeMetaEventView_IsValid event); [|same_engine].
    destruct (subevent_handlers_ s !! GetSubeventCode event); same_engine.
  - same_engine.
  - unfold fail_if_reset_complete_not_success. cbn zeta. step_handler.
    destruct (ResetCompleteView_IsValid complete); [|same_engine].
    destruct (ResetCompleteView_GetStatus complete =? SUCCESS); same_engine.
  - unfold handle_register_event_handler.
    destruct (event_handlers_ s !! event_code); same_engine.
  - unfold handle_unregister_event_handler.
    destruct (event_handlers_ s !! event_code); same_engine.
  - unfold handle_register_le_event_handler.
    destruct (subevent_handlers_ s !! subevent_code); same_engine.
  - unfold handle_unregister_le_event_handler.
    destruct (subevent_handlers_ s !! subevent_code); same_engine.
  - unfold alarm_fires, on_hci_timeout, ASSERT_LOG.
    destruct (hci_timeout_alarm_ s) as [[op ms]|] eqn:Ha; rewrite <- ?Ha; same_engine.
Qed.

(** *** The alarm *)

Lemma send_next_command_alarm (s s' : impl) :
  alarm_watches_head s -> send_next_command s = Done s' -> alarm_watches_head s'.
Proof.
  intros Hi Hd. apply send_next_command_Done in Hd.
  destruct Hd as [[_ ->] | (front & rest & _ & Hq & _ & ->)]; [exact Hi|].
  split; cbn.
  - reflexivity.
  - intros op ms E. injection E as <- <-. split; [reflexivity|].
    exists front, rest. auto.
Qed.

Lemma answered_alarm (n : N) rest e (s : impl) : alarm_watches_head (answered n rest e s).
Proof. split; cbn; [tauto | discriminate]. Qed.

Lemma enqueue_alarm (e : CommandQueueEntry) (s : impl) :
  alarm_watches_head s ->
  alarm_watches_head (set_command_queue_ (command_queue_ s ++ [e]) s).
Proof.
  intros [Hw Ha]. split; cbn; [exact Hw|].
  intros op ms E. destruct (Ha op ms E) as (-> & front & rest & Hq & ->).
  split; [reflexivity|]. exists front, (rest ++ [e]). rewrite Hq. auto.
Qed.

Lemma run_task_alarm (t : Task) (s s' : impl) :
  alarm_watches_head s -> run_task t s = Done s' -> alarm_watches_head s'.
Proof.
  intros Hi Hd. destruct (is_engine_task t) eqn:Ht.
  - destruct t; try discriminate Ht; cbn [run_task] in Hd.
    + destruct (on_command_complete_cases event s)
        as [(f & s0 & Ha & _) | [[Hop Hs] | (front & rest & _ & _ & _ & _ & Hs)]].
      * congruence.
      * rewrite Hs in Hd. eapply send_next_command_alarm; [|exact Hd]. exact Hi.
      * rewrite Hs in Hd. eapply send_next_command_alarm; [|exact Hd].
        apply answered_alarm.
    + destruct (on_command_status_cases event s)
        as [(f & s0 & Ha & _) | [[Hop Hs] | (front & rest & _ & _ & _ & _ & Hs)]].
      * congruence.
      * rewrite Hs in Hd. eapply send_next_command_alarm; [|exact Hd]. exact Hi.
      * rewrite Hs in Hd. eapply send_next_command_alarm; [|exact Hd].
        apply answered_alarm.
    + revert Hd. unfold handle_enqueue_command_with_complete.
      cbv [andThen lift]. apply send_next_command_alarm, enqueue_alarm, Hi.
    + revert Hd. unfold handle_enqueue_command_with_status.
      cbv [andThen lift]. apply send_next_command_alarm, enqueue_alarm, Hi.
  - pose proof (run_task_frame t s Ht) as Hf. rewrite Hd in Hf. cbn in Hf.
    destruct Hf as (Hq & Hw & _ & Hal & _). destruct Hi as [H1 H2].
    split.
    + rewrite Hw, Hal. exact H1.
    + intros op ms. rewrite Hal, Hq. apply H2.
Qed.

Lemma impl_new_alarm : alarm_watches_head impl_new.
Proof. split; cbn; [tauto | discriminate]. Qed.

(** *** The order of commands and callbacks *)

Lemma fifo_fifo_trace (done extra : list CommandQueueEntry) (s : impl) :
  fifo done s -> fifo_trace (done ++ command_queue_ s ++ extra) s.
Proof.
  intros (Hs & Hh & _ & _). split; [|split].
  - rewrite Hs, map_app. apply prefix_app_r. reflexivity.
  - rewrite Hh, !map_app. apply prefix_app, prefix_app_r.
    destruct (waiting_command_ s =? NONE); [apply prefix_nil|].
    destruct (command_queue_ s); cbn; [apply prefix_nil|].
    apply prefix_cons, prefix_nil.
  - rewrite Hs, Hh, length_app, !length_map.
    destruct (waiting_command_ s =? NONE); [cbn; lia|].
    rewrite length_map, length_take. lia.
Qed.

Lemma fifo_trace_app (all extra : list CommandQueueEntry) (s : impl) :
  fifo_trace all s -> fifo_trace (all ++ extra) s.
Proof.
  intros (Hs & Hh & Hlen).
  split; [|split]; [rewrite map_app; apply prefix_app_r; assumption ..|exact Hlen].
Qed.

Lemma send_next_command_fifo (done : list CommandQueueEntry) (s : impl) :
  fifo done s ->
  match send_next_command s with
  | Done s' => fifo done s' /\ command_queue_ s' = command_queue_ s
  | Aborted _ s' | Undefined s' => fifo_trace (done ++ command_queue_ s) s'
  end.
Proof.
  intros Hf. destruct (can_send s) eqn:Hc.
  2:{ rewrite send_next_command_blocked by assumption. auto. }
  destruct (command_queue_ s) as [|front rest] eqn:Hq.
  { apply can_send_true in Hc. tauto. }
  rewrite (send_next_command_unfold s front rest Hc Hq). cbn zeta.
  destruct Hf as (Hs & Hh & Hne & Hall).
  apply can_send_true in Hc. destruct Hc as (_ & Hw & _).
  rewrite Hw, Z.eqb_refl, app_nil_r in Hh.
  rewrite Hq in Hall. pose proof (Forall_inv Hall) as Hop. cbn beta in Hop.
  destruct (CommandPacketView_IsValid (Serialize (command front))).
  - split; [|fields; exact Hq]. repeat split; fields.
    + rewrite sinks_app, Hs. cbn. apply app_nil_r.
    + rewrite hal_commands_app, Hh. cbn. apply Z.eqb_neq in Hop.
      unfold opcode_of, bytes_of in Hop. rewrite Hop, Hq. reflexivity.
    + rewrite Hq. discriminate.
    + rewrite Hq. exact Hall.
  - split; [|split]; fields.
    + rewrite sinks_app, Hs. cbn. rewrite app_nil_r, map_app.
      apply prefix_app_r. reflexivity.
    + rewrite hal_commands_app, Hh. cbn. rewrite map_app. cbn.
      apply prefix_app. apply prefix_cons, prefix_nil.
    + rewrite sinks_app, hal_commands_app, Hs, Hh. cbn.
      rewrite app_nil_r, length_app, !length_map. cbn. lia.
Qed.

Lemma enqueue_fifo (done : list CommandQueueEntry) (e : CommandQueueEntry) (s : impl) :
  fifo done s -> opcode_of e <> NONE ->
  fifo done (set_command_queue_ (command_queue_ s ++ [e]) s).
Proof.
  intros (Hs & Hh & Hne & Hall) He. repeat split; fields.
  - exact Hs.
  - rewrite Hh. f_equal. destruct (waiting_command_ s =? NONE) eqn:Hw; [reflexivity|].
    apply Z.eqb_neq in Hw. destruct (command_queue_ s); [|reflexivity].
    exfalso. apply (Hne Hw). reflexivity.
  - intros _. destruct (command_queue_ s); discriminate.
  - apply Forall_app. split; [exact Hall|]. constructor; [exact He | constructor].
Qed.

Lemma answered_fifo (done : list CommandQueueEntry) (n : N) front rest eff (s : impl) :
  fifo done s -> command_queue_ s = front :: rest -> waiting_command_ s <> NONE ->
  sinks [eff] = [sink_of front] ->
  fifo (done ++ [front]) (answered n rest eff s).
Proof.
  intros (Hs & Hh & Hne & Hall) Hq Hw Heff. repeat split; fields.
  - rewrite sinks_app, Hs, map_app. f_equal.
    change [eff; Alarm_Cancel] with ([eff] ++ [Alarm_Cancel]).
    rewrite sinks_app, Heff. reflexivity.
  - rewrite Z.eqb_refl, app_nil_r, hal_commands_app, Hh, map_app.
    apply Z.eqb_neq in Hw. rewrite Hw, Hq. cbn.
    destruct eff; try discriminate Heff; cbn; rewrite app_nil_r; reflexivity.
  - tauto.
  - rewrite Hq in Hall. exact (Forall_inv_tail Hall).
Qed.

Lemma run_task_fifo (done : list CommandQueueEntry) (t : Task) (s : impl) :
  fifo done s ->
  Forall (fun e => opcode_of e <> NONE) (enqueued_by t) ->
  match run_task t s with
  | Done s' =>
    exists done', fifo done' s' /\
                  done' ++ command_queue_ s' = done ++ command_queue_ s ++ enqueued_by t
  | Aborted _ s' | Undefined s' =>
    fifo_trace (done ++ command_queue_ s ++ enqueued_by t) s'
  end.
Proof.
  intros Hf He. destruct (is_engine_task t) eqn:Ht.
  - destruct t; try discriminate Ht; cbn [run_task enqueued_by].
    + (* on_command_complete *)
      rewrite app_nil_r.
      destruct (on_command_complete_cases event s)
        as [(f & s0 & Ha & Htr) | [[Hop Hs] | (front & rest & Hop & Hq & Hw & Hst & Hs)]].
      * rewrite Ha. pose proof (fifo_fifo_trace done [] s Hf) as Hft.
        rewrite app_nil_r in Hft. unfold fifo_trace in *. rewrite Htr. exact Hft.
      * rewrite Hs.
        pose proof (send_next_command_fifo done
                      (set_command_credits_
                         (CommandCompleteView_GetNumHciCommandPackets event) s) Hf) as Hn.
        destruct (send_next_command _) as [s'|f s'|s'].
        -- destruct Hn as [Hn Hq']. exists done. split; [exact Hn|]. rewrite Hq'. reflexivity.
        -- exact Hn.
        -- exact Hn.
      * rewrite Hs.
        assert (Hfa : fifo (done ++ [front])
                        (answered (CommandCompleteView_GetNumHciCommandPackets event) rest
                                  (Invoke_on_complete (on_complete front) event) s)).
        { apply answered_fifo; try assumption.
          - rewrite Hw. exact Hop.
          - cbn. unfold sink_of. rewrite Hst. reflexivity. }
        pose proof (send_next_command_fifo _ _ Hfa) as Hn.
        destruct (send_next_command _) as [s'|f s'|s'].
        -- destruct Hn as [Hn Hq']. exists (done ++ [front]). split; [exact Hn|].
           rewrite Hq', Hq. cbn. rewrite <- app_assoc. reflexivity.
        -- cbn in Hn. rewrite Hq. rewrite <- app_assoc in Hn. exact Hn.
        -- cbn in Hn. rewrite Hq. rewrite <- app_assoc in Hn. exact Hn.
    + (* on_command_status *)
      rewrite app_nil_r.
      destruct (on_command_status_cases event s)
        as [(f & s0 & Ha & Htr) | [[Hop Hs] | (front & rest & Hop & Hq & Hw & Hst & Hs)]].
      * rewrite Ha. pose proof (fifo_fifo_trace done [] s Hf) as Hft.
        rewrite app_nil_r in Hft. unfold fifo_trace in *. rewrite Htr. exact Hft.
      * rewrite Hs.
        pose proof (send_next_command_fifo done
                      (set_command_credits_
                         (CommandStatusView_GetNumHciCommandPackets event) s) Hf) as Hn.
        destruct (send_next_command _) as [s'|f s'|s'].
        -- destruct Hn as [Hn Hq']. exists done. split; [exact Hn|]. rewrite Hq'. reflexivity.
        -- exact Hn.
        -- exact Hn.
      * rewrite Hs.
        assert (Hfa : fifo (done ++ [front])
                        (answered (CommandStatusView_GetNumHciCommandPackets event) rest
                                  (Invoke_on_status (on_status front) event) s)).
        { apply answered_fifo; try assumption.
          - rewrite Hw. exact Hop.
          - cbn. unfold sink_of. rewrite Hst. reflexivity. }
        pose proof (send_next_command_fifo _ _ Hfa) as Hn.
        destruct (send_next_command _) as [s'|f s'|s'].
        -- destruct Hn as [Hn Hq']. exists (done ++ [front]). split; [exact Hn|].
           rewrite Hq', Hq. cbn. rewrite <- app_assoc. reflexivity.
        -- cbn in Hn. rewrite Hq. rewrite <- app_assoc in Hn. exact Hn.
        -- cbn in Hn. rewrite Hq. rewrite <- app_assoc in Hn. exact Hn.
    + (* enqueue, complete *)
      unfold handle_enqueue_command_with_complete. cbv [andThen lift].
      pose proof (send_next_command_fifo done _
                    (enqueue_fifo done _ s Hf (Forall_inv He))) as Hn.
      destruct (send_next_command _) as [s'|f s'|s'].
      * destruct Hn as [Hn Hq']. exists done. split; [exact Hn|]. rewrite Hq'. reflexivity.
      * exact Hn.
      * exact Hn.
    + (* enqueue, status *)
      unfold handle_enqueue_command_with_status. cbv [andThen lift].
      pose proof (send_next_command_fifo done _
                    (enqueue_fifo done _ s Hf (Forall_inv He))) as Hn.
      destruct (send_next_command _) as [s'|f s'|s'].
      * destruct Hn as [Hn Hq']. exists done. split; [exact Hn|]. rewrite Hq'. reflexivity.
      * exact Hn.
      * exact Hn.
  - pose proof (run_task_frame t s Ht) as Hfr. cbn zeta in Hfr.
    destruct Hfr as (Hq & Hw & _ & _ & Hsk & Hh).
    assert (Hf' : fifo done (state_of (run_task t s))).
    { destruct Hf as (F1 & F2 & F3 & F4). unfold fifo.
      rewrite Hq, Hw, Hsk, Hh. auto. }
    assert (Hnil : enqueued_by t = []) by (destruct t; try discriminate Ht; reflexivity).
    rewrite Hnil, app_nil_r.
    destruct (run_task t s) as [s'|f s'|s']; cbn in *.
    + exists done. rewrite Hq. auto.
    + pose proof (fifo_fifo_trace done [] s' Hf') as Hft.
      rewrite app_nil_r, Hq in Hft. exact Hft.
    + pose proof (fifo_fifo_trace done [] s' Hf') as Hft.
      rewrite app_nil_r, Hq in Hft. exact Hft.
Qed.

Lemma run_fifo (ts : list Task) :
  forall (done : list CommandQueueEntry) (s : impl),
    fifo done s ->
    Forall (fun e => opcode_of e <> NONE) (enqueued ts) ->
    fifo_trace (done ++ command_queue_ s ++ enqueued ts) (state_of (run ts s)).
Proof.
  induction ts as [|t ts IH]; intros done s Hf He.
  - cbn. apply fifo_fifo_trace. exact Hf.
  - unfold enqueued in He. cbn [flat_map] in He. apply Forall_app in He.
    destruct He as [He1 He2].
    pose proof (run_task_fifo done t s Hf He1) as Ht.
    cbn [run]. unfold andThen.
    destruct (run_task t s) as [s'|f s'|s'].
    + destruct Ht as (done' & Hf' & Hall).
      pose proof (IH done' s' Hf' He2) as Hr.
      unfold enqueued at 1. cbn [flat_map].
      rewrite app_assoc in Hr. rewrite Hall in Hr.
      rewrite <- !app_assoc in Hr. exact Hr.
    + cbn [state_of]. unfold enqueued. cbn [flat_map].
      rewrite !app_assoc. apply fifo_trace_app. rewrite <- app_assoc. exact Ht.
    + cbn [state_of]. unfold enqueued. cbn [flat_map].
      rewrite !app_assoc. apply fifo_trace_app. rewrite <- app_assoc. exact Ht.
Qed.

Lemma impl_new_fifo : fifo [] impl_new.
Proof.
  repeat split; cbn; try reflexivity.
  - rewrite Z.eqb_refl. reflexivity.
  - tauto.
  - constructor.
Qed.

End Runs.

(** ** The credit invariant *)

Section Credits.
Context `{PacketCatalog}.

Lemma run_task_reestablishes (t : Task) (s s' : impl) :
  reestablishes t s = true -> run_task t s = Done s' -> one_credit_in_flight s'.
Proof.
  intros Hr Hd. destruct t; cbn [reestablishes] in Hr; try discriminate Hr;
    cbn [run_task] in Hd.
  - destruct (on_command_complete_cases event s)
      as [(f & s0 & Ha & _) | [[Hop Hs] | (front & rest & _ & _ & _ & _ & Hs)]].
    + congruence.
    + rewrite Hs in Hd. eapply send_next_command_one_credit; [|exact Hd].
      left. cbn. apply Z.eqb_eq in Hop. rewrite Hop in Hr. cbn in Hr.
      apply Z.eqb_eq, Hr.
    + rewrite Hs in Hd. eapply send_next_command_one_credit; [|exact Hd].
      left. reflexivity.
  - destruct (on_command_status_cases event s)
      as [(f & s0 & Ha & _) | [[Hop Hs] | (front & rest & _ & _ & _ & _ & Hs)]].
    + congruence.
    + rewrite Hs in Hd. eapply send_next_command_one_credit; [|exact Hd].
      left. cbn. apply Z.eqb_eq in Hop. rewrite Hop in Hr. cbn in Hr.
      apply Z.eqb_eq, Hr.
    + rewrite Hs in Hd. eapply send_next_command_one_credit; [|exact Hd].
      left. reflexivity.
  - revert Hd. unfold handle_enqueue_command_with_complete. cbv [andThen lift].
    apply send_next_command_one_credit. left. cbn. apply Z.eqb_eq, Hr.
  - revert Hd. unfold handle_enqueue_command_with_status. cbv [andThen lift].
    apply send_next_command_one_credit. left. cbn. apply Z.eqb_eq, Hr.
Qed.

Lemma run_task_grant_in_flight (t : Task) (s s' : impl) :
  is_credit_only t = true -> waiting_command_ s <> NONE ->
  run_task t s = Done s' ->
  waiting_command_ s' = waiting_command_ s /\ command_credits_ s' = granted t.
Proof.
  intros Hc Hw Hd. destruct t; cbn [is_credit_only] in Hc; try discriminate Hc;
    cbn [run_task granted] in *; apply Z.eqb_eq in Hc.
  - destruct (on_command_complete_cases event s)
      as [(f & s0 & Ha & _) | [[_ Hs] | (front & rest & Hop & _)]].
    + congruence.
    + rewrite Hs, send_next_command_blocked in Hd
        by (apply can_send_in_flight; exact Hw).
      injection Hd as <-. split; reflexivity.
    + contradiction.
  - destruct (on_command_status_cases event s)
      as [(f & s0 & Ha & _) | [[_ Hs] | (front & rest & Hop & _)]].
    + congruence.
    + rewrite Hs, send_next_command_blocked in Hd
        by (apply can_send_in_flight; exact Hw).
      injection Hd as <-. split; reflexivity.
    + contradiction.
Qed.

Lemma run_task_same_credits (t : Task) (s s' : impl) :
  reestablishes t s = false -> is_credit_only t = false ->
  run_task t s = Done s' ->
  waiting_command_ s' = waiting_command_ s /\ command_credits_ s' = command_credits_ s.
Proof.
  intros Hr Hc Hd. destruct (is_engine_task t) eqn:Ht.
  - destruct t; try discriminate Ht; cbn [reestablishes is_credit_only] in *.
    + rewrite Hc in Hr. discriminate Hr.
    + rewrite Hc in Hr. discriminate Hr.
    + apply Z.eqb_neq in Hr. revert Hd. cbn [run_task].
      unfold handle_enqueue_command_with_complete. cbv [andThen lift].
      rewrite send_next_command_blocked by (apply can_send_in_flight; exact Hr).
      intros E. injection E as <-. split; reflexivity.
    + apply Z.eqb_neq in Hr. revert Hd. cbn [run_task].
      unfold handle_enqueue_command_with_status. cbv [andThen lift].
      rewrite send_next_command_blocked by (apply can_send_in_flight; exact Hr).
      intros E. injection E as <-. split; reflexivity.
  - pose proof (run_task_frame t s Ht) as Hf. rewrite Hd in Hf. cbn in Hf.
    destruct Hf as (_ & Hw & Hcr & _). auto.
Qed.

(** What a reached state can have for credits while a command is in
    flight: 0, or a count that came with the opcode [NONE]. *)
Lemma run_grants (ts : list Task) :
  forall (G : list N) (s s' : impl),
    (waiting_command_ s <> NONE -> command_credits_ s = 0%N \/ command_credits_ s ∈ G) ->
    run ts s = Done s' ->
    waiting_command_ s' <> NONE ->
    command_credits_ s' = 0%N \/ command_credits_ s' ∈ G ++ grants ts.
Proof.
  induction ts as [|t ts IH]; intros G s s' Hi Hrun.
  - cbn in Hrun. injection Hrun as <-. cbn. rewrite app_nil_r. exact Hi.
  - cbn [run] in Hrun. unfold andThen in Hrun.
    destruct (run_task t s) as [s1| |] eqn:Ht; [|discriminate ..].
    unfold grants. cbn [flat_map]. rewrite app_assoc.
    apply (IH _ s1 s'); [|exact Hrun].
    intros Hw1. destruct (reestablishes t s) eqn:Hr.
    { left. exact (run_task_reestablishes t s s1 Hr Ht Hw1). }
    destruct (is_credit_only t) eqn:Hc.
    + assert (Hw : waiting_command_ s <> NONE).
      { destruct t; cbn [is_credit_only reestablishes] in *; try discriminate Hc;
          rewrite Hc in Hr; cbn in Hr; apply Z.eqb_neq, Hr. }
      destruct (run_task_grant_in_flight t s s1 Hc Hw Ht) as [_ Hcr].
      right. rewrite Hcr. apply elem_of_app. right. apply list_elem_of_here.
    + destruct (run_task_same_credits t s s1 Hr Hc Ht) as [Hw Hcr].
      rewrite app_nil_r, Hcr. apply Hi. rewrite <- Hw. exact Hw1.
Qed.

(** C1, as the code has it.  The state of the constructor has no command
    in flight.  For a task that ends: after a response with an opcode, and
    after a response without one or an enqueue that finds no command in
    flight, there is no credit while a command is in flight, whatever the
    state before; a response with the opcode [NONE] that comes while a
    command is in flight leaves the command in flight and sets the credits
    to its count; every other task leaves the command in flight and the
    credits as they are.  So in a state the layer reaches, the credits
    while a command is in flight are 0 or the count of a response with the
    opcode [NONE] it got, and they are 0 when it got none. *)
Theorem one_credit_in_flight_but_for_grants :
  one_credit_in_flight impl_new
  /\ (forall (t : Task) (s s' : impl),
        run_task t s = Done s' ->
        (reestablishes t s = true -> one_credit_in_flight s')
        /\ (is_credit_only t = true -> waiting_command_ s <> NONE ->
            waiting_command_ s' = waiting_command_ s
            /\ command_credits_ s' = granted t)
        /\ (reestablishes t s = false -> is_credit_only t = false ->
            waiting_command_ s' = waiting_command_ s
            /\ command_credits_ s' = command_credits_ s))
  /\ (forall (ts : list Task) (s : impl),
        run ts impl_new = Done s ->
        waiting_command_ s <> NONE ->
        command_credits_ s = 0%N \/ command_credits_ s ∈ grants ts)
  /\ (forall (ts : list Task) (s : impl),
        run ts impl_new = Done s -> grants ts = [] -> one_credit_in_flight s).
Proof.
  split; [|split; [|split]].
  - intros Hw. cbn in Hw. contradiction.
  - intros t s s' Hd. split; [|split].
    + intros Hr. exact (run_task_reestablishes t s s' Hr Hd).
    + intros Hc Hw. exact (run_task_grant_in_flight t s s' Hc Hw Hd).
    + intros Hr Hc. exact (run_task_same_credits t s s' Hr Hc Hd).
  - intros ts s Hrun Hw.
    apply (run_grants ts [] impl_new s); [|exact Hrun|exact Hw].
    intros Hn. cbn in Hn. contradiction.
  - intros ts s Hrun Hg Hw.
    destruct (run_grants ts [] impl_new s) as [H0 | Hin]; [|exact Hrun|exact Hw|exact H0|].
    + intros Hn. cbn in Hn. contradiction.
    + cbn in Hin. rewrite Hg in Hin. apply elem_of_nil in Hin. contradiction.
Qed.

End Credits.

(** C1, as it is stated, fails: after a command was sent, a command status
    with opcode [NONE] and one credit leaves the command in flight with
    one credit. *)
Lemma credit_grant_breaks_one_credit_in_flight :
  exists s, run Wire.credit_grant_in_flight impl_new = Done s
            /\ waiting_command_ s = 0x0402
            /\ command_credits_ s = 1%N
            /\ ~ one_credit_in_flight s.
Proof.
  eexists. split; [vm_compute; reflexivity|].
  split; [reflexivity|]. split; [reflexivity|].
  intros Hi. unfold one_credit_in_flight in Hi. cbn in Hi.
  discriminate Hi. discriminate.
Qed.

Lemma one_credit_in_flight_but_for_grants_witness :
  run Wire2.grant_then_answer impl_new
  = Done (state_of (run Wire2.grant_then_answer impl_new))
  /\ grants Wire2.grant_then_answer = [1%N]
  /\ reestablishes (call_on_command_status Wire.inquiry_cancel_status)
       (state_of (run Wire.credit_grant_in_flight impl_new)) = true
  /\ run_task (call_on_command_status Wire.inquiry_cancel_status)
       (state_of (run Wire.credit_grant_in_flight impl_new))
     = Done (state_of (run Wire2.grant_then_answer impl_new))
  /\ ~ one_credit_in_flight (state_of (run Wire.credit_grant_in_flight impl_new))
  /\ one_credit_in_flight (state_of (run Wire2.grant_then_answer impl_new)).
Proof.
  assert (H1 : run Wire2.grant_then_answer impl_new
               = Done (state_of (run Wire2.grant_then_answer impl_new)))
    by (vm_compute; reflexivity).
  assert (H2 : grants Wire2.grant_then_answer = [1%N]) by reflexivity.
  assert (H3 : reestablishes (call_on_command_status Wire.inquiry_cancel_status)
                 (state_of (run Wire.credit_grant_in_flight impl_new)) = true)
    by reflexivity.
  assert (H4 : run_task (call_on_command_status Wire.inquiry_cancel_status)
                 (state_of (run Wire.credit_grant_in_flight impl_new))
               = Done (state_of (run Wire2.grant_then_answer impl_new)))
    by (vm_compute; reflexivity).
  repeat (split; [assumption|]).
  split.
  - intros Hi. unfold one_credit_in_flight in Hi. cbn in Hi.
    discriminate Hi. discriminate.
  - exact (proj1 (proj1 (proj2 one_credit_in_flight_but_for_grants) _ _ _ H4) H3).
Defined.

(** ** The order of commands and callbacks *)

Section Order.
Context `{PacketCatalog}.

Lemma fifo_trace_dispatch (all : list CommandQueueEntry) (s : impl) :
  fifo_trace all s ->
  (forall (k : nat) (bytes : HciPacket),
      hal_commands (trace_ s) !! k = Some bytes ->
      exists e, all !! k = Some e /\ bytes = Serialize (command e))
  /\ (forall (k : nat) (f : StatusCallback + CompleteCallback),
        sinks (trace_ s) !! k = Some f ->
        exists e, all !! k = Some e /\ f = sink_of e)
  /\ (length (sinks (trace_ s)) <= length (hal_commands (trace_ s))
      <= S (length (sinks (trace_ s))))%nat.
Proof.
  intros (Hs & Hh & Hlen). split; [|split; [|exact Hlen]].
  - intros k bytes Hk.
    pose proof (prefix_lookup_Some _ _ _ _ Hk Hh) as Hm.
    change (map bytes_of all) with (bytes_of <$> all) in Hm.
    rewrite list_lookup_fmap in Hm.
    destruct (all !! k) as [e|]; [|discriminate].
    exists e. cbn in Hm. injection Hm as <-. auto.
  - intros k f Hk.
    pose proof (prefix_lookup_Some _ _ _ _ Hk Hs) as Hm.
    change (map sink_of all) with (sink_of <$> all) in Hm.
    rewrite list_lookup_fmap in Hm.
    destruct (all !! k) as [e|]; [|discriminate].
    exists e. cbn in Hm. injection Hm as <-. auto.
Qed.

(** C5, as the code has it.  Whatever tasks run, from the state of the
    constructor on, when no enqueued command has the opcode [NONE]: the
    k-th command given to the HAL is the bytes of the k-th enqueued entry,
    the k-th response callback invoked is the one of the k-th enqueued
    entry, and a callback is invoked only after its command was sent, with
    at most one command sent and not answered. *)
Theorem fifo_dispatch_of_commands (ts : list Task) :
  Forall (fun e => opcode_of e <> NONE) (enqueued ts) -> fifo_dispatch ts.
Proof.
  intros He. unfold fifo_dispatch. cbn zeta.
  apply fifo_trace_dispatch.
  exact (run_fifo ts [] impl_new impl_new_fifo He).
Qed.

End Order.

(** C5, as it is stated, fails for a command with the opcode [NONE]: once
    sent it does not count as in flight, so the next credit sends it again,
    and the second command given to the HAL is not the second enqueued. *)
Lemma nop_command_is_sent_twice :
  hal_commands (trace_ (state_of (run Wire.nop_first impl_new)))
    = [Serialize Wire.nop; Serialize Wire.nop]
  /\ enqueued Wire.nop_first !! 1%nat
     = Some (CommandQueueEntry_complete Wire.inquiry_cancel (ClientCompleteCallback 1))
  /\ ~ fifo_dispatch Wire.nop_first.
Proof.
  split; [vm_compute; reflexivity|]. split; [reflexivity|].
  intros (Hsend & _ & _).
  destruct (Hsend 1%nat (Serialize Wire.nop)) as (e & He & Hb).
  - vm_compute. reflexivity.
  - cbn in He. injection He as <-. discriminate Hb.
Qed.

Lemma fifo_dispatch_of_commands_witness :
  Forall (fun e => opcode_of e <> NONE) (enqueued Wire.two_commands)
  /\ fifo_dispatch Wire.two_commands
  /\ hal_commands (trace_ (state_of (run Wire.two_commands impl_new)))
     = [Serialize Wire.inquiry_cancel; Serialize Wire.create_connection_cancel]
  /\ sinks (trace_ (state_of (run Wire.two_commands impl_new)))
     = [inl (ClientStatusCallback 1); inr (ClientCompleteCallback 2)].
Proof.
  assert (He : Forall (fun e => opcode_of e <> NONE) (enqueued Wire.two_commands)).
  { repeat constructor; vm_compute; discriminate. }
  split; [exact He|].
  split; [exact (fifo_dispatch_of_commands Wire.two_commands He)|].
  split; vm_compute; reflexivity.
Defined.

(** ** The timeout *)

Section Timeout.
Context `{PacketCatalog}.

(** C7. In a state the layer reaches from the constructor, the alarm is
    scheduled while a command is in flight, with the opcode of that
    command; a scheduled alarm has the delay [kHciTimeoutMs] and the opcode
    of the head of the queue, the command sent last.  When it goes off the
    process aborts with that opcode, in the state it was in: nothing is
    sent again. *)
Theorem timeout_aborts_with_stalled_opcode (ts : list Task) (s : impl) :
  run ts impl_new = Done s ->
  (waiting_command_ s <> NONE ->
   hci_timeout_alarm_ s = Some (waiting_command_ s, kHciTimeoutMs) /\
   alarm_fires s = Aborted (Timed_out_waiting_for (waiting_command_ s)) s)
  /\ (forall op_code ms,
        hci_timeout_alarm_ s = Some (op_code, ms) ->
        ms = kHciTimeoutMs /\
        (exists front rest, command_queue_ s = front :: rest /\ op_code = opcode_of front) /\
        alarm_fires s = Aborted (Timed_out_waiting_for op_code) s).
Proof.
  intros Hrun.
  assert (Hi : alarm_watches_head s).
  { eapply (run_invariant alarm_watches_head); [|apply impl_new_alarm|exact Hrun].
    intros t s1 s2. apply run_task_alarm. }
  destruct Hi as [Hw Ha]. split.
  - intros Hn. split; [apply Hw, Hn|].
    unfold alarm_fires. rewrite (Hw Hn). reflexivity.
  - intros op ms E. destruct (Ha op ms E) as [-> Hhead].
    split; [reflexivity|]. split; [exact Hhead|].
    unfold alarm_fires. rewrite E. reflexivity.
Qed.

End Timeout.

Lemma timeout_aborts_with_stalled_opcode_witness :
  run (snd Start) impl_new = Wire.started
  /\ waiting_command_ (state_of Wire.started) = Wire.RESET
  /\ alarm_fires (state_of Wire.started)
     = Aborted (Timed_out_waiting_for Wire.RESET) (state_of Wire.started).
Proof.
  split; [reflexivity|]. split; [reflexivity|].
  assert (Hrun : run (snd Start) impl_new = Done (state_of Wire.started))
    by (vm_compute; reflexivity).
  assert (Hw : waiting_command_ (state_of Wire.started) <> NONE)
    by (vm_compute; discriminate).
  exact (proj2 (proj1 (timeout_aborts_with_stalled_opcode _ _ Hrun) Hw)).
Defined.

(** ** The handler tables *)

Section Tables.
Context `{PacketCatalog}.

Lemma handle_register_event_handler_Done (code : EventCode) (f : EventCallback)
    (s s' : impl) :
  handle_register_event_handler code f s = Done s' ->
  event_handlers_ s !! code = None /\
  s' = set_event_handlers_ (<[code := f]> (event_handlers_ s)) s.
Proof.
  unfold handle_register_event_handler.
  destruct (event_handlers_ s !! code); [discriminate|].
  intros E. injection E as <-. auto.
Qed.

Lemma handle_register_le_event_handler_Done (code : SubeventCode) (f : LeEventCallback)
    (s s' : impl) :
  handle_register_le_event_handler code f s = Done s' ->
  subevent_handlers_ s !! code = None /\
  s' = set_subevent_handlers_ (<[code := f]> (subevent_handlers_ s)) s.
Proof.
  unfold handle_register_le_event_handler.
  destruct (subevent_handlers_ s !! code); [discriminate|].
  intros E. injection E as <-. auto.
Qed.

Lemma send_next_command_tables (s : impl) :
  event_handlers_ (state_of (send_next_command s)) = event_handlers_ s /\
  subevent_handlers_ (state_of (send_next_command s)) = subevent_handlers_ s.
Proof.
  destruct (can_send s) eqn:Hc.
  - destruct (command_queue_ s) as [|front rest] eqn:Hq.
    + apply can_send_true in Hc. tauto.
    + rewrite (send_next_command_unfold s front rest Hc Hq). cbn zeta.
      destruct (CommandPacketView_IsValid (Serialize (command front))); cbn; auto.
  - rewrite send_next_command_blocked by assumption. auto.
Qed.

(** The registrations [Start] posts, when they all pass. *)
Lemma Start_registers (s : impl) :
  run (snd Start) (fst Start) = Done s ->
  event_handlers_ s !! COMMAND_COMPLETE = Some BindOn_on_command_complete /\
  event_handlers_ s !! COMMAND_STATUS = Some BindOn_on_command_status /\
  event_handlers_ s !! LE_META_EVENT = Some BindOn_on_le_meta_event.
Proof.
  unfold Start, RegisterEventHandler, EnqueueCommand_complete.
  cbn [fst snd app run run_task]. unfold andThen.
  repeat match goal with
         | |- match handle_register_event_handler ?c ?f ?s0 with _ => _ end = _ -> _ =>
           let E := fresh "E" in
           let s1 := fresh "s" in
           destruct (handle_register_event_handler c f s0) as [s1| |] eqn:E;
           [apply handle_register_event_handler_Done in E; destruct E as [? ->]
           |discriminate ..]
         end.
  cbn [event_handlers_ set_event_handlers_] in *.
  unfold handle_enqueue_command_with_complete. cbv [andThen lift].
  match goal with
  | |- match send_next_command ?s0 with _ => _ end = _ -> _ =>
    pose proof (proj1 (send_next_command_tables s0)) as Ht;
    destruct (send_next_command s0) as [s1| |]; [|discriminate ..]
  end.
  cbn [state_of event_handlers_ set_command_queue_ set_event_handlers_] in Ht.
  intros E. injection E as <-. rewrite Ht.
  repeat match goal with
         | Hn : (<[_ := _]> _) !! _ = None |- _ =>
           let Hne := fresh "Hne" in
           apply lookup_insert_None in Hn; destruct Hn as [Hn Hne]
         end.
  repeat split.
  - rewrite !lookup_insert_ne by congruence. apply lookup_insert_eq.
  - rewrite !lookup_insert_ne by congruence. apply lookup_insert_eq.
  - rewrite !lookup_insert_ne by congruence. apply lookup_insert_eq.
Qed.

(** C9. Registering a handler for a code that has one aborts, for events
    and for LE subevents, so a second registration after a first one
    aborts; with the code free the handler is put in the table.
    Unregistering a code that has a handler removes it.  Unregistering a
    code that has no handler is not checked as the registration is: [erase]
    gets the end iterator and the behaviour is undefined, which is neither
    the abort of a failed assertion nor a table left as it is. *)
Theorem registration_is_exclusive_unregistration_unchecked (s : impl) :
  (forall code f, is_Some (event_handlers_ s !! code) ->
     handle_register_event_handler code f s
     = Aborted (Second_handler_for_event_code code) s)
  /\ (forall code f, is_Some (subevent_handlers_ s !! code) ->
        handle_register_le_event_handler code f s
        = Aborted (Second_handler_for_subevent_code code) s)
  /\ (forall code f g s', handle_register_event_handler code f s = Done s' ->
        handle_register_event_handler code g s'
        = Aborted (Second_handler_for_event_code code) s')
  /\ (forall code f g s', handle_register_le_event_handler code f s = Done s' ->
        handle_register_le_event_handler code g s'
        = Aborted (Second_handler_for_subevent_code code) s')
  /\ (forall code, event_handlers_ s !! code = None ->
        handle_unregister_event_handler code s = Undefined s
        /\ is_aborted (handle_unregister_event_handler code s) = false)
  /\ (forall code, subevent_handlers_ s !! code = None ->
        handle_unregister_le_event_handler code s = Undefined s
        /\ is_aborted (handle_unregister_le_event_handler code s) = false)
  /\ (forall code f, event_handlers_ s !! code = None ->
        handle_register_event_handler code f s
        = Done (set_event_handlers_ (<[code := f]> (event_handlers_ s)) s))
  /\ (forall code f, subevent_handlers_ s !! code = None ->
        handle_register_le_event_handler code f s
        = Done (set_subevent_handlers_ (<[code := f]> (subevent_handlers_ s)) s))
  /\ (forall code, is_Some (event_handlers_ s !! code) ->
        handle_unregister_event_handler code s
        = Done (set_event_handlers_ (delete code (event_handlers_ s)) s))
  /\ (forall code, is_Some (subevent_handlers_ s !! code) ->
        handle_unregister_le_event_handler code s
        = Done (set_subevent_handlers_ (delete code (subevent_handlers_ s)) s)).
Proof.
  repeat apply conj.
  - intros code f [g Hg]. unfold handle_register_event_handler. rewrite Hg. reflexivity.
  - intros code f [g Hg]. unfold handle_register_le_event_handler. rewrite Hg. reflexivity.
  - intros code f g s' Hd. apply handle_register_event_handler_Done in Hd as [_ ->].
    unfold handle_register_event_handler. cbn. rewrite lookup_insert_eq. reflexivity.
  - intros code f g s' Hd. apply handle_register_le_event_handler_Done in Hd as [_ ->].
    unfold handle_register_le_event_handler. cbn. rewrite lookup_insert_eq. reflexivity.
  - intros code Hn. unfold handle_unregister_event_handler. rewrite Hn. split; reflexivity.
  - intros code Hn. unfold handle_unregister_le_event_handler. rewrite Hn.
    split; reflexivity.
  - intros code f Hn. unfold handle_register_event_handler. rewrite Hn. reflexivity.
  - intros code f Hn. unfold handle_register_le_event_handler. rewrite Hn. reflexivity.
  - intros code [g Hg]. unfold handle_unregister_event_handler. rewrite Hg. reflexivity.
  - intros code [g Hg]. unfold handle_unregister_le_event_handler. rewrite Hg. reflexivity.
Qed.

End Tables.

(** ** The getters of the connection interfaces *)

Section Getters.
Context `{PacketCatalog}.

Lemma set_event_handlers_same (s : impl) : s = set_event_handlers_ (event_handlers_ s) s.
Proof. destruct s. reflexivity. Qed.

Lemma set_subevent_handlers_same (s : impl) :
  s = set_subevent_handlers_ (subevent_handlers_ s) s.
Proof. destruct s. reflexivity. Qed.

(** Registering one handler for a list of event codes changes the table of
    event handlers only, and when it ends the codes of the list have the
    handler and the others are as before. *)
Lemma run_register_events (h : EventCallback) (codes : list EventCode) :
  forall s : impl,
    let o := run (flat_map (fun event => RegisterEventHandler event h) codes) s in
    state_of o = set_event_handlers_ (event_handlers_ (state_of o)) s
    /\ (forall s', o = Done s' ->
        forall code : EventCode,
          event_handlers_ s' !! code
          = if bool_decide (code ∈ codes) then Some h else event_handlers_ s !! code).
Proof.
  induction codes as [|c codes IH]; intros s; cbn zeta.
  - cbn. split; [apply set_event_handlers_same|].
    intros s' E code. injection E as <-. reflexivity.
  - cbn [flat_map RegisterEventHandler app run run_task]. unfold andThen.
    destruct (handle_register_event_handler c h s) as [s1|f s1|s1] eqn:E.
    + apply handle_register_event_handler_Done in E as [Hn ->].
      specialize (IH (set_event_handlers_ (<[c:=h]> (event_handlers_ s)) s)).
      cbn zeta in IH. destruct IH as [IH1 IH2]. split.
      * rewrite IH1 at 1. reflexivity.
      * intros s' Hd code. rewrite (IH2 s' Hd code). cbn [event_handlers_ set_event_handlers_].
        destruct (decide (code = c)) as [->|Hne].
        -- rewrite lookup_insert_eq.
           rewrite (bool_decide_eq_true_2 (c ∈ c :: codes)) by (apply list_elem_of_here).
           destruct (bool_decide (c ∈ codes)); reflexivity.
        -- rewrite lookup_insert_ne by congruence.
           destruct (decide (code ∈ codes)) as [Hin|Hnin].
           ++ rewrite !bool_decide_eq_true_2; auto. apply list_elem_of_further, Hin.
           ++ rewrite !bool_decide_eq_false_2; auto.
              intros Hin. apply elem_of_cons in Hin. tauto.
    + unfold handle_register_event_handler in E.
      destruct (event_handlers_ s !! c); [|discriminate].
      injection E as <- <-. cbn. split; [apply set_event_handlers_same|discriminate].
    + unfold handle_register_event_handler in E.
      destruct (event_handlers_ s !! c); discriminate.
Qed.

Lemma run_register_le_events (h : LeEventCallback) (codes : list SubeventCode) :
  forall s : impl,
    let o := run (flat_map (fun event => RegisterLeEventHandler event h) codes) s in
    state_of o = set_subevent_handlers_ (subevent_handlers_ (state_of o)) s
    /\ (forall s', o = Done s' ->
        forall code : SubeventCode,
          subevent_handlers_ s' !! code
          = if bool_decide (code ∈ codes) then Some h else subevent_handlers_ s !! code).
Proof.
  induction codes as [|c codes IH]; intros s; cbn zeta.
  - cbn. split; [apply set_subevent_handlers_same|].
    intros s' E code. injection E as <-. reflexivity.
  - cbn [flat_map RegisterLeEventHandler app run run_task]. unfold andThen.
    destruct (handle_register_le_event_handler c h s) as [s1|f s1|s1] eqn:E.
    + apply handle_register_le_event_handler_Done in E as [Hn ->].
      specialize (IH (set_subevent_handlers_ (<[c:=h]> (subevent_handlers_ s)) s)).
      cbn zeta in IH. destruct IH as [IH1 IH2]. split.
      * rewrite IH1 at 1. reflexivity.
      * intros s' Hd code. rewrite (IH2 s' Hd code).
        cbn [subevent_handlers_ set_subevent_handlers_].
        destruct (decide (code = c)) as [->|Hne].
        -- rewrite lookup_insert_eq.
           rewrite (bool_decide_eq_true_2 (c ∈ c :: codes)) by (apply list_elem_of_here).
           destruct (bool_decide (c ∈ codes)); reflexivity.
        -- rewrite lookup_insert_ne by congruence.
           destruct (decide (code ∈ codes)) as [Hin|Hnin].
           ++ rewrite !bool_decide_eq_true_2; auto. apply list_elem_of_further, Hin.
           ++ rewrite !bool_decide_eq_false_2; auto.
              intros Hin. apply elem_of_cons in Hin. tauto.
    + unfold handle_register_le_event_handler in E.
      destruct (subevent_handlers_ s !! c); [|discriminate].
      injection E as <- <-. cbn. split; [apply set_subevent_handlers_same|discriminate].
    + unfold handle_register_le_event_handler in E.
      destruct (subevent_handlers_ s !! c); discriminate.
Qed.

(** C10. [GetAclConnectionInterface] and [GetLeAclConnectionInterface] do
    nothing with [on_disconnect]: the interface returned and the calls
    posted are the same for any two values of it, and so is every run that
    starts with these calls.  The calls posted change one handler table
    only, and when they all pass the codes of the table of the interface
    have [event_handler] and the other codes are as before. *)
Theorem getters_discard_on_disconnect :
  (forall h d1 d2, GetAclConnectionInterface h d1 = GetAclConnectionInterface h d2)
  /\ (forall h d1 d2, GetLeAclConnectionInterface h d1 = GetLeAclConnectionInterface h d2)
  /\ (forall h d1 d2 ts s,
        run (snd (GetAclConnectionInterface h d1) ++ ts) s
        = run (snd (GetAclConnectionInterface h d2) ++ ts) s)
  /\ (forall h d1 d2 ts s,
        run (snd (GetLeAclConnectionInterface h d1) ++ ts) s
        = run (snd (GetLeAclConnectionInterface h d2) ++ ts) s)
  /\ (forall h d s,
        let o := run (snd (GetAclConnectionInterface h d)) s in
        state_of o = set_event_handlers_ (event_handlers_ (state_of o)) s
        /\ (forall s', o = Done s' ->
            forall code : EventCode,
              event_handlers_ s' !! code
              = if bool_decide (code ∈ AclConnectionEvents) then Some h
                else event_handlers_ s !! code))
  /\ (forall h d s,
        let o := run (snd (GetLeAclConnectionInterface h d)) s in
        state_of o = set_subevent_handlers_ (subevent_handlers_ (state_of o)) s
        /\ (forall s', o = Done s' ->
            forall code : SubeventCode,
              subevent_handlers_ s' !! code
              = if bool_decide (code ∈ LeConnectionManagementEvents) then Some h
                else subevent_handlers_ s !! code)).
Proof.
  repeat apply conj; try reflexivity.
  - intros h d s. apply run_register_events.
  - intros h d s. apply run_register_le_events.
Qed.

End Getters.

(** ** The theorems on packets of the wire *)

Lemma send_next_command_sends_iff_witness :
  (0 < command_credits_ Wire.ready)%N
  /\ waiting_command_ Wire.ready = NONE
  /\ command_queue_ Wire.ready
     = [CommandQueueEntry_status Wire.inquiry_cancel (ClientStatusCallback 7)]
  /\ CommandPacketView_IsValid (Serialize Wire.inquiry_cancel) = true
  /\ send_next_command Wire.ready = Done Wire.in_flight.
Proof.
  assert (H1 : (0 < command_credits_ Wire.ready)%N) by reflexivity.
  assert (H2 : waiting_command_ Wire.ready = NONE) by reflexivity.
  assert (H3 : command_queue_ Wire.ready
               = [CommandQueueEntry_status Wire.inquiry_cancel (ClientStatusCallback 7)])
    by reflexivity.
  assert (H4 : CommandPacketView_IsValid (Serialize Wire.inquiry_cancel) = true)
    by reflexivity.
  repeat (split; [assumption|]).
  destruct (send_next_command_sends_iff Wire.ready) as (_ & _ & Hsend).
  destruct (Hsend _ _ H1 H2 H3) as [_ Hd].
  rewrite (Hd H4). reflexivity.
Defined.

Lemma matching_response_answers_head_witness :
  command_queue_ Wire.in_flight
  = [CommandQueueEntry_status Wire.inquiry_cancel (ClientStatusCallback 7)]
  /\ CommandStatusView_IsValid Wire.inquiry_cancel_status = true
  /\ CommandStatusView_GetCommandOpCode Wire.inquiry_cancel_status <> NONE
  /\ waiting_command_ Wire.in_flight
     = CommandStatusView_GetCommandOpCode Wire.inquiry_cancel_status
  /\ sinks (trace_ (state_of (on_command_status Wire.inquiry_cancel_status Wire.in_flight)))
     = [inl (ClientStatusCallback 7)]
  /\ on_command_status Wire.inquiry_cancel_status Wire.in_flight
     = Done (answered 1%N []
               (Invoke_on_status (ClientStatusCallback 7) Wire.inquiry_cancel_status)
               Wire.in_flight).
Proof.
  assert (H1 : command_queue_ Wire.in_flight
               = [CommandQueueEntry_status Wire.inquiry_cancel (ClientStatusCallback 7)])
    by reflexivity.
  assert (H2 : CommandStatusView_IsValid Wire.inquiry_cancel_status = true) by reflexivity.
  assert (H3 : CommandStatusView_GetCommandOpCode Wire.inquiry_cancel_status <> NONE)
    by (vm_compute; discriminate).
  assert (H4 : waiting_command_ Wire.in_flight
               = CommandStatusView_GetCommandOpCode Wire.inquiry_cancel_status)
    by reflexivity.
  repeat (split; [assumption|]).
  destruct (matching_response_answers_head Wire.inquiry_cancel_status Wire.in_flight _ _ H1)
    as [Hst _].
  destruct (Hst H2 H3 H4 eq_refl) as [Hrun Hsinks].
  split; [rewrite Hsinks; reflexivity|].
  rewrite Hrun. reflexivity.
Defined.

Lemma credit_only_status_in_flight_witness :
  CommandStatusView_IsValid Wire.credit_grant = true
  /\ CommandStatusView_GetCommandOpCode Wire.credit_grant = NONE
  /\ waiting_command_ Wire.in_flight <> NONE
  /\ exists s',
      on_command_status Wire.credit_grant Wire.in_flight = Done s' /\
      command_credits_ s' = 1%N /\
      command_queue_ s' = command_queue_ Wire.in_flight /\
      waiting_command_ s' = 0x0402 /\
      trace_ s' = trace_ Wire.in_flight.
Proof.
  assert (H1 : CommandStatusView_IsValid Wire.credit_grant = true) by reflexivity.
  assert (H2 : CommandStatusView_GetCommandOpCode Wire.credit_grant = NONE) by reflexivity.
  assert (H3 : waiting_command_ Wire.in_flight <> NONE) by (vm_compute; discriminate).
  repeat (split; [assumption|]).
  destruct (credit_only_status_in_flight Wire.credit_grant Wire.in_flight H1 H2 H3)
    as (s' & Hd & Hc & Hq & Hw & _ & _ & _ & Ht & _).
  exists s'. repeat split; assumption.
Defined.

Lemma unexpected_response_is_fatal_witness :
  CommandStatusView_IsValid Wire.create_connection_cancel_status = true
  /\ CommandStatusView_GetCommandOpCode Wire.create_connection_cancel_status <> NONE
  /\ command_queue_ Wire.in_flight_complete
     = [CommandQueueEntry_complete Wire.create_connection_cancel (ClientCompleteCallback 8)]
  /\ waiting_for_status_
       (CommandQueueEntry_complete Wire.create_connection_cancel (ClientCompleteCallback 8))
     = false
  /\ on_command_status Wire.create_connection_cancel_status Wire.in_flight_complete
     = Aborted (Waiting_for_command_complete_got_command_status 0x0408 0x0408)
               (set_command_credits_ 1%N Wire.in_flight_complete).
Proof.
  assert (H1 : CommandStatusView_IsValid Wire.create_connection_cancel_status = true)
    by reflexivity.
  assert (H2 : CommandStatusView_GetCommandOpCode Wire.create_connection_cancel_status
               <> NONE) by (vm_compute; discriminate).
  assert (H3 : command_queue_ Wire.in_flight_complete
               = [CommandQueueEntry_complete Wire.create_connection_cancel
                    (ClientCompleteCallback 8)]) by reflexivity.
  repeat (split; [assumption|]). split; [reflexivity|].
  destruct (unexpected_response_is_fatal Wire.create_connection_cancel_status
              Wire.in_flight_complete) as [Hst _].
  destruct (Hst H1 H2) as [f Hf].
  - right; right. eexists _, _. split; [exact H3 | reflexivity].
  - rewrite Hf. vm_compute in Hf. injection Hf as <-. reflexivity.
Defined.

Lemma registration_is_exclusive_unregistration_unchecked_witness :
  is_Some (event_handlers_ Wire.with_handlers !! 0x3E)
  /\ event_handlers_ Wire.with_handlers !! 0x05 = None
  /\ handle_register_event_handler 0x3E (ClientEventCallback 1) Wire.with_handlers
     = Aborted (Second_handler_for_event_code 0x3E) Wire.with_handlers
  /\ handle_unregister_event_handler 0x05 Wire.with_handlers
     = Undefined Wire.with_handlers.
Proof.
  assert (H1 : is_Some (event_handlers_ Wire.with_handlers !! 0x3E))
    by (exists BindOn_on_le_meta_event; reflexivity).
  assert (H2 : event_handlers_ Wire.with_handlers !! 0x05 = None) by reflexivity.
  repeat (split; [assumption|]).
  destruct (registration_is_exclusive_unregistration_unchecked Wire.with_handlers)
    as (Hreg & _ & _ & _ & Hunreg & _).
  split.
  - exact (Hreg _ (ClientEventCallback 1) H1).
  - exact (proj1 (Hunreg _ H2)).
Defined.

Lemma getters_discard_on_disconnect_witness :
  GetAclConnectionInterface (ClientEventCallback 5) (ClientDisconnectCallback 0)
  = GetAclConnectionInterface (ClientEventCallback 5) (ClientDisconnectCallback 1)
  /\ run (snd (GetAclConnectionInterface (ClientEventCallback 5) (ClientDisconnectCallback 0)))
         impl_new
     = Done (set_event_handlers_
               {[ 0x1D := ClientEventCallback 5; 0x06 := ClientEventCallback 5;
                  0x1C := ClientEventCallback 5 ]} impl_new)
  /\ event_handlers_
       (set_event_handlers_
          {[ 0x1D := ClientEventCallback 5; 0x06 := ClientEventCallback 5;
             0x1C := ClientEventCallback 5 ]} impl_new) !! 0x1D
     = Some (ClientEventCallback 5).
Proof.
  destruct getters_discard_on_disconnect as (Hsame & _ & _ & _ & Hacl & _).
  split; [exact (Hsame _ _ _)|].
  assert (E : run (snd (GetAclConnectionInterface (ClientEventCallback 5)
                          (ClientDisconnectCallback 0))) impl_new
              = Done (set_event_handlers_
                        {[ 0x1D := ClientEventCallback 5; 0x06 := ClientEventCallback 5;
                           0x1C := ClientEventCallback 5 ]} impl_new))
    by (vm_compute; reflexivity).
  split; [exact E|].
  destruct (Hacl (ClientEventCallback 5) (ClientDisconnectCallback 0) impl_new)
    as [_ Htable].
  exact (eq_trans (Htable _ E 0x1D) eq_refl).
Defined.

(** ** More on the command engine *)

Section Engine.
Context `{PacketCatalog}.

Lemma can_send_no_credit (s : impl) : command_credits_ s = 0%N -> can_send s = false.
Proof. intros Hc. unfold can_send. rewrite Hc. reflexivity. Qed.

Lemma send_next_command_head (s : impl) (front : CommandQueueEntry) rest :
  (0 < command_credits_ s)%N -> waiting_command_ s = NONE ->
  command_queue_ s = front :: rest ->
  CommandPacketView_IsValid (bytes_of front) = true ->
  send_next_command s = Done (sent (bytes_of front) s).
Proof.
  intros Hc Hw Hq Hv.
  assert (Hcan : can_send s = true) by (apply can_send_true; rewrite Hq; auto).
  rewrite (send_next_command_unfold s front rest Hcan Hq). cbn zeta.
  unfold bytes_of in Hv. rewrite Hv. reflexivity.
Qed.

Lemma hd_app_singleton (e : CommandQueueEntry) (q : list CommandQueueEntry) :
  exists rest, q ++ [e] = hd e q :: rest.
Proof. destruct q as [|a q]; cbn; eauto. Qed.

(** X1. Enqueueing with no credit or with a command in flight only appends the
    entry.  Enqueueing with a credit and no command in flight appends the
    entry and sends the head of the queue: the new command when the queue
    was empty, else the command that was waiting at the head. *)
Theorem enqueue_appends_and_sends_the_head
    (cmd : CommandPacketBuilder) (f : CompleteCallback) (g : StatusCallback) (s : impl) :
  let ec := CommandQueueEntry_complete cmd f in
  let es := CommandQueueEntry_status cmd g in
  (command_credits_ s = 0%N \/ waiting_command_ s <> NONE ->
   handle_enqueue_command_with_complete cmd f s
   = Done (set_command_queue_ (command_queue_ s ++ [ec]) s)
   /\ handle_enqueue_command_with_status cmd g s
      = Done (set_command_queue_ (command_queue_ s ++ [es]) s))
  /\ ((0 < command_credits_ s)%N -> waiting_command_ s = NONE ->
      (CommandPacketView_IsValid (bytes_of (hd ec (command_queue_ s))) = true ->
       handle_enqueue_command_with_complete cmd f s
       = Done (sent (bytes_of (hd ec (command_queue_ s)))
                    (set_command_queue_ (command_queue_ s ++ [ec]) s)))
      /\ (CommandPacketView_IsValid (bytes_of (hd es (command_queue_ s))) = true ->
          handle_enqueue_command_with_status cmd g s
          = Done (sent (bytes_of (hd es (command_queue_ s)))
                       (set_command_queue_ (command_queue_ s ++ [es]) s)))).
Proof.
  intros ec es. split.
  - intros Hb.
    assert (Hblocked : forall e,
               can_send (set_command_queue_ (command_queue_ s ++ [e]) s) = false).
    { intros e. destruct Hb as [Hc | Hw].
      - apply can_send_no_credit. exact Hc.
      - apply can_send_in_flight. exact Hw. }
    split.
    + unfold handle_enqueue_command_with_complete. cbv [andThen lift].
      apply send_next_command_blocked, Hblocked.
    + unfold handle_enqueue_command_with_status. cbv [andThen lift].
      apply send_next_command_blocked, Hblocked.
  - intros Hc Hw. split; intros Hv.
    + unfold handle_enqueue_command_with_complete. cbv [andThen lift].
      destruct (hd_app_singleton ec (command_queue_ s)) as [rest Hq].
      apply (send_next_command_head _ _ rest); auto.
    + unfold handle_enqueue_command_with_status. cbv [andThen lift].
      destruct (hd_app_singleton es (command_queue_ s)) as [rest Hq].
      apply (send_next_command_head _ _ rest); auto.
Qed.

Lemma send_next_command_credits (s s' : impl) :
  send_next_command s = Done s' ->
  (hal_commands (trace_ s') = hal_commands (trace_ s)
   /\ command_credits_ s' = command_credits_ s)
  \/ (exists bytes, hal_commands (trace_ s') = hal_commands (trace_ s) ++ [bytes]
                    /\ command_credits_ s' = 0%N).
Proof.
  intros Hd. apply send_next_command_Done in Hd.
  destruct Hd as [[_ ->] | (front & rest & _ & _ & _ & ->)].
  - left. auto.
  - right. exists (bytes_of front). split; [|reflexivity].
    unfold sent. cbn [trace_]. rewrite hal_commands_app. reflexivity.
Qed.

(** X2. After a command status or a command complete that does not abort, the
    credits are the count of the event when the handler sent no command,
    and 0 when it sent one; it sends at most one. *)
Theorem credits_after_a_response (event : EventPacketView) (s s' : impl) :
  (on_command_status event s = Done s' ->
   (hal_commands (trace_ s') = hal_commands (trace_ s)
    /\ command_credits_ s' = CommandStatusView_GetNumHciCommandPackets event)
   \/ (exists bytes, hal_commands (trace_ s') = hal_commands (trace_ s) ++ [bytes]
                     /\ command_credits_ s' = 0%N))
  /\
  (on_command_complete event s = Done s' ->
   (hal_commands (trace_ s') = hal_commands (trace_ s)
    /\ command_credits_ s' = CommandCompleteView_GetNumHciCommandPackets event)
   \/ (exists bytes, hal_commands (trace_ s') = hal_commands (trace_ s) ++ [bytes]
                     /\ command_credits_ s' = 0%N)).
Proof.
  split; intros Hd.
  - destruct (on_command_status_cases event s)
      as [(f & s0 & Ha & _) | [[_ Hs] | (front & rest & _ & _ & _ & _ & Hs)]].
    + congruence.
    + rewrite Hs in Hd. exact (send_next_command_credits _ _ Hd).
    + rewrite Hs in Hd. apply send_next_command_credits in Hd.
      unfold answered in Hd. cbn [trace_ command_credits_] in Hd.
      rewrite hal_commands_app in Hd. cbn in Hd. rewrite app_nil_r in Hd. exact Hd.
  - destruct (on_command_complete_cases event s)
      as [(f & s0 & Ha & _) | [[_ Hs] | (front & rest & _ & _ & _ & _ & Hs)]].
    + congruence.
    + rewrite Hs in Hd. exact (send_next_command_credits _ _ Hd).
    + rewrite Hs in Hd. apply send_next_command_credits in Hd.
      unfold answered in Hd. cbn [trace_ command_credits_] in Hd.
      rewrite hal_commands_app in Hd. cbn in Hd. rewrite app_nil_r in Hd. exact Hd.
Qed.

(** X3. A response that brings no credit answers the head of the queue and
    sends nothing, though a command waits behind it; a later command status
    with the opcode [NONE] and a credit sends that command. *)
Theorem no_credit_stalls_until_granted
    (event grant : EventPacketView) (s : impl) (front next : CommandQueueEntry)
    (rest : list CommandQueueEntry) :
  command_queue_ s = front :: next :: rest ->
  CommandStatusView_IsValid event = true ->
  CommandStatusView_GetCommandOpCode event <> NONE ->
  waiting_command_ s = CommandStatusView_GetCommandOpCode event ->
  waiting_for_status_ front = true ->
  CommandStatusView_GetNumHciCommandPackets event = 0%N ->
  let stalled := answered 0%N (next :: rest)
                          (Invoke_on_status (on_status front) event) s in
  on_command_status event s = Done stalled
  /\ (CommandStatusView_IsValid grant = true ->
      CommandStatusView_GetCommandOpCode grant = NONE ->
      (0 < CommandStatusView_GetNumHciCommandPackets grant)%N ->
      CommandPacketView_IsValid (bytes_of next) = true ->
      on_command_status grant stalled
      = Done (sent (bytes_of next)
                   (set_command_credits_
                      (CommandStatusView_GetNumHciCommandPackets grant) stalled))).
Proof.
  intros Hq Hv Hop Hw Hst Hn stalled. split.
  - rewrite (on_command_status_matching event s front (next :: rest)) by assumption.
    rewrite Hn. apply send_next_command_blocked, can_send_no_credit. reflexivity.
  - intros Hgv Hgop Hgn Hnv.
    rewrite on_command_status_credit_only by assumption.
    apply (send_next_command_head _ next rest); auto.
Qed.

(** X4. A command complete with the opcode [NONE] while a command is in flight
    sets the credits to its count and changes nothing else. *)
Theorem credit_only_complete_in_flight (event : EventPacketView) (s : impl) :
  CommandCompleteView_IsValid event = true ->
  CommandCompleteView_GetCommandOpCode event = NONE ->
  waiting_command_ s <> NONE ->
  on_command_complete event s
  = Done {| command_queue_ := command_queue_ s;
            event_handlers_ := event_handlers_ s;
            subevent_handlers_ := subevent_handlers_ s;
            waiting_command_ := waiting_command_ s;
            command_credits_ := CommandCompleteView_GetNumHciCommandPackets event;
            hci_timeout_alarm_ := hci_timeout_alarm_ s;
            trace_ := trace_ s |}.
Proof.
  intros Hv Hop Hw.
  rewrite on_command_complete_credit_only by assumption.
  apply send_next_command_blocked, can_send_in_flight. exact Hw.
Qed.

(** X5. A command complete that answers the head, brings a credit, and finds a
    valid command behind the head: the callback of the head is invoked and
    the alarm cancelled, then the next command is sent and the alarm
    scheduled for it, in this order. *)
Theorem answer_then_send_next
    (event : EventPacketView) (s : impl) (front next : CommandQueueEntry)
    (rest : list CommandQueueEntry) :
  command_queue_ s = front :: next :: rest ->
  CommandCompleteView_IsValid event = true ->
  CommandCompleteView_GetCommandOpCode event <> NONE ->
  waiting_command_ s = CommandCompleteView_GetCommandOpCode event ->
  waiting_for_status_ front = false ->
  (0 < CommandCompleteView_GetNumHciCommandPackets event)%N ->
  CommandPacketView_IsValid (bytes_of next) = true ->
  on_command_complete event s
  = Done {| command_queue_ := next :: rest;
            event_handlers_ := event_handlers_ s;
            subevent_handlers_ := subevent_handlers_ s;
            waiting_command_ := opcode_of next;
            command_credits_ := 0%N;
            hci_timeout_alarm_ := Some (opcode_of next, kHciTimeoutMs);
            trace_ := trace_ s ++
                      [Invoke_on_complete (on_complete front) event; Alarm_Cancel;
                       sendHciCommand (bytes_of next);
                       Alarm_Schedule (opcode_of next) kHciTimeoutMs] |}.
Proof.
  intros Hq Hv Hop Hw Hst Hn Hnv.
  rewrite (on_command_complete_matching event s front (next :: rest)) by assumption.
  rewrite (send_next_command_head _ next rest); auto.
  unfold sent, answered. cbn [command_queue_ event_handlers_ subevent_handlers_ trace_].
  rewrite <- app_assoc. reflexivity.
Qed.

End Engine.

(** ** More invariants of the states the layer reaches *)

Section Reached.
Context `{PacketCatalog}.

(** A property kept by every task whose command has an opcode other than
    [NONE] holds at the end of a run of such tasks. *)
Lemma run_invariant_commands (P : impl -> Prop) :
  (forall t s s',
      P s -> Forall (fun e => opcode_of e <> NONE) (enqueued_by t) ->
      run_task t s = Done s' -> P s') ->
  forall ts s s',
    P s -> Forall (fun e => opcode_of e <> NONE) (enqueued ts) ->
    run ts s = Done s' -> P s'.
Proof.
  intros Hstep ts. induction ts as [|t ts IH]; intros s s' HP He Hrun; cbn in Hrun.
  - injection Hrun as <-. exact HP.
  - unfold enqueued in He. cbn [flat_map] in He. apply Forall_app in He.
    destruct He as [He1 He2].
    unfold andThen in Hrun. destruct (run_task t s) as [s1| |] eqn:Ht; [|discriminate ..].
    eapply IH; [|exact He2|exact Hrun]. eapply Hstep; eassumption.
Qed.

Lemma alarm_watches_head_in_flight (s : impl) : alarm_watches_head s -> head_in_flight s.
Proof.
  intros [Hw Ha] Hn. destruct (Ha _ _ (Hw Hn)) as (_ & front & rest & Hq & Hop).
  exists front, rest. auto.
Qed.

(** X6. In a state the layer reaches from the constructor, the opcode in
    flight is the one read from the bytes of the head of the queue: the
    queue is not empty while a command is in flight. *)
Theorem command_in_flight_is_the_head (ts : list Task) (s : impl) :
  run ts impl_new = Done s -> head_in_flight s.
Proof.
  intros Hrun. apply alarm_watches_head_in_flight.
  eapply (run_invariant alarm_watches_head); [|apply impl_new_alarm|exact Hrun].
  intros t s1 s2. apply run_task_alarm.
Qed.

Lemma send_next_command_quiet (s s' : impl) :
  quiet_alarm s -> send_next_command s = Done s' -> quiet_alarm s'.
Proof.
  intros [Hq Hall] Hd. apply send_next_command_Done in Hd.
  destruct Hd as [[_ ->] | (front & rest & _ & Hqu & _ & ->)]; [split; assumption|].
  split; cbn.
  - intros Hn. rewrite Hqu in Hall. exfalso. exact (Forall_inv Hall Hn).
  - exact Hall.
Qed.

Lemma run_task_quiet (t : Task) (s s' : impl) :
  quiet_alarm s -> Forall (fun e => opcode_of e <> NONE) (enqueued_by t) ->
  run_task t s = Done s' -> quiet_alarm s'.
Proof.
  intros Hi He Hd. destruct (is_engine_task t) eqn:Ht.
  - destruct t; try discriminate Ht; cbn [run_task enqueued_by] in *.
    + destruct (on_command_complete_cases event s)
        as [(f & s0 & Ha & _) | [[Hop Hs] | (front & rest & _ & Hq & _ & _ & Hs)]].
      * congruence.
      * rewrite Hs in Hd. eapply send_next_command_quiet; [|exact Hd]. exact Hi.
      * rewrite Hs in Hd. eapply send_next_command_quiet; [|exact Hd].
        destruct Hi as [_ Hall]. split; cbn; [reflexivity|].
        rewrite Hq in Hall. exact (Forall_inv_tail Hall).
    + destruct (on_command_status_cases event s)
        as [(f & s0 & Ha & _) | [[Hop Hs] | (front & rest & _ & Hq & _ & _ & Hs)]].
      * congruence.
      * rewrite Hs in Hd. eapply send_next_command_quiet; [|exact Hd]. exact Hi.
      * rewrite Hs in Hd. eapply send_next_command_quiet; [|exact Hd].
        destruct Hi as [_ Hall]. split; cbn; [reflexivity|].
        rewrite Hq in Hall. exact (Forall_inv_tail Hall).
    + revert Hd. unfold handle_enqueue_command_with_complete. cbv [andThen lift].
      apply send_next_command_quiet. destruct Hi as [Hq Hall]. split; cbn; [exact Hq|].
      apply Forall_app. split; [exact Hall|exact He].
    + revert Hd. unfold handle_enqueue_command_with_status. cbv [andThen lift].
      apply send_next_command_quiet. destruct Hi as [Hq Hall]. split; cbn; [exact Hq|].
      apply Forall_app. split; [exact Hall|exact He].
  - pose proof (run_task_frame t s Ht) as Hf. rewrite Hd in Hf. cbn in Hf.
    destruct Hf as (Hq & Hw & _ & Hal & _). destruct Hi as [H1 H2].
    split.
    + rewrite Hw, Hal. exact H1.
    + rewrite Hq. exact H2.
Qed.

Lemma impl_new_quiet : quiet_alarm impl_new.
Proof. split; cbn; [reflexivity | constructor]. Qed.

(** X7. In a state the layer reaches from the constructor, when no enqueued
    command has the opcode [NONE]: the alarm is scheduled exactly while a
    command is in flight. *)
Theorem alarm_is_scheduled_iff_in_flight (ts : list Task) (s : impl) :
  Forall (fun e => opcode_of e <> NONE) (enqueued ts) ->
  run ts impl_new = Done s ->
  (hci_timeout_alarm_ s = None <-> waiting_command_ s = NONE).
Proof.
  intros He Hrun. split.
  - intros Hnone.
    assert (Hi : alarm_watches_head s).
    { eapply (run_invariant alarm_watches_head); [|apply impl_new_alarm|exact Hrun].
      intros t s1 s2. apply run_task_alarm. }
    destruct (Z.eq_dec (waiting_command_ s) NONE) as [Hw|Hw]; [exact Hw|].
    destruct Hi as [Hi _]. rewrite (Hi Hw) in Hnone. discriminate.
  - assert (Hi : quiet_alarm s).
    { eapply (run_invariant_commands quiet_alarm);
        [|apply impl_new_quiet|exact He|exact Hrun].
      intros t s1 s2. apply run_task_quiet. }
    exact (proj1 Hi).
Qed.

(** X8. A task other than an enqueue or a response changes neither the queue,
    the command in flight, the credits nor the alarm, and it neither sends
    a command to the HAL nor invokes a response callback, whether it ends
    or aborts.  The unregistration of a code that has no handler is left
    out: its behaviour is undefined. *)
Theorem other_tasks_leave_the_engine (t : Task) (s : impl) :
  is_engine_task t = false ->
  is_undefined (run_task t s) = false ->
  command_queue_ (state_of (run_task t s)) = command_queue_ s /\
  waiting_command_ (state_of (run_task t s)) = waiting_command_ s /\
  command_credits_ (state_of (run_task t s)) = command_credits_ s /\
  hci_timeout_alarm_ (state_of (run_task t s)) = hci_timeout_alarm_ s /\
  sinks (trace_ (state_of (run_task t s))) = sinks (trace_ s) /\
  hal_commands (trace_ (state_of (run_task t s))) = hal_commands (trace_ s).
Proof.
  intros Ht.
  destruct t; try discriminate Ht; cbn [run_task]; intros Hdef.
  - unfold on_hci_event.
    destruct (event_handlers_ s !! GetEventCode event); same_engine.
  - unfold on_le_meta_event. cbn zeta. step_handler.
    destruct (LeMetaEventView_IsValid event); [|same_engine].
    destruct (subevent_handlers_ s !! GetSubeventCode event); same_engine.
  - same_engine.
  - unfold fail_if_reset_complete_not_success. cbn zeta. step_handler.
    destruct (ResetCompleteView_IsValid complete); [|same_engine].
    destruct (ResetCompleteView_GetStatus complete =? SUCCESS); same_engine.
  - unfold handle_register_event_handler.
    destruct (event_handlers_ s !! event_code); same_engine.
  - revert Hdef. unfold handle_unregister_event_handler.
    destruct (event_handlers_ s !! event_code); [intros _; same_engine|discriminate].
  - unfold handle_register_le_event_handler.
    destruct (subevent_handlers_ s !! subevent_code); same_engine.
  - revert Hdef. unfold handle_unregister_le_event_handler.
    destruct (subevent_handlers_ s !! subevent_code); [intros _; same_engine|discriminate].
  - unfold alarm_fires, on_hci_timeout, ASSERT_LOG.
    destruct (hci_timeout_alarm_ s) as [[op ms]|] eqn:Ha; rewrite <- ?Ha; same_engine.
Qed.

Lemma send_next_command_same_tables (s0 s : impl) :
  event_handlers_ s0 = event_handlers_ s ->
  subevent_handlers_ s0 = subevent_handlers_ s ->
  event_handlers_ (state_of (send_next_command s0)) = event_handlers_ s /\
  subevent_handlers_ (state_of (send_next_command s0)) = subevent_handlers_ s.
Proof.
  intros <- <-. apply send_next_command_tables.
Qed.

Lemma on_command_status_tables (event : EventPacketView) (s : impl) :
  event_handlers_ (state_of (on_command_status event s)) = event_handlers_ s /\
  subevent_handlers_ (state_of (on_command_status event s)) = subevent_handlers_ s.
Proof.
  unfold on_command_status. cbn zeta. unfold Alarm_Cancel_. step_handler.
  destruct (CommandStatusView_IsValid event); [|auto].
  destruct (CommandStatusView_GetCommandOpCode event =? NONE).
  { apply send_next_command_same_tables; reflexivity. }
  destruct (command_queue_ s) as [|front rest]; step_handler; [auto|].
  destruct (waiting_command_ s =? CommandStatusView_GetCommandOpCode event); [|auto].
  destruct (waiting_for_status_ front); [|auto].
  apply send_next_command_same_tables; reflexivity.
Qed.

Lemma on_command_complete_tables (event : EventPacketView) (s : impl) :
  event_handlers_ (state_of (on_command_complete event s)) = event_handlers_ s /\
  subevent_handlers_ (state_of (on_command_complete event s)) = subevent_handlers_ s.
Proof.
  unfold on_command_complete. cbn zeta. unfold Alarm_Cancel_. step_handler.
  destruct (CommandCompleteView_IsValid event); [|auto].
  destruct (CommandCompleteView_GetCommandOpCode event =? NONE).
  { apply send_next_command_same_tables; reflexivity. }
  destruct (command_queue_ s) as [|front rest]; step_handler; [auto|].
  destruct (waiting_command_ s =? CommandCompleteView_GetCommandOpCode event); [|auto].
  destruct (waiting_for_status_ front); cbn [negb]; [auto|].
  apply send_next_command_same_tables; reflexivity.
Qed.

(** X9. A task other than a registration or an unregistration leaves the two
    handler tables as they are, whether it ends or aborts: enqueueing,
    responses, events and the alarm never change where events go. *)
Theorem other_tasks_leave_the_tables (t : Task) (s : impl) :
  is_table_task t = false ->
  event_handlers_ (state_of (run_task t s)) = event_handlers_ s /\
  subevent_handlers_ (state_of (run_task t s)) = subevent_handlers_ s.
Proof.
  intros Ht. destruct t; try discriminate Ht; cbn [run_task].
  - unfold on_hci_event. destruct (event_handlers_ s !! GetEventCode event); auto.
  - apply on_command_complete_tables.
  - apply on_command_status_tables.
  - unfold on_le_meta_event. cbn zeta. step_handler.
    destruct (LeMetaEventView_IsValid event); [|auto].
    destruct (subevent_handlers_ s !! GetSubeventCode event); auto.
  - auto.
  - unfold fail_if_reset_complete_not_success. cbn zeta. step_handler.
    destruct (ResetCompleteView_IsValid complete); [|auto].
    destruct (ResetCompleteView_GetStatus complete =? SUCCESS); auto.
  - unfold handle_enqueue_command_with_complete. cbv [andThen lift].
    apply send_next_command_same_tables; reflexivity.
  - unfold handle_enqueue_command_with_status. cbv [andThen lift].
    apply send_next_command_same_tables; reflexivity.
  - unfold alarm_fires, on_hci_timeout, ASSERT_LOG.
    destruct (hci_timeout_alarm_ s) as [[op ms]|]; auto.
Qed.

End Reached.

(** ** More on the handler tables *)

Section MoreTables.
Context `{PacketCatalog}.

(** X10. Registering a handler for a free code and unregistering the code gives
    the state back; so does unregistering a code and registering the
    handler it had. *)
Theorem register_and_unregister_undo_each_other (s : impl) :
  (forall code f, event_handlers_ s !! code = None ->
     (handle_register_event_handler code f ;; handle_unregister_event_handler code) s
     = Done s)
  /\ (forall code f, subevent_handlers_ s !! code = None ->
        (handle_register_le_event_handler code f ;;
         handle_unregister_le_event_handler code) s
        = Done s)
  /\ (forall code f, event_handlers_ s !! code = Some f ->
        (handle_unregister_event_handler code ;; handle_register_event_handler code f) s
        = Done s)
  /\ (forall code f, subevent_handlers_ s !! code = Some f ->
        (handle_unregister_le_event_handler code ;;
         handle_register_le_event_handler code f) s
        = Done s).
Proof.
  repeat split; intros code f Hl.
  - unfold andThen, handle_register_event_handler, handle_unregister_event_handler.
    rewrite Hl. cbn. rewrite lookup_insert_eq, delete_insert_id by exact Hl.
    destruct s; reflexivity.
  - unfold andThen, handle_register_le_event_handler, handle_unregister_le_event_handler.
    rewrite Hl. cbn. rewrite lookup_insert_eq, delete_insert_id by exact Hl.
    destruct s; reflexivity.
  - unfold andThen, handle_register_event_handler, handle_unregister_event_handler.
    rewrite Hl. cbn. rewrite lookup_delete_eq, insert_delete_id by exact Hl.
    destruct s; reflexivity.
  - unfold andThen, handle_register_le_event_handler, handle_unregister_le_event_handler.
    rewrite Hl. cbn. rewrite lookup_delete_eq, insert_delete_id by exact Hl.
    destruct s; reflexivity.
Qed.

(** X11. Once a handler is registered for an event code, the events with this
    code are given to it, and the events with another code go where they
    went before; once the code is unregistered, its events are dropped
    with the debug log. *)
Theorem registered_handler_gets_its_events
    (code : EventCode) (f : EventCallback) (s s1 : impl) :
  handle_register_event_handler code f s = Done s1 ->
  (forall event, GetEventCode event = code ->
     on_hci_event event s1 = Done (emit (Invoke_event_handler f event) s1))
  /\ (forall event, GetEventCode event <> code ->
      exists eff, on_hci_event event s = Done (emit eff s)
                  /\ on_hci_event event s1 = Done (emit eff s1))
  /\ (forall s2, handle_unregister_event_handler code s1 = Done s2 ->
      forall event, GetEventCode event = code ->
        on_hci_event event s2 = Done (emit (LOG_DEBUG_dropping code) s2)).
Proof.
  intros Hr. apply handle_register_event_handler_Done in Hr as [Hn ->].
  split; [|split].
  - intros event <-. unfold on_hci_event. cbn. rewrite lookup_insert_eq. reflexivity.
  - intros event Hne. unfold on_hci_event. cbn.
    rewrite lookup_insert_ne by congruence.
    destruct (event_handlers_ s !! GetEventCode event); eauto.
  - intros s2 Hu event <-. revert Hu. unfold handle_unregister_event_handler. cbn.
    rewrite lookup_insert_eq. intros E. injection E as <-.
    unfold on_hci_event. cbn. rewrite lookup_delete_eq. reflexivity.
Qed.

(** X12. Once a handler is registered for a subevent code, the valid LE meta
    events with this code are given to it, and the others fare as before;
    once the code is unregistered, such an event aborts the process. *)
Theorem registered_subevent_handler_gets_its_events
    (code : SubeventCode) (f : LeEventCallback) (s s1 : impl) :
  handle_register_le_event_handler code f s = Done s1 ->
  (forall event, LeMetaEventView_IsValid event = true -> GetSubeventCode event = code ->
     on_le_meta_event event s1 = Done (emit (Invoke_subevent_handler f event) s1))
  /\ (forall event, GetSubeventCode event <> code ->
      subevent_handlers_ s1 !! GetSubeventCode event
      = subevent_handlers_ s !! GetSubeventCode event
      /\ is_aborted (on_le_meta_event event s1) = is_aborted (on_le_meta_event event s))
  /\ (forall s2, handle_unregister_le_event_handler code s1 = Done s2 ->
      forall event, LeMetaEventView_IsValid event = true -> GetSubeventCode event = code ->
        on_le_meta_event event s2 = Aborted (Unhandled_le_event code) s2).
Proof.
  intros Hr. apply handle_register_le_event_handler_Done in Hr as [Hn ->].
  split; [|split].
  - intros event Hv <-. unfold on_le_meta_event. cbn zeta. step_handler.
    rewrite Hv. step_handler. rewrite lookup_insert_eq. reflexivity.
  - intros event Hne.
    assert (Hl : subevent_handlers_
                   (set_subevent_handlers_ (<[code:=f]> (subevent_handlers_ s)) s)
                 !! GetSubeventCode event
                 = subevent_handlers_ s !! GetSubeventCode event)
      by (cbn; apply lookup_insert_ne; congruence).
    split; [exact Hl|].
    unfold on_le_meta_event. cbn zeta. step_handler.
    destruct (LeMetaEventView_IsValid event); [|reflexivity].
    step_handler. cbn in Hl. rewrite Hl.
    destruct (subevent_handlers_ s !! GetSubeventCode event); reflexivity.
  - intros s2 Hu event Hv <-. revert Hu. unfold handle_unregister_le_event_handler. cbn.
    rewrite lookup_insert_eq. intros E. injection E as <-.
    unfold on_le_meta_event. cbn zeta. step_handler.
    rewrite Hv. step_handler. rewrite lookup_delete_eq. reflexivity.
Qed.

(** *** Registering one handler for a list of codes *)

Lemma run_register_events_ok (h : EventCallback) (codes : list EventCode) :
  forall s : impl,
    is_aborted (run (flat_map (fun event => RegisterEventHandler event h) codes) s) = false
    <-> NoDup codes /\ forall c, c ∈ codes -> event_handlers_ s !! c = None.
Proof.
  induction codes as [|c codes IH]; intros s.
  - cbn. split; [|reflexivity]. intros _. split; [constructor|].
    intros c Hc. apply elem_of_nil in Hc. contradiction.
  - cbn [flat_map RegisterEventHandler app run run_task]. unfold andThen.
    unfold handle_register_event_handler at 1.
    destruct (event_handlers_ s !! c) as [g|] eqn:E.
    + cbn. split; [discriminate|]. intros [_ Hall].
      rewrite (Hall c) in E by apply list_elem_of_here. discriminate.
    + rewrite IH. cbn [event_handlers_ set_event_handlers_]. rewrite NoDup_cons. split.
      * intros [Hnd Hall]. split; [split; [|exact Hnd]|].
        -- intros Hin. specialize (Hall c Hin). rewrite lookup_insert_eq in Hall.
           discriminate.
        -- intros c' Hc'. apply elem_of_cons in Hc' as [->|Hc']; [exact E|].
           specialize (Hall c' Hc'). apply lookup_insert_None in Hall. tauto.
      * intros [[Hnin Hnd] Hall]. split; [exact Hnd|].
        intros c' Hc'. apply lookup_insert_None. split.
        -- apply Hall, list_elem_of_further, Hc'.
        -- intros ->. contradiction.
Qed.

Lemma run_register_le_events_ok (h : LeEventCallback) (codes : list SubeventCode) :
  forall s : impl,
    is_aborted (run (flat_map (fun event => RegisterLeEventHandler event h) codes) s)
    = false
    <-> NoDup codes /\ forall c, c ∈ codes -> subevent_handlers_ s !! c = None.
Proof.
  induction codes as [|c codes IH]; intros s.
  - cbn. split; [|reflexivity]. intros _. split; [constructor|].
    intros c Hc. apply elem_of_nil in Hc. contradiction.
  - cbn [flat_map RegisterLeEventHandler app run run_task]. unfold andThen.
    unfold handle_register_le_event_handler at 1.
    destruct (subevent_handlers_ s !! c) as [g|] eqn:E.
    + cbn. split; [discriminate|]. intros [_ Hall].
      rewrite (Hall c) in E by apply list_elem_of_here. discriminate.
    + rewrite IH. cbn [subevent_handlers_ set_subevent_handlers_]. rewrite NoDup_cons.
      split.
      * intros [Hnd Hall]. split; [split; [|exact Hnd]|].
        -- intros Hin. specialize (Hall c Hin). rewrite lookup_insert_eq in Hall.
           discriminate.
        -- intros c' Hc'. apply elem_of_cons in Hc' as [->|Hc']; [exact E|].
           specialize (Hall c' Hc'). apply lookup_insert_None in Hall. tauto.
      * intros [[Hnin Hnd] Hall]. split; [exact Hnd|].
        intros c' Hc'. apply lookup_insert_None. split.
        -- apply Hall, list_elem_of_further, Hc'.
        -- intros ->. contradiction.
Qed.

(** X13. The registrations a getter posts all pass exactly when the table of
    the interface has no code twice and none of its codes has a handler
    yet; otherwise the process aborts. *)
Theorem getter_registrations_pass_iff (s : impl) :
  (forall h d,
      is_aborted (run (snd (GetAclConnectionInterface h d)) s) = false
      <-> NoDup AclConnectionEvents
          /\ forall c, c ∈ AclConnectionEvents -> event_handlers_ s !! c = None)
  /\ (forall h d,
        is_aborted (run (snd (GetLeAclConnectionInterface h d)) s) = false
        <-> NoDup LeConnectionManagementEvents
            /\ forall c, c ∈ LeConnectionManagementEvents ->
                         subevent_handlers_ s !! c = None)
  /\ (forall h,
        is_aborted (run (snd (GetSecurityInterface h)) s) = false
        <-> NoDup SecurityEvents
            /\ forall c, c ∈ SecurityEvents -> event_handlers_ s !! c = None)
  /\ (forall h,
        is_aborted (run (snd (GetLeSecurityInterface h)) s) = false
        <-> NoDup LeSecurityEvents
            /\ forall c, c ∈ LeSecurityEvents -> subevent_handlers_ s !! c = None)
  /\ (forall h,
        is_aborted (run (snd (GetLeAdvertisingInterface h)) s) = false
        <-> NoDup LeAdvertisingEvents
            /\ forall c, c ∈ LeAdvertisingEvents -> subevent_handlers_ s !! c = None)
  /\ (forall h,
        is_aborted (run (snd (GetLeScanningInterface h)) s) = false
        <-> NoDup LeScanningEvents
            /\ forall c, c ∈ LeScanningEvents -> subevent_handlers_ s !! c = None).
Proof.
  repeat apply conj; intros.
  - apply run_register_events_ok.
  - apply run_register_le_events_ok.
  - apply run_register_events_ok.
  - apply run_register_le_events_ok.
  - apply run_register_le_events_ok.
  - apply run_register_le_events_ok.
Qed.

(** X14. The registrations [GetSecurityInterface], [GetLeSecurityInterface],
    [GetLeAdvertisingInterface] and [GetLeScanningInterface] post change
    one handler table and nothing else, also when they abort half way;
    when they all pass, the codes of the table of the interface have the
    handler given and the other codes are as before. *)
Theorem other_getters_register_their_table (s : impl) :
  (forall h,
      let o := run (snd (GetSecurityInterface h)) s in
      state_of o = set_event_handlers_ (event_handlers_ (state_of o)) s
      /\ (forall s', o = Done s' ->
          forall code : EventCode,
            event_handlers_ s' !! code
            = if bool_decide (code ∈ SecurityEvents) then Some h
              else event_handlers_ s !! code))
  /\ (forall h,
        let o := run (snd (GetLeSecurityInterface h)) s in
        state_of o = set_subevent_handlers_ (subevent_handlers_ (state_of o)) s
        /\ (forall s', o = Done s' ->
            forall code : SubeventCode,
              subevent_handlers_ s' !! code
              = if bool_decide (code ∈ LeSecurityEvents) then Some h
                else subevent_handlers_ s !! code))
  /\ (forall h,
        let o := run (snd (GetLeAdvertisingInterface h)) s in
        state_of o = set_subevent_handlers_ (subevent_handlers_ (state_of o)) s
        /\ (forall s', o = Done s' ->
            forall code : SubeventCode,
              subevent_handlers_ s' !! code
              = if bool_decide (code ∈ LeAdvertisingEvents) then Some h
                else subevent_handlers_ s !! code))
  /\ (forall h,
        let o := run (snd (GetLeScanningInterface h)) s in
        state_of o = set_subevent_handlers_ (subevent_handlers_ (state_of o)) s
        /\ (forall s', o = Done s' ->
            forall code : SubeventCode,
              subevent_handlers_ s' !! code
              = if bool_decide (code ∈ LeScanningEvents) then Some h
                else subevent_handlers_ s !! code)).
Proof.
  repeat apply conj; intros h.
  - apply run_register_events.
  - apply run_register_le_events.
  - apply run_register_le_events.
  - apply run_register_le_events.
Qed.

Lemma is_aborted_run_app (ts1 ts2 : list Task) (s : impl) :
  is_aborted (run ts1 s) = true -> is_aborted (run (ts1 ++ ts2) s) = true.
Proof.
  intros Ha. rewrite run_app. unfold andThen.
  destruct (run ts1 s); [discriminate|reflexivity|discriminate].
Qed.

Lemma run_register_events_defined (h : EventCallback) (codes : list EventCode) :
  forall s : impl,
    is_undefined (run (flat_map (fun event => RegisterEventHandler event h) codes) s)
    = false.
Proof.
  induction codes as [|c codes IH]; intros s; [reflexivity|].
  cbn [flat_map RegisterEventHandler app run run_task]. unfold andThen.
  unfold handle_register_event_handler at 1.
  destruct (event_handlers_ s !! c); [reflexivity|apply IH].
Qed.

Lemma run_register_le_events_defined (h : LeEventCallback) (codes : list SubeventCode) :
  forall s : impl,
    is_undefined (run (flat_map (fun event => RegisterLeEventHandler event h) codes) s)
    = false.
Proof.
  induction codes as [|c codes IH]; intros s; [reflexivity|].
  cbn [flat_map RegisterLeEventHandler app run run_task]. unfold andThen.
  unfold handle_register_le_event_handler at 1.
  destruct (subevent_handlers_ s !! c); [reflexivity|apply IH].
Qed.

Lemma run_register_events_twice (h1 h2 : EventCallback) (codes1 codes2 : list EventCode)
    (c : EventCode) (s : impl) :
  c ∈ codes1 -> c ∈ codes2 ->
  is_aborted (run (flat_map (fun event => RegisterEventHandler event h1) codes1 ++
                   flat_map (fun event => RegisterEventHandler event h2) codes2) s) = true.
Proof.
  intros H1 H2. rewrite run_app. unfold andThen.
  destruct (run_register_events h1 codes1 s) as [_ Htable]. cbn zeta in Htable.
  pose proof (run_register_events_defined h1 codes1 s) as Hdef.
  destruct (run (flat_map (fun event => RegisterEventHandler event h1) codes1) s)
    as [s1|f s1|s1]; [|reflexivity|discriminate Hdef].
  specialize (Htable s1 eq_refl c).
  rewrite bool_decide_eq_true_2 in Htable by exact H1.
  apply not_false_iff_true. intros Hok.
  apply run_register_events_ok in Hok as [_ Hall].
  rewrite (Hall c H2) in Htable. discriminate.
Qed.

Lemma run_register_le_events_twice (h1 h2 : LeEventCallback)
    (codes1 codes2 : list SubeventCode) (c : SubeventCode) (s : impl) :
  c ∈ codes1 -> c ∈ codes2 ->
  is_aborted (run (flat_map (fun event => RegisterLeEventHandler event h1) codes1 ++
                   flat_map (fun event => RegisterLeEventHandler event h2) codes2) s)
  = true.
Proof.
  intros H1 H2. rewrite run_app. unfold andThen.
  destruct (run_register_le_events h1 codes1 s) as [_ Htable]. cbn zeta in Htable.
  pose proof (run_register_le_events_defined h1 codes1 s) as Hdef.
  destruct (run (flat_map (fun event => RegisterLeEventHandler event h1) codes1) s)
    as [s1|f s1|s1]; [|reflexivity|discriminate Hdef].
  specialize (Htable s1 eq_refl c).
  rewrite bool_decide_eq_true_2 in Htable by exact H1.
  apply not_false_iff_true. intros Hok.
  apply run_register_le_events_ok in Hok as [_ Hall].
  rewrite (Hall c H2) in Htable. discriminate.
Qed.

(** X15. Asking for two interfaces whose tables share a code aborts the
    process, whichever two of the six interfaces they are and in either
    order, whatever the handlers and the state; so asking twice for the
    same interface aborts when its table is not empty. *)
Theorem getting_interfaces_that_share_a_code_aborts
    (i j : CommandInterface) (h1 h2 : EventCallback) (l1 l2 : LeEventCallback)
    (d1 d2 : DisconnectCallback) (s : impl) :
  (share_a_code i j ->
   is_aborted (run (getter_tasks i h1 l1 d1 ++ getter_tasks j h2 l2 d2) s) = true)
  /\ (share_a_code i j -> share_a_code j i)
  /\ (has_codes i -> share_a_code i i)
  /\ (has_codes i ->
      is_aborted (run (getter_tasks i h1 l1 d1 ++ getter_tasks i h2 l2 d2) s) = true).
Proof.
  assert (Habort : forall i' j', share_a_code i' j' ->
            is_aborted (run (getter_tasks i' h1 l1 d1 ++ getter_tasks j' h2 l2 d2) s)
            = true).
  { intros i' j' Hs. unfold share_a_code in Hs.
    destruct i', j'; cbn [interface_codes] in Hs;
      try contradiction; destruct Hs as (c & Ha & Hb);
      cbn [getter_tasks GetAclConnectionInterface GetLeAclConnectionInterface
           GetSecurityInterface GetLeSecurityInterface GetLeAdvertisingInterface
           GetLeScanningInterface snd];
      first [ apply (run_register_events_twice h1 h2 _ _ c); assumption
            | apply (run_register_le_events_twice l1 l2 _ _ c); assumption ]. }
  assert (Hself : forall i', has_codes i' -> share_a_code i' i').
  { intros i' Hc. unfold has_codes, share_a_code in *.
    destruct (interface_codes i') as [[|c a]|[|c a]]; try contradiction;
      exists c; split; apply list_elem_of_here. }
  split; [apply Habort|]. split; [|split].
  - unfold share_a_code.
    destruct (interface_codes i), (interface_codes j); try tauto;
      intros (c & Ha & Hb); exists c; auto.
  - apply Hself.
  - intros Hc. apply Habort, Hself, Hc.
Qed.

End MoreTables.

(** ** Start and the reset command *)

Section Starting.
Context `{PacketCatalog}.

Lemma NoDup_Start_codes :
  NoDup Start_codes <->
  (COMMAND_COMPLETE <> COMMAND_STATUS /\ COMMAND_COMPLETE <> LE_META_EVENT /\
   COMMAND_COMPLETE <> PAGE_SCAN_REPETITION_MODE_CHANGE /\
   COMMAND_COMPLETE <> MAX_SLOTS_CHANGE /\ COMMAND_COMPLETE <> VENDOR_SPECIFIC) /\
  (COMMAND_STATUS <> LE_META_EVENT /\
   COMMAND_STATUS <> PAGE_SCAN_REPETITION_MODE_CHANGE /\
   COMMAND_STATUS <> MAX_SLOTS_CHANGE /\ COMMAND_STATUS <> VENDOR_SPECIFIC) /\
  (LE_META_EVENT <> PAGE_SCAN_REPETITION_MODE_CHANGE /\
   LE_META_EVENT <> MAX_SLOTS_CHANGE /\ LE_META_EVENT <> VENDOR_SPECIFIC) /\
  (PAGE_SCAN_REPETITION_MODE_CHANGE <> MAX_SLOTS_CHANGE /\
   PAGE_SCAN_REPETITION_MODE_CHANGE <> VENDOR_SPECIFIC) /\
  MAX_SLOTS_CHANGE <> VENDOR_SPECIFIC.
Proof.
  unfold Start_codes. rewrite !NoDup_cons, !not_elem_of_cons, NoDup_nil.
  pose proof (not_elem_of_nil COMMAND_COMPLETE).
  pose proof (not_elem_of_nil COMMAND_STATUS).
  pose proof (not_elem_of_nil LE_META_EVENT).
  pose proof (not_elem_of_nil PAGE_SCAN_REPETITION_MODE_CHANGE).
  pose proof (not_elem_of_nil MAX_SLOTS_CHANGE).
  pose proof (not_elem_of_nil VENDOR_SPECIFIC).
  tauto.
Qed.

(** The state before the reset command is enqueued. *)
Lemma Start_enqueue_reset (s : impl) :
  event_handlers_ s = Start_handlers -> subevent_handlers_ s = ∅ ->
  command_queue_ s = [] -> waiting_command_ s = NONE -> command_credits_ s = 1%N ->
  hci_timeout_alarm_ s = None -> trace_ s = [] ->
  CommandPacketView_IsValid (bytes_of reset_entry) = true ->
  handle_enqueue_command_with_complete ResetBuilder_Create
    BindOnce_fail_if_reset_complete_not_success s = Done Start_done.
Proof.
  intros He Hs Hq Hw Hc Ha Ht Hv.
  unfold handle_enqueue_command_with_complete. cbv [andThen lift].
  rewrite (send_next_command_head _ reset_entry []).
  - unfold sent, Start_done. cbn. rewrite He, Hs, Hq, Ht. reflexivity.
  - cbn. rewrite Hc. reflexivity.
  - exact Hw.
  - cbn. rewrite Hq. reflexivity.
  - exact Hv.
Qed.

Lemma Start_passes :
  NoDup Start_codes ->
  CommandPacketView_IsValid (bytes_of reset_entry) = true ->
  run (snd Start) (fst Start) = Done Start_done.
Proof.
  intros Hnd Hv. apply NoDup_Start_codes in Hnd.
  destruct Hnd as ((?&?&?&?&?) & (?&?&?&?) & (?&?&?) & (?&?) & ?).
  unfold Start, RegisterEventHandler, EnqueueCommand_complete.
  cbn [fst snd app run run_task]. unfold andThen, handle_register_event_handler.
  cbn [event_handlers_ impl_new set_event_handlers_].
  repeat (rewrite ?lookup_insert_ne by assumption; rewrite lookup_empty;
          cbn [event_handlers_ set_event_handlers_]).
  rewrite Start_enqueue_reset; try reflexivity. exact Hv.
Qed.

(** X16. The tasks [Start] posts all pass exactly when the six codes it
    registers are different and the reset command reads back as a valid
    command.  They leave the six handlers in the table, the reset command
    at the head of the queue, sent and in flight with the alarm scheduled,
    and no credit. *)
Theorem Start_passes_iff :
  (NoDup Start_codes ->
   CommandPacketView_IsValid (bytes_of reset_entry) = true ->
   run (snd Start) (fst Start) = Done Start_done)
  /\ (forall s, run (snd Start) (fst Start) = Done s ->
        NoDup Start_codes
        /\ CommandPacketView_IsValid (bytes_of reset_entry) = true
        /\ s = Start_done).
Proof.
  split; [exact Start_passes|].
  intros s Hrun.
  assert (Hnd : NoDup Start_codes /\
                CommandPacketView_IsValid (bytes_of reset_entry) = true).
  { revert Hrun. unfold Start, RegisterEventHandler, EnqueueCommand_complete.
    cbn [fst snd app run run_task]. unfold andThen.
    repeat match goal with
           | |- match handle_register_event_handler ?c ?f ?s0 with _ => _ end = _ -> _ =>
             let E := fresh "E" in
             let s1 := fresh "s" in
             destruct (handle_register_event_handler c f s0) as [s1| |] eqn:E;
             [apply handle_register_event_handler_Done in E; destruct E as [? ->]
             |discriminate ..]
           end.
    cbn [event_handlers_ set_event_handlers_] in *.
    repeat match goal with
           | Hn : (<[_ := _]> _) !! _ = None |- _ =>
             let Hne := fresh "Hne" in
             apply lookup_insert_None in Hn; destruct Hn as [Hn Hne]
           end.
    unfold handle_enqueue_command_with_complete. cbv [andThen lift id].
    match goal with
    | |- match send_next_command ?s0 with _ => _ end = _ -> _ =>
      destruct (send_next_command s0) as [s1| |] eqn:Hd; [|discriminate ..]
    end.
    intros _. split.
    - apply NoDup_Start_codes. repeat split; assumption.
    - apply send_next_command_Done in Hd.
      destruct Hd as [[Hc _] | (front & rest & _ & Hq & Hv & _)].
      + exfalso. apply not_true_iff_false in Hc. apply Hc, can_send_true.
        cbn. split; [reflexivity|]. split; [reflexivity | discriminate].
      + cbn in Hq. injection Hq as <- <-. exact Hv. }
  destruct Hnd as [Hnd Hv]. repeat split; try assumption.
  rewrite (Start_passes Hnd Hv) in Hrun. injection Hrun as <-. reflexivity.
Qed.

(** X17. The command complete of the reset command, in the state [Start]
    leaves: the layer is idle again with the credits of the event, the
    callback invoked is the check of the reset, and over all one command
    went to the HAL.  The check passes exactly when the view is a valid
    reset complete with the status [SUCCESS], and changes nothing. *)
Theorem reset_complete_returns_to_idle (event : EventPacketView) :
  CommandCompleteView_IsValid event = true ->
  CommandCompleteView_GetCommandOpCode event = opcode_of reset_entry ->
  opcode_of reset_entry <> NONE ->
  on_command_complete event Start_done
  = Done {| command_queue_ := [];
            event_handlers_ := Start_handlers;
            subevent_handlers_ := ∅;
            waiting_command_ := NONE;
            command_credits_ := CommandCompleteView_GetNumHciCommandPackets event;
            hci_timeout_alarm_ := None;
            trace_ := [sendHciCommand (bytes_of reset_entry);
                       Alarm_Schedule (opcode_of reset_entry) kHciTimeoutMs;
                       Invoke_on_complete BindOnce_fail_if_reset_complete_not_success event;
                       Alarm_Cancel] |}
  /\ hal_commands (trace_ (state_of (on_command_complete event Start_done)))
     = [bytes_of reset_entry]
  /\ (forall s,
        state_of (fail_if_reset_complete_not_success event s) = s
        /\ (is_aborted (fail_if_reset_complete_not_success event s) = false
            <-> ResetCompleteView_IsValid event = true
                /\ ResetCompleteView_GetStatus event = SUCCESS)).
Proof.
  intros Hv Hop Hn.
  assert (Hrun : on_command_complete event Start_done
                 = Done (answered (CommandCompleteView_GetNumHciCommandPackets event) []
                           (Invoke_on_complete BindOnce_fail_if_reset_complete_not_success
                              event) Start_done)).
  { rewrite (on_command_complete_matching event Start_done reset_entry []);
      try reflexivity; try assumption.
    - apply send_next_command_blocked. unfold can_send, answered.
      cbn [command_queue_]. rewrite bool_decide_eq_true_2 by reflexivity.
      apply andb_false_r.
    - rewrite Hop. exact Hn.
    - symmetry. exact Hop. }
  rewrite Hrun. split; [reflexivity|]. split; [reflexivity|].
  intros s. unfold fail_if_reset_complete_not_success. cbn zeta. step_handler.
  destruct (ResetCompleteView_IsValid event).
  - destruct (ResetCompleteView_GetStatus event =? SUCCESS) eqn:E; cbn.
    + apply Z.eqb_eq in E. tauto.
    + apply Z.eqb_neq in E. split; [reflexivity|].
      split; [discriminate|]. tauto.
  - cbn. split; [reflexivity|]. split; [discriminate|]. intros [? _]. discriminate.
Qed.

(** X18. With the table [Start] makes, a command complete event goes to
    [on_command_complete], a command status event to [on_command_status],
    and the events with one of the three other codes go to [drop], which
    changes nothing: no log, no abort. *)
Theorem Start_routes_events (event : EventPacketView) (s : impl) :
  NoDup Start_codes ->
  event_handlers_ s = Start_handlers ->
  (GetEventCode event = COMMAND_COMPLETE ->
   on_hci_event event s
   = Done (emit (Invoke_event_handler BindOn_on_command_complete event) s)
   /\ option_map run_task (posted_by_event_callback BindOn_on_command_complete event)
      = Some (on_command_complete event))
  /\ (GetEventCode event = COMMAND_STATUS ->
      on_hci_event event s
      = Done (emit (Invoke_event_handler BindOn_on_command_status event) s)
      /\ option_map run_task (posted_by_event_callback BindOn_on_command_status event)
         = Some (on_command_status event))
  /\ (GetEventCode event = PAGE_SCAN_REPETITION_MODE_CHANGE
      \/ GetEventCode event = MAX_SLOTS_CHANGE
      \/ GetEventCode event = VENDOR_SPECIFIC ->
      on_hci_event event s = Done (emit (Invoke_event_handler BindOn_drop event) s)
      /\ forall s',
          option_map (fun t => run_task t s') (posted_by_event_callback BindOn_drop event)
          = Some (Done s')).
Proof.
  intros Hnd He. apply NoDup_Start_codes in Hnd.
  destruct Hnd as ((?&?&?&?&?) & (?&?&?&?) & (?&?&?) & (?&?) & ?).
  unfold on_hci_event. rewrite He. unfold Start_handlers.
  split; [|split].
  - intros ->. split; [|reflexivity].
    rewrite !lookup_insert_ne by congruence. rewrite lookup_insert_eq. reflexivity.
  - intros ->. split; [|reflexivity].
    rewrite !lookup_insert_ne by congruence. rewrite lookup_insert_eq. reflexivity.
  - intros [-> | [-> | ->]]; (split; [|reflexivity]).
    + rewrite !lookup_insert_ne by congruence. rewrite lookup_insert_eq. reflexivity.
    + rewrite !lookup_insert_ne by congruence. rewrite lookup_insert_eq. reflexivity.
    + rewrite lookup_insert_eq. reflexivity.
Qed.

End Starting.

(** ** These theorems on packets of the wire *)

Lemma enqueue_appends_and_sends_the_head_witness :
  (0 < command_credits_ Wire.ready)%N
  /\ waiting_command_ Wire.ready = NONE
  /\ CommandPacketView_IsValid (Serialize Wire.inquiry_cancel) = true
  /\ handle_enqueue_command_with_complete Wire.create_connection_cancel
       (ClientCompleteCallback 8) Wire.ready
     = Done (sent (Serialize Wire.inquiry_cancel)
               (set_command_queue_
                  [CommandQueueEntry_status Wire.inquiry_cancel (ClientStatusCallback 7);
                   CommandQueueEntry_complete Wire.create_connection_cancel
                     (ClientCompleteCallback 8)] Wire.ready)).
Proof.
  assert (H1 : (0 < command_credits_ Wire.ready)%N) by reflexivity.
  assert (H2 : waiting_command_ Wire.ready = NONE) by reflexivity.
  assert (H3 : CommandPacketView_IsValid (Serialize Wire.inquiry_cancel) = true)
    by reflexivity.
  repeat (split; [assumption|]).
  destruct (enqueue_appends_and_sends_the_head Wire.create_connection_cancel
              (ClientCompleteCallback 8) EmptyStatusCallback Wire.ready) as [_ Hsend].
  exact (proj1 (Hsend H1 H2) H3).
Defined.

Lemma credits_after_a_response_witness :
  on_command_status Wire.inquiry_cancel_status Wire.in_flight
  = Done (answered 1%N []
            (Invoke_on_status (ClientStatusCallback 7) Wire.inquiry_cancel_status)
            Wire.in_flight)
  /\ command_credits_
       (answered 1%N []
          (Invoke_on_status (ClientStatusCallback 7) Wire.inquiry_cancel_status)
          Wire.in_flight)
     = CommandStatusView_GetNumHciCommandPackets Wire.inquiry_cancel_status.
Proof.
  assert (E : on_command_status Wire.inquiry_cancel_status Wire.in_flight
              = Done (answered 1%N []
                        (Invoke_on_status (ClientStatusCallback 7)
                           Wire.inquiry_cancel_status) Wire.in_flight))
    by (vm_compute; reflexivity).
  split; [exact E|].
  destruct (proj1 (credits_after_a_response _ _ _) E) as [[_ Hc] | (b & Hb & _)].
  - exact Hc.
  - vm_compute in Hb. discriminate Hb.
Defined.

Lemma no_credit_stalls_until_granted_witness :
  CommandStatusView_GetNumHciCommandPackets Wire2.inquiry_cancel_status_no_credit = 0%N
  /\ (0 < CommandStatusView_GetNumHciCommandPackets Wire.credit_grant)%N
  /\ on_command_status Wire2.inquiry_cancel_status_no_credit Wire2.two_queued
     = Done (answered 0%N
               [CommandQueueEntry_complete Wire.create_connection_cancel
                  (ClientCompleteCallback 8)]
               (Invoke_on_status (ClientStatusCallback 7)
                  Wire2.inquiry_cancel_status_no_credit) Wire2.two_queued)
  /\ hal_commands
       (trace_ (state_of (on_command_status Wire.credit_grant
                            (answered 0%N
                               [CommandQueueEntry_complete Wire.create_connection_cancel
                                  (ClientCompleteCallback 8)]
                               (Invoke_on_status (ClientStatusCallback 7)
                                  Wire2.inquiry_cancel_status_no_credit)
                               Wire2.two_queued))))
     = [Serialize Wire.inquiry_cancel; Serialize Wire.create_connection_cancel].
Proof.
  assert (H1 : CommandStatusView_GetNumHciCommandPackets
                 Wire2.inquiry_cancel_status_no_credit = 0%N) by reflexivity.
  assert (H2 : (0 < CommandStatusView_GetNumHciCommandPackets Wire.credit_grant)%N)
    by reflexivity.
  repeat (split; [assumption|]).
  assert (Hop : CommandStatusView_GetCommandOpCode Wire2.inquiry_cancel_status_no_credit
                <> NONE) by (vm_compute; discriminate).
  assert (Hq : command_queue_ Wire2.two_queued
               = [CommandQueueEntry_status Wire.inquiry_cancel (ClientStatusCallback 7);
                  CommandQueueEntry_complete Wire.create_connection_cancel
                    (ClientCompleteCallback 8)]) by reflexivity.
  assert (Hv : CommandStatusView_IsValid Wire2.inquiry_cancel_status_no_credit = true)
    by reflexivity.
  assert (Hw : waiting_command_ Wire2.two_queued
               = CommandStatusView_GetCommandOpCode Wire2.inquiry_cancel_status_no_credit)
    by reflexivity.
  assert (Hgv : CommandStatusView_IsValid Wire.credit_grant = true) by reflexivity.
  assert (Hgo : CommandStatusView_GetCommandOpCode Wire.credit_grant = NONE)
    by reflexivity.
  assert (Hnv : CommandPacketView_IsValid
                  (bytes_of (CommandQueueEntry_complete Wire.create_connection_cancel
                               (ClientCompleteCallback 8))) = true) by reflexivity.
  destruct (no_credit_stalls_until_granted Wire2.inquiry_cancel_status_no_credit
              Wire.credit_grant Wire2.two_queued _ _ _ Hq Hv Hop Hw eq_refl H1)
    as [Hstall Hgrant].
  split; [exact Hstall|].
  exact (eq_trans
           (f_equal (fun o => hal_commands (trace_ (state_of o))) (Hgrant Hgv Hgo H2 Hnv))
           eq_refl).
Defined.

Lemma credit_only_complete_in_flight_witness :
  CommandCompleteView_IsValid Wire2.credit_grant_complete = true
  /\ CommandCompleteView_GetCommandOpCode Wire2.credit_grant_complete = NONE
  /\ waiting_command_ Wire.in_flight <> NONE
  /\ on_command_complete Wire2.credit_grant_complete Wire.in_flight
     = Done (set_command_credits_ 2%N Wire.in_flight).
Proof.
  assert (H1 : CommandCompleteView_IsValid Wire2.credit_grant_complete = true)
    by reflexivity.
  assert (H2 : CommandCompleteView_GetCommandOpCode Wire2.credit_grant_complete = NONE)
    by reflexivity.
  assert (H3 : waiting_command_ Wire.in_flight <> NONE) by (vm_compute; discriminate).
  repeat (split; [assumption|]).
  exact (credit_only_complete_in_flight _ _ H1 H2 H3).
Defined.

Lemma answer_then_send_next_witness :
  (0 < CommandCompleteView_GetNumHciCommandPackets
         Wire2.create_connection_cancel_complete)%N
  /\ waiting_for_status_
       (CommandQueueEntry_complete Wire.create_connection_cancel (ClientCompleteCallback 8))
     = false
  /\ trace_ (state_of (on_command_complete Wire2.create_connection_cancel_complete
                         Wire2.two_queued_complete))
     = [sendHciCommand [x08; x04; x00]; Alarm_Schedule 0x0408 2000;
        Invoke_on_complete (ClientCompleteCallback 8)
          Wire2.create_connection_cancel_complete;
        Alarm_Cancel;
        sendHciCommand [x02; x04; x00]; Alarm_Schedule 0x0402 2000].
Proof.
  assert (H1 : (0 < CommandCompleteView_GetNumHciCommandPackets
                       Wire2.create_connection_cancel_complete)%N) by reflexivity.
  repeat (split; [assumption || reflexivity|]).
  assert (Hop : CommandCompleteView_GetCommandOpCode
                  Wire2.create_connection_cancel_complete <> NONE)
    by (vm_compute; discriminate).
  assert (Hq : command_queue_ Wire2.two_queued_complete
               = [CommandQueueEntry_complete Wire.create_connection_cancel
                    (ClientCompleteCallback 8);
                  CommandQueueEntry_status Wire.inquiry_cancel (ClientStatusCallback 7)])
    by reflexivity.
  assert (Hv : CommandCompleteView_IsValid Wire2.create_connection_cancel_complete = true)
    by reflexivity.
  assert (Hw : waiting_command_ Wire2.two_queued_complete
               = CommandCompleteView_GetCommandOpCode
                   Wire2.create_connection_cancel_complete) by reflexivity.
  assert (Hnv : CommandPacketView_IsValid
                  (bytes_of (CommandQueueEntry_status Wire.inquiry_cancel
                               (ClientStatusCallback 7))) = true) by reflexivity.
  exact (eq_trans
           (f_equal (fun o => trace_ (state_of o))
              (answer_then_send_next Wire2.create_connection_cancel_complete
                 Wire2.two_queued_complete _ _ _ Hq Hv Hop Hw eq_refl H1 Hnv))
           eq_refl).
Defined.

Lemma command_in_flight_is_the_head_witness :
  run Wire.credit_grant_in_flight impl_new
  = Done (state_of (run Wire.credit_grant_in_flight impl_new))
  /\ head_in_flight (state_of (run Wire.credit_grant_in_flight impl_new)).
Proof.
  assert (E : run Wire.credit_grant_in_flight impl_new
              = Done (state_of (run Wire.credit_grant_in_flight impl_new)))
    by (vm_compute; reflexivity).
  split; [exact E|].
  exact (command_in_flight_is_the_head _ _ E).
Defined.

Lemma alarm_is_scheduled_iff_in_flight_witness :
  Forall (fun e => opcode_of e <> NONE) (enqueued Wire2.one_command)
  /\ run Wire2.one_command impl_new = Done (state_of (run Wire2.one_command impl_new))
  /\ hci_timeout_alarm_ (state_of (run Wire2.one_command impl_new)) = None
  /\ waiting_command_ (state_of (run Wire2.one_command impl_new)) = NONE.
Proof.
  assert (He : Forall (fun e => opcode_of e <> NONE) (enqueued Wire2.one_command)).
  { repeat constructor; vm_compute; discriminate. }
  assert (E : run Wire2.one_command impl_new
              = Done (state_of (run Wire2.one_command impl_new)))
    by (vm_compute; reflexivity).
  assert (Ha : hci_timeout_alarm_ (state_of (run Wire2.one_command impl_new)) = None)
    by reflexivity.
  repeat (split; [assumption|]).
  exact (proj1 (alarm_is_scheduled_iff_in_flight _ _ He E) Ha).
Defined.

Lemma other_tasks_leave_the_engine_witness :
  is_engine_task (call_on_le_meta_event Wire.le_subevent_1) = false
  /\ is_undefined (run_task (call_on_le_meta_event Wire.le_subevent_1) Wire.in_flight)
     = false
  /\ is_aborted (run_task (call_on_le_meta_event Wire.le_subevent_1) Wire.in_flight) = true
  /\ command_queue_
       (state_of (run_task (call_on_le_meta_event Wire.le_subevent_1) Wire.in_flight))
     = command_queue_ Wire.in_flight.
Proof.
  split; [reflexivity|]. split; [reflexivity|]. split; [reflexivity|].
  exact (proj1 (other_tasks_leave_the_engine
                  (call_on_le_meta_event Wire.le_subevent_1) Wire.in_flight
                  eq_refl eq_refl)).
Defined.

Lemma other_tasks_leave_the_tables_witness :
  is_table_task (call_on_command_complete Wire2.reset_complete) = false
  /\ event_handlers_
       (state_of (run_task (call_on_command_complete Wire2.reset_complete)
                    (state_of Wire.started)))
     = event_handlers_ (state_of Wire.started).
Proof.
  split; [reflexivity|].
  exact (proj1 (other_tasks_leave_the_tables
                  (call_on_command_complete Wire2.reset_complete)
                  (state_of Wire.started) eq_refl)).
Defined.

Lemma register_and_unregister_undo_each_other_witness :
  event_handlers_ Wire.with_handlers !! 0x05 = None
  /\ (handle_register_event_handler 0x05 (ClientEventCallback 1) ;;
      handle_unregister_event_handler 0x05) Wire.with_handlers
     = Done Wire.with_handlers.
Proof.
  assert (H1 : event_handlers_ Wire.with_handlers !! 0x05 = None) by reflexivity.
  split; [exact H1|].
  exact (proj1 (register_and_unregister_undo_each_other Wire.with_handlers)
               0x05 (ClientEventCallback 1) H1).
Defined.

Lemma registered_handler_gets_its_events_witness :
  handle_register_event_handler 0x1B (ClientEventCallback 1) Wire.with_handlers
  = Done (set_event_handlers_
            (<[0x1B := ClientEventCallback 1]> (event_handlers_ Wire.with_handlers))
            Wire.with_handlers)
  /\ GetEventCode Wire2.max_slots_change = 0x1B
  /\ trace_ (state_of
               (on_hci_event Wire2.max_slots_change
                  (set_event_handlers_
                     (<[0x1B := ClientEventCallback 1]>
                        (event_handlers_ Wire.with_handlers))
                     Wire.with_handlers)))
     = [Invoke_event_handler (ClientEventCallback 1) Wire2.max_slots_change].
Proof.
  assert (E : handle_register_event_handler 0x1B (ClientEventCallback 1)
                Wire.with_handlers
              = Done (set_event_handlers_
                        (<[0x1B := ClientEventCallback 1]>
                           (event_handlers_ Wire.with_handlers))
                        Wire.with_handlers)) by reflexivity.
  assert (Hc : GetEventCode Wire2.max_slots_change = 0x1B) by reflexivity.
  repeat (split; [assumption|]).
  rewrite (proj1 (registered_handler_gets_its_events _ _ _ _ E) _ Hc).
  reflexivity.
Defined.

Lemma registered_subevent_handler_gets_its_events_witness :
  handle_register_le_event_handler 0x02 (ClientLeEventCallback 4) Wire.with_handlers
  = Done (set_subevent_handlers_
            (<[0x02 := ClientLeEventCallback 4]> (subevent_handlers_ Wire.with_handlers))
            Wire.with_handlers)
  /\ LeMetaEventView_IsValid (Wire.le_meta x02 x00) = true
  /\ GetSubeventCode (Wire.le_meta x02 x00) = 0x02
  /\ trace_ (state_of
               (on_le_meta_event (Wire.le_meta x02 x00)
                  (set_subevent_handlers_
                     (<[0x02 := ClientLeEventCallback 4]>
                        (subevent_handlers_ Wire.with_handlers))
                     Wire.with_handlers)))
     = [Invoke_subevent_handler (ClientLeEventCallback 4) (Wire.le_meta x02 x00)].
Proof.
  assert (E : handle_register_le_event_handler 0x02 (ClientLeEventCallback 4)
                Wire.with_handlers
              = Done (set_subevent_handlers_
                        (<[0x02 := ClientLeEventCallback 4]>
                           (subevent_handlers_ Wire.with_handlers))
                        Wire.with_handlers)) by reflexivity.
  assert (Hv : LeMetaEventView_IsValid (Wire.le_meta x02 x00) = true) by reflexivity.
  assert (Hc : GetSubeventCode (Wire.le_meta x02 x00) = 0x02) by reflexivity.
  repeat (split; [assumption|]).
  rewrite (proj1 (registered_subevent_handler_gets_its_events _ _ _ _ E) _ Hv Hc).
  reflexivity.
Defined.

(** Closes [NoDup] and membership goals on lists of given codes. *)
Ltac given_codes :=
  repeat first
    [ apply NoDup_nil_2
    | apply NoDup_cons_2
    | apply not_elem_of_nil
    | apply not_elem_of_cons; split; [discriminate|] ].

Lemma getter_registrations_pass_iff_witness :
  NoDup AclConnectionEvents
  /\ (forall c, c ∈ AclConnectionEvents -> event_handlers_ Wire.with_handlers !! c = None)
  /\ is_aborted (run (snd (GetAclConnectionInterface (ClientEventCallback 5)
                             (ClientDisconnectCallback 0))) Wire.with_handlers) = false.
Proof.
  assert (H1 : NoDup AclConnectionEvents) by (cbn; given_codes).
  assert (H2 : forall c, c ∈ AclConnectionEvents ->
                         event_handlers_ Wire.with_handlers !! c = None).
  { intros c Hc. cbn in Hc. rewrite !elem_of_cons in Hc.
    destruct Hc as [-> | [-> | [-> | Hc]]]; try reflexivity.
    apply elem_of_nil in Hc. contradiction. }
  repeat (split; [assumption|]).
  exact (proj2 (proj1 (getter_registrations_pass_iff Wire.with_handlers)
                      (ClientEventCallback 5) (ClientDisconnectCallback 0))
               (conj H1 H2)).
Defined.

Lemma other_getters_register_their_table_witness :
  run (snd (GetSecurityInterface (ClientEventCallback 6))) impl_new
  = Done (set_event_handlers_
            {[ 0x08 := ClientEventCallback 6; 0x16 := ClientEventCallback 6;
               0x17 := ClientEventCallback 6 ]} impl_new)
  /\ event_handlers_
       (set_event_handlers_
          {[ 0x08 := ClientEventCallback 6; 0x16 := ClientEventCallback 6;
             0x17 := ClientEventCallback 6 ]} impl_new) !! 0x16
     = Some (ClientEventCallback 6).
Proof.
  assert (E : run (snd (GetSecurityInterface (ClientEventCallback 6))) impl_new
              = Done (set_event_handlers_
                        {[ 0x08 := ClientEventCallback 6; 0x16 := ClientEventCallback 6;
                           0x17 := ClientEventCallback 6 ]} impl_new))
    by (vm_compute; reflexivity).
  split; [exact E|].
  destruct (proj1 (other_getters_register_their_table impl_new) (ClientEventCallback 6))
    as [_ Htable].
  exact (eq_trans (Htable _ E 0x16) eq_refl).
Defined.

Lemma getting_interfaces_that_share_a_code_aborts_witness :
  share_a_code le_security_interface le_security_interface
  /\ is_aborted
       (run (snd (GetLeSecurityInterface (ClientLeEventCallback 1)) ++
             snd (GetLeSecurityInterface (ClientLeEventCallback 2))) impl_new)
     = true.
Proof.
  assert (H1 : share_a_code le_security_interface le_security_interface).
  { exists 0x05. split; apply list_elem_of_here. }
  split; [exact H1|].
  exact (proj1 (getting_interfaces_that_share_a_code_aborts
                  le_security_interface le_security_interface
                  (ClientEventCallback 0) (ClientEventCallback 0)
                  (ClientLeEventCallback 1) (ClientLeEventCallback 2)
                  (ClientDisconnectCallback 0) (ClientDisconnectCallback 0) impl_new)
               H1).
Defined.

Lemma Start_passes_iff_witness :
  NoDup Start_codes
  /\ CommandPacketView_IsValid (bytes_of reset_entry) = true
  /\ run (snd Start) (fst Start) = Done Start_done
  /\ waiting_command_ Start_done = Wire.RESET.
Proof.
  assert (H1 : NoDup Start_codes) by (cbn; given_codes).
  assert (H2 : CommandPacketView_IsValid (bytes_of reset_entry) = true) by reflexivity.
  repeat (split; [assumption|]).
  split; [|reflexivity].
  exact (proj1 Start_passes_iff H1 H2).
Defined.

Lemma reset_complete_returns_to_idle_witness :
  CommandCompleteView_IsValid Wire2.reset_complete = true
  /\ CommandCompleteView_GetCommandOpCode Wire2.reset_complete = opcode_of reset_entry
  /\ opcode_of reset_entry <> NONE
  /\ hal_commands (trace_ (state_of (on_command_complete Wire2.reset_complete Start_done)))
     = [[x03; x0c; x00]]
  /\ is_aborted (fail_if_reset_complete_not_success Wire2.reset_complete impl_new) = false
  /\ is_aborted (fail_if_reset_complete_not_success Wire2.reset_failed impl_new) = true.
Proof.
  assert (H1 : CommandCompleteView_IsValid Wire2.reset_complete = true) by reflexivity.
  assert (H2 : CommandCompleteView_GetCommandOpCode Wire2.reset_complete
               = opcode_of reset_entry) by reflexivity.
  assert (H3 : opcode_of reset_entry <> NONE) by (vm_compute; discriminate).
  repeat (split; [assumption|]).
  destruct (reset_complete_returns_to_idle Wire2.reset_complete H1 H2 H3)
    as (_ & Hhal & Hcheck).
  split; [exact Hhal|].
  split; [|reflexivity].
  apply (proj2 (Hcheck impl_new)). split; reflexivity.
Defined.

Lemma Start_routes_events_witness :
  NoDup Start_codes
  /\ event_handlers_ Start_done = Start_handlers
  /\ GetEventCode Wire2.max_slots_change = MAX_SLOTS_CHANGE
  /\ on_hci_event Wire2.max_slots_change Start_done
     = Done (emit (Invoke_event_handler BindOn_drop Wire2.max_slots_change) Start_done)
  /\ run_task (call_drop Wire2.max_slots_change) Start_done = Done Start_done.
Proof.
  assert (H1 : NoDup Start_codes) by (cbn; given_codes).
  assert (H2 : event_handlers_ Start_done = Start_handlers) by reflexivity.
  assert (H3 : GetEventCode Wire2.max_slots_change = MAX_SLOTS_CHANGE) by reflexivity.
  repeat (split; [assumption|]).
  destruct (Start_routes_events Wire2.max_slots_change Start_done H1 H2)
    as (_ & _ & Hdrop).
  destruct (Hdrop (or_intror (or_introl H3))) as [Hev Hposted].
  split; [exact Hev|]. reflexivity.
Defined.

(** ** The dispatch of events *)

Section Dispatch.
Context `{PacketCatalog}.

Lemma non_table_task_tables (t : Task) (s : impl) :
  is_table_task t = false ->
  event_handlers_ (state_of (run_task t s)) = event_handlers_ s /\
  subevent_handlers_ (state_of (run_task t s)) = subevent_handlers_ s.
Proof.
  intros Ht. destruct t; try discriminate Ht; cbn [run_task].
  - unfold on_hci_event. destruct (event_handlers_ s !! GetEventCode event); auto.
  - apply on_command_complete_tables.
  - apply on_command_status_tables.
  - unfold on_le_meta_event. cbn zeta. step_handler.
    destruct (LeMetaEventView_IsValid event); [|auto].
    destruct (subevent_handlers_ s !! GetSubeventCode event); auto.
  - auto.
  - unfold fail_if_reset_complete_not_success. cbn zeta. step_handler.
    destruct (ResetCompleteView_IsValid complete); [|auto].
    destruct (ResetCompleteView_GetStatus complete =? SUCCESS); auto.
  - unfold handle_enqueue_command_with_complete. cbv [andThen lift].
    apply send_next_command_same_tables; reflexivity.
  - unfold handle_enqueue_command_with_status. cbv [andThen lift].
    apply send_next_command_same_tables; reflexivity.
  - unfold alarm_fires, on_hci_timeout, ASSERT_LOG.
    destruct (hci_timeout_alarm_ s) as [[op ms]|]; auto.
Qed.

(** A handler stays in the table of event handlers until its code is
    unregistered. *)
Lemma run_task_keeps_handler (t : Task) (s s' : impl) (code : EventCode)
    (f : EventCallback) :
  event_handlers_ s !! code = Some f ->
  t <> call_handle_unregister_event_handler code ->
  run_task t s = Done s' ->
  event_handlers_ s' !! code = Some f.
Proof.
  intros Hl Hne Hd. destruct (is_table_task t) eqn:Ht.
  - destruct t; try discriminate Ht; cbn [run_task] in Hd.
    + apply handle_register_event_handler_Done in Hd as [Hn ->]. cbn.
      rewrite lookup_insert_ne; [exact Hl|]. intros ->. congruence.
    + revert Hd. unfold handle_unregister_event_handler.
      destruct (event_handlers_ s !! event_code); [|discriminate].
      intros E. injection E as <-. cbn.
      rewrite lookup_delete_ne; [exact Hl|]. intros ->. contradiction.
    + apply handle_register_le_event_handler_Done in Hd as [_ ->]. exact Hl.
    + revert Hd. unfold handle_unregister_le_event_handler.
      destruct (subevent_handlers_ s !! subevent_code); [|discriminate].
      intros E. injection E as <-. exact Hl.
  - pose proof (proj1 (non_table_task_tables t s Ht)) as Hsame.
    rewrite Hd in Hsame. cbn in Hsame. rewrite Hsame. exact Hl.
Qed.

Lemma run_keeps_handler (ts : list Task) (code : EventCode) (f : EventCallback) :
  forall s s' : impl,
    event_handlers_ s !! code = Some f ->
    Forall (fun t => t <> call_handle_unregister_event_handler code) ts ->
    run ts s = Done s' ->
    event_handlers_ s' !! code = Some f.
Proof.
  induction ts as [|t ts IH]; intros s s' Hl Hall Hrun.
  - cbn in Hrun. injection Hrun as <-. exact Hl.
  - cbn [run] in Hrun. unfold andThen in Hrun.
    destruct (run_task t s) as [s1| |] eqn:Ht; [|discriminate ..].
    apply (IH s1 s'); [|exact (Forall_inv_tail Hall)|exact Hrun].
    exact (run_task_keeps_handler t s s1 code f Hl (Forall_inv Hall) Ht).
Qed.

(** C8, as the code has it.  [on_hci_event] looks the code of every event
    up in the table of event handlers: with a handler there it invokes it
    with the event, with none it logs at debug level and drops the event,
    and it does not abort.  It has no case of its own for [LE_META_EVENT]:
    [Start] registers the handler bound to [on_le_meta_event] for this
    code, and the handler stays until the code is unregistered.  While it
    is there an LE meta event goes to [on_le_meta_event], which reads the
    event as an LE meta event and looks its subevent code up in the table
    of subevent handlers: with a handler there it invokes it with the
    view, with none it aborts. *)
Theorem events_are_dispatched_by_table (event : EventPacketView) (s : impl) :
  (forall f, event_handlers_ s !! GetEventCode event = Some f ->
             on_hci_event event s = Done (emit (Invoke_event_handler f event) s))
  /\ (event_handlers_ s !! GetEventCode event = None ->
      on_hci_event event s = Done (emit (LOG_DEBUG_dropping (GetEventCode event)) s))
  /\ (forall s0 ts,
        run (snd Start) (fst Start) = Done s0 ->
        Forall (fun t => t <> call_handle_unregister_event_handler LE_META_EVENT) ts ->
        run ts s0 = Done s ->
        event_handlers_ s !! LE_META_EVENT = Some BindOn_on_le_meta_event)
  /\ (GetEventCode event = LE_META_EVENT ->
      event_handlers_ s !! LE_META_EVENT = Some BindOn_on_le_meta_event ->
      on_hci_event event s = Done (emit (Invoke_event_handler BindOn_on_le_meta_event event) s)
      /\ option_map run_task (posted_by_event_callback BindOn_on_le_meta_event event)
         = Some (on_le_meta_event event))
  /\ (LeMetaEventView_IsValid event = true ->
      (forall f, subevent_handlers_ s !! GetSubeventCode event = Some f ->
                 on_le_meta_event event s
                 = Done (emit (Invoke_subevent_handler f event) s))
      /\ (subevent_handlers_ s !! GetSubeventCode event = None ->
          on_le_meta_event event s
          = Aborted (Unhandled_le_event (GetSubeventCode event)) s)).
Proof.
  split; [|split; [|split; [|split]]].
  - intros f Hf. unfold on_hci_event. rewrite Hf. reflexivity.
  - intros Hn. unfold on_hci_event. rewrite Hn. reflexivity.
  - intros s0 ts Hs0 Hall Hrun.
    apply (run_keeps_handler ts _ _ s0 s); [|exact Hall|exact Hrun].
    apply (Start_registers s0 Hs0).
  - intros Hc Hf. split; [|reflexivity].
    unfold on_hci_event. rewrite Hc, Hf. reflexivity.
  - intros Hv. unfold on_le_meta_event. cbn zeta. step_handler. rewrite Hv.
    split.
    + intros f Hf. rewrite Hf. reflexivity.
    + intros Hn. rewrite Hn. reflexivity.
Qed.

End Dispatch.

(** C8, as it is stated, fails once the handler of [LE_META_EVENT] is
    unregistered, which [UnregisterEventHandler] lets any client do: an LE
    meta event whose subevent has no handler is then dropped with the debug
    log, and the process does not abort. *)
Lemma unregistered_le_meta_event_is_dropped :
  exists s,
    run Wire2.le_meta_unregistered (fst Start) = Done s
    /\ GetEventCode Wire.le_subevent_1 = LE_META_EVENT
    /\ LeMetaEventView_IsValid Wire.le_subevent_1 = true
    /\ subevent_handlers_ s !! GetSubeventCode Wire.le_subevent_1 = None
    /\ on_hci_event Wire.le_subevent_1 s
       = Done (emit (LOG_DEBUG_dropping LE_META_EVENT) s).
Proof.
  eexists. split; [vm_compute; reflexivity|].
  repeat split; reflexivity.
Qed.

Lemma events_are_dispatched_by_table_witness :
  run (snd Start) (fst Start) = Done (state_of Wire.started)
  /\ Forall (fun t => t <> call_handle_unregister_event_handler LE_META_EVENT)
            Wire2.after_start
  /\ run Wire2.after_start (state_of Wire.started)
     = Done (state_of (run Wire2.after_start (state_of Wire.started)))
  /\ GetEventCode Wire.le_subevent_1 = LE_META_EVENT
  /\ LeMetaEventView_IsValid Wire.le_subevent_1 = true
  /\ on_hci_event Wire.le_subevent_1
       (state_of (run Wire2.after_start (state_of Wire.started)))
     = Done (emit (Invoke_event_handler BindOn_on_le_meta_event Wire.le_subevent_1)
               (state_of (run Wire2.after_start (state_of Wire.started))))
  /\ on_le_meta_event Wire.le_subevent_1
       (state_of (run Wire2.after_start (state_of Wire.started)))
     = Done (emit (Invoke_subevent_handler (ClientLeEventCallback 3) Wire.le_subevent_1)
               (state_of (run Wire2.after_start (state_of Wire.started)))).
Proof.
  assert (H1 : run (snd Start) (fst Start) = Done (state_of Wire.started))
    by (vm_compute; reflexivity).
  assert (H2 : Forall (fun t => t <> call_handle_unregister_event_handler LE_META_EVENT)
                      Wire2.after_start)
    by (repeat constructor; discriminate).
  assert (H3 : run Wire2.after_start (state_of Wire.started)
               = Done (state_of (run Wire2.after_start (state_of Wire.started))))
    by (vm_compute; reflexivity).
  assert (H4 : GetEventCode Wire.le_subevent_1 = LE_META_EVENT) by reflexivity.
  assert (H5 : LeMetaEventView_IsValid Wire.le_subevent_1 = true) by reflexivity.
  repeat (split; [assumption|]).
  destruct (events_are_dispatched_by_table Wire.le_subevent_1
              (state_of (run Wire2.after_start (state_of Wire.started))))
    as (_ & _ & Hkeep & Hle & Hsub).
  split.
  - exact (proj1 (Hle H4 (Hkeep _ _ H1 H2 H3))).
  - apply (proj1 (Hsub H5)). reflexivity.
Defined.
